(** * Tabular block composition of merlin_models.tf

    A shallow embedding of [merlin_models/tf/tabular.py]: the named
    tensor bundles (Python dicts), the layers that filter, aggregate,
    wrap and merge them, the per-call pipeline of [TabularLayer] and the
    static shape functions.

    Python dicts are mutable objects that callers and callees share, so
    they live in a store and values refer to them by location; a layer
    call is a computation in a state-and-exception monad over that
    store.  Tensors are concrete: a shape and the row-major list of
    their elements.  The layers only move elements around, they never
    compute with them, so integers stand in for the scalars. *)

From stdpp Require Import base list strings sorting.
From Stdlib Require Import ZArith Lia Ascii.

(** ** Exceptions *)

(** The Python exceptions the modelled code can raise.  [SystemError]
    is raised on a reference that is not in the store; no Python
    program can form one. *)
Inductive exn : Type :=
  | AssertionError (msg : string)
  | AttributeError
  | IndexError
  | KeyError (k : string)
  | TypeError
  | ValueError
  | InvalidArgumentError
  | RecursionError
  | SystemError.

Inductive outcome (A : Type) : Type :=
  | Raise (e : exn)
  | Return (a : A).
Arguments Raise {A} e.
Arguments Return {A} a.

(** ** Values and the store *)

Record Tensor : Type := mkTensor { shape : list nat; data : list Z }.

Definition loc := nat.

(** What flows between layers: a tensor, a tuple of tensors (the
    [(values, row_lengths)] pair of a multi-valued column) or a
    reference to a dict. *)
Inductive value : Type :=
  | VTensor (t : Tensor)
  | VTuple (ts : list Tensor)
  | VDict (r : loc).

(** A dict in insertion order; its keys are pairwise distinct. *)
Abbreviation pydict V := (list (string * V)).

Abbreviation store := (list (pydict value)).

Definition M (A : Type) : Type := store → outcome (A * store).

#[global] Instance M_ret : MRet M := λ A a σ, Return (a, σ).

#[global] Instance M_bind : MBind M := λ A B f m σ,
  match m σ with
  | Raise e => Raise e
  | Return (a, σ') => f a σ'
  end.

Definition raise {A} (e : exn) : M A := λ _, Raise e.

(** Pure code that may raise. *)
#[global] Instance outcome_ret : MRet outcome := λ A a, Return a.

#[global] Instance outcome_bind : MBind outcome := λ A B f m,
  match m with
  | Raise e => Raise e
  | Return a => f a
  end.

#[global] Instance outcome_fmap : FMap outcome := λ A B f m,
  match m with
  | Raise e => Raise e
  | Return a => Return (f a)
  end.

Definition lift {A} (m : outcome A) : M A := λ σ,
  match m with
  | Raise e => Raise e
  | Return a => Return (a, σ)
  end.

(** [for x in xs: body(x)] *)
Fixpoint for_each {A} (xs : list A) (body : A → M ()) : M () :=
  match xs with
  | [] => mret ()
  | x :: xs' => body x;; for_each xs' body
  end.

(** ** Dict operations *)

(** [d.get(k)] *)
Fixpoint dict_get {V} (k : string) (d : pydict V) : option V :=
  match d with
  | [] => None
  | (k', v) :: d' => if decide (k = k') then Some v else dict_get k d'
  end.

(** [d[k] = v]: an existing key keeps its position, a new one goes last. *)
Fixpoint dict_set {V} (k : string) (v : V) (d : pydict V) : pydict V :=
  match d with
  | [] => [(k, v)]
  | (k', v') :: d' =>
      if decide (k = k') then (k, v) :: d' else (k', v') :: dict_set k v d'
  end.

(** [d.update(other)] *)
Definition dict_update {V} (d other : pydict V) : pydict V :=
  foldl (λ acc kv, dict_set kv.1 kv.2 acc) d other.

(** [{k: v for k, v in items}] *)
Definition dict_of_items {V} (items : list (string * V)) : pydict V :=
  dict_update [] items.

(** The dict left by [d.pop(k)]. *)
Definition dict_remove {V} (k : string) (d : pydict V) : pydict V :=
  filter (λ kv, kv.1 ≠ k) d.

(** The same operations on a dict object of the store. *)

Definition load (r : loc) : M (pydict value) := λ σ,
  match σ !! r with
  | Some d => Return (d, σ)
  | None => Raise SystemError
  end.

Definition save (r : loc) (d : pydict value) : M () := λ σ,
  Return ((), <[r := d]> σ).

Definition new_dict (d : pydict value) : M loc := λ σ,
  Return (length σ, σ ++ [d]).

Definition dict_pop (r : loc) (k : string) : M value := λ σ,
  match σ !! r with
  | Some d =>
      match dict_get k d with
      | Some v => Return (v, <[r := dict_remove k d]> σ)
      | None => Raise (KeyError k)
      end
  | None => Raise SystemError
  end.

(** ** FilterFeatures *)

Definition FilterFeatures_call (columns : list string) (pop : bool)
    (inputs : value) : M value :=
  match inputs with
  | VDict r =>
      items ← load r;
      outputs ← new_dict (dict_of_items (filter (λ kv, kv.1 ∈ columns) items));
      (if pop
       then keys ← load outputs;
            for_each keys.*1 (λ key, dict_pop r key;; mret ())
       else mret ());;
      mret (VDict outputs)
  | _ => raise (AssertionError "Inputs needs to be a dict")
  end.

(** ** Tensors and the TensorFlow operations the layers call

    These belong to TensorFlow, not to the repository; they are
    rendered from their documented behaviour (eager mode), as far as
    the layers use them. *)

Fixpoint list_prod (l : list nat) : nat :=
  match l with
  | [] => 1
  | n :: l' => n * list_prod l'
  end.

(** [tf.keras.layers.Flatten()(t)]: keeps the batch axis and collapses
    the others into one; a vector [(b,)] becomes [(b, 1)], a scalar is
    refused ([min_ndim=1]).  Row-major data is unchanged. *)
Definition Flatten_call (t : Tensor) : outcome Tensor :=
  match shape t with
  | [] => Raise ValueError
  | b :: rest => Return (mkTensor [b; list_prod rest] (data t))
  end.

(** An axis counted from the end when negative; [rank] is the number
    of positions it may take. *)
Definition normalize_axis (rank : nat) (axis : Z) : option nat :=
  if decide (0 ≤ axis < Z.of_nat rank)%Z then Some (Z.to_nat axis)
  else if decide (- Z.of_nat rank ≤ axis < 0)%Z
       then Some (Z.to_nat (Z.of_nat rank + axis))
  else None.

(** Row-major data of the tensors [ts] laid side by side at axis [a]:
    for each index of the [outer] leading axes, the matching block of
    every tensor in turn. *)
Definition interleave (a outer : nat) (ts : list Tensor) : list Z :=
  i ← seq 0 outer;
  t ← ts;
  let inner := list_prod (drop a (shape t)) in
  take inner (drop (i * inner) (data t)).

(** Shapes that agree everywhere but at axis [a]. *)
Definition same_but_axis (a : nat) (s1 s2 : list nat) : bool :=
  bool_decide (length s1 = length s2 ∧ take a s1 = take a s2
               ∧ drop (S a) s1 = drop (S a) s2).

(** [tf.concat(values, axis)]; a list of one tensor is returned as it
    is. *)
Definition tf_concat (values : list Tensor) (axis : Z) : outcome Tensor :=
  match values with
  | [] => Raise ValueError
  | [t] => Return t
  | t0 :: _ =>
      match normalize_axis (length (shape t0)) axis with
      | None => Raise InvalidArgumentError
      | Some a =>
          if forallb (λ t, same_but_axis a (shape t0) (shape t)) values
          then Return (mkTensor
                 (take a (shape t0)
                  ++ [sum_list ((λ t, nth a (shape t) 0) <$> values)]
                  ++ drop (S a) (shape t0))
                 (interleave a (list_prod (take a (shape t0))) values))
          else Raise InvalidArgumentError
      end
  end.

(** [tf.stack(values, axis)]: the tensors, all of one shape, along a
    new axis at position [axis] of the result. *)
Definition tf_stack (values : list Tensor) (axis : Z) : outcome Tensor :=
  match values with
  | [] => if decide (axis = 0%Z) then Return (mkTensor [0] []) else Raise IndexError
  | t0 :: _ =>
      match normalize_axis (S (length (shape t0))) axis with
      | None => Raise ValueError
      | Some a =>
          if forallb (λ t, bool_decide (shape t = shape t0)) values
          then Return (mkTensor
                 (take a (shape t0) ++ [length values] ++ drop a (shape t0))
                 (interleave a (list_prod (take a (shape t0))) values))
          else Raise InvalidArgumentError
      end
  end.

(** [sorted(d)] on the entries of a dict: by key, in code point order. *)
Fixpoint insert_sorted {V} (kv : string * V) (l : list (string * V))
    : list (string * V) :=
  match l with
  | [] => [kv]
  | x :: l' =>
      if String.leb kv.1 x.1 then kv :: l else x :: insert_sorted kv l'
  end.

Definition sorted_items {V} (d : pydict V) : list (string * V) :=
  foldr insert_sorted [] d.

(** [tf.nest.flatten(structure)]: the tensors of a structure, a dict
    being walked in the sorted order of its keys.  Dicts nest through
    the store; [depth] bounds the nesting that is followed. *)
Fixpoint nest_flatten_at (depth : nat) (structure : value) : M (list Tensor) :=
  match structure with
  | VTensor t => mret [t]
  | VTuple ts => mret ts
  | VDict r =>
      match depth with
      | 0 => raise RecursionError
      | S depth' =>
          d ← load r;
          leaves ← mapM (λ kv, nest_flatten_at depth' kv.2) (sorted_items d);
          mret (concat leaves)
      end
  end.

(** Dicts that do not contain themselves nest no deeper than the store
    has objects. *)
Definition nest_flatten (structure : value) : M (list Tensor) := λ σ,
  nest_flatten_at (length σ) structure σ.

(** [tf.nest.map_structure(func, structure)]: [func] is applied to the
    tensors in the order of [tf.nest.flatten]; the result has the
    structure of the argument, a dict giving a new dict with its keys
    in their original order. *)
Fixpoint nest_map_structure_at (depth : nat) (func : Tensor → outcome Tensor)
    (structure : value) : M value :=
  match structure with
  | VTensor t => t' ← lift (func t); mret (VTensor t')
  | VTuple ts => ts' ← mapM (λ t, lift (func t)) ts; mret (VTuple ts')
  | VDict r =>
      match depth with
      | 0 => raise RecursionError
      | S depth' =>
          d ← load r;
          result ← mapM (λ kv, v' ← nest_map_structure_at depth' func kv.2;
                               mret (kv.1, v')) (sorted_items d);
          r' ← new_dict (omap (λ kv, (kv.1,.) <$> dict_get kv.1 result) d);
          mret (VDict r')
      end
  end.

Definition nest_map_structure (func : Tensor → outcome Tensor)
    (structure : value) : M value := λ σ,
  nest_map_structure_at (length σ) func structure σ.

(** ** The aggregation layers *)

Definition ConcatFeatures_call (axis : Z) (inputs : value) : M value :=
  flat ← nest_map_structure Flatten_call inputs;
  tensors ← nest_flatten flat;
  t ← lift (tf_concat tensors axis);
  mret (VTensor t).

Definition StackFeatures_call (axis : Z) (inputs : value) : M value :=
  flat ← nest_map_structure Flatten_call inputs;
  tensors ← nest_flatten flat;
  t ← lift (tf_stack tensors axis);
  mret (VTensor t).

(** ** AsTabular *)

Definition AsTabular_call (output_name : string) (inputs : value) : M value :=
  r ← new_dict [(output_name, inputs)];
  mret (VDict r).

(** ** TabularLayer *)

(** A layer as its callers see it: something to call on a value. *)
Definition Layer : Type := value → M value.

(** [outputs.update(to_add)] on the dict object [outputs].  A receiver
    that is not a dict has no [update]; an argument that is a tensor or
    a tuple of tensors is not a mapping, and is rendered as a
    [TypeError]. *)
Definition update_in (outputs to_add : value) : M () :=
  match outputs with
  | VDict r =>
      match to_add with
      | VDict r' =>
          other ← load r';
          d ← load r;
          save r (dict_update d other)
      | _ => raise TypeError
      end
  | _ => raise AttributeError
  end.

Inductive aggregator : Type :=
  | ConcatFeatures (axis : Z)
  | StackFeatures (axis : Z).

Definition aggregator_call (op : aggregator) : Layer :=
  match op with
  | ConcatFeatures axis => ConcatFeatures_call axis
  | StackFeatures axis => StackFeatures_call axis
  end.

(** [TabularLayer.set_aggregation] *)
Definition set_aggregation (aggregation : option string) : option aggregator :=
  match aggregation with
  | Some name =>
      if decide (name = "concat") then Some (ConcatFeatures (-1))
      else if decide (name = "stack") then Some (StackFeatures (-1))
      else None
  | None => None
  end.

(** A [TabularLayer] instance: the [aggregation] attribute and the
    [call] method of the subclass. *)
Record TabularLayer : Type := mkTabularLayer {
  aggregation : option aggregator;
  call : Layer
}.

(** [TabularLayer.__init__] *)
Definition TabularLayer___init__ (aggregation : option string) (call : Layer)
    : TabularLayer :=
  mkTabularLayer (set_aggregation aggregation) call.

(** The first statements of [TabularLayer.__call__]: the aggregation
    applied to the outputs of this call. *)
Definition post_op_of (self : TabularLayer) (stack_outputs concat_outputs : bool)
    : option aggregator :=
  let post_op := aggregation self in
  let post_op := if concat_outputs then Some (ConcatFeatures (-1)) else post_op in
  let post_op := if stack_outputs then Some (StackFeatures (-1)) else post_op in
  post_op.

(** [TabularLayer.__call__].  [merge_with] is the list the method
    iterates over, a single layer or tensor having been wrapped in a
    list and [None] being the empty list; each element is a callable
    (left) or not (right).  [filter_columns] is [None] or a list; [post]
    is accepted and never read. *)
Definition TabularLayer___call__ (self : TabularLayer) (inputs : value)
    (pre post : option Layer) (merge_with : list (Layer + value))
    (stack_outputs concat_outputs : bool)
    (filter_columns : option (list string)) : M value :=
  let post_op := post_op_of self stack_outputs concat_outputs in
  let pre :=
    match filter_columns with
    | Some (c :: cs) => Some (FilterFeatures_call (c :: cs) false)
    | _ => pre
    end in
  inputs ← match pre with
           | Some pre => pre inputs
           | None => mret inputs
           end;
  outputs ← call self inputs;
  for_each merge_with (λ layer_or_tensor,
    to_add ← match layer_or_tensor with
             | inl layer => layer inputs
             | inr tensor => mret tensor
             end;
    update_in outputs to_add);;
  match post_op with
  | Some post_op => aggregator_call post_op outputs
  | None => mret outputs
  end.

(** ** MergeTabular *)

Definition MergeTabular_call (to_merge : list Layer) (inputs : value) : M value :=
  match inputs with
  | VDict _ =>
      outputs ← new_dict [];
      for_each to_merge (λ layer,
        to_add ← layer inputs;
        update_in (VDict outputs) to_add);;
      mret (VDict outputs)
  | _ => raise (AssertionError "Inputs needs to be a dict")
  end.

(** ** Shape inference *)

(** A dimension: an integer, or [None] when unknown. *)
Definition dim : Type := option nat.

(** What the shape functions handle: a dimension, the [TensorShape] of
    a tensor, or a tuple (the shapes of a [(values, row_lengths)] pair,
    or the tuple a shape function returns). *)
#[warnings="-register-all"]
Inductive sval : Type :=
  | SDim (d : dim)
  | TensorShape (dims : list dim)
  | STuple (elts : list sval).

(** [l[i]] *)
Definition py_index {A} (l : list A) (i : Z) : outcome A :=
  let n := Z.of_nat (length l) in
  let j := if decide (i < 0)%Z then (n + i)%Z else i in
  if decide (0 ≤ j)%Z then
    match l !! Z.to_nat j with
    | Some x => Return x
    | None => Raise IndexError
    end
  else Raise IndexError.

(** [s[i]]: a [TensorShape] gives a dimension, a tuple its element. *)
Definition getitem (s : sval) (i : Z) : outcome sval :=
  match s with
  | TensorShape dims => SDim <$> py_index dims i
  | STuple elts => py_index elts i
  | SDim _ => Raise TypeError
  end.

(** [isinstance(s, tuple)] *)
Definition is_tuple (s : sval) : bool :=
  match s with
  | STuple _ => true
  | _ => false
  end.

Definition calculate_batch_size_from_input_shapes (input_shapes : pydict sval)
    : outcome sval :=
  first ← py_index (filter (λ i, is_tuple i = false) input_shapes.*2) 0;
  getitem first 0.

(** [sum(xs)] of dimensions.  An unknown dimension cannot be added to
    an integer; neither can anything that is not a dimension be summed
    to a number. *)
Fixpoint py_sum (xs : list sval) : outcome nat :=
  match xs with
  | [] => Return 0
  | SDim (Some n) :: xs' => (λ total, n + total) <$> py_sum xs'
  | _ => Raise TypeError
  end.

Definition ConcatFeatures_compute_output_shape (input_shapes : pydict sval)
    : outcome sval :=
  batch_size ← calculate_batch_size_from_input_shapes input_shapes;
  widths ← mapM (λ i, getitem i 1) input_shapes.*2;
  total ← py_sum widths;
  mret (STuple [batch_size; SDim (Some total)]).

Definition StackFeatures_compute_output_shape (input_shapes : pydict sval)
    : outcome sval :=
  batch_size ← calculate_batch_size_from_input_shapes input_shapes;
  first ← py_index input_shapes.*2 0;
  last_dim ← getitem first (-1);
  mret (STuple [batch_size; SDim (Some (length input_shapes)); last_dim]).

(** The [TensorShape] of a tensor. *)
Definition shape_of (t : Tensor) : sval := TensorShape (Some <$> shape t).

(** ** Composition *)

(** Modelled from the spec: the operands and results of [>>], among
    them the [SequentialBlock] of [merlin_models/tf/blocks/base.py],
    which is not among the sources.  A block is one layer, or the flat
    sequence of layers of a chain. *)
Inductive block : Type :=
  | Single (layer : Layer)
  | SequentialBlock (layers : list Layer).








(** ** Construction from a column group *)

Section from_column_group.

(** [ColumnGroup] belongs to nvtabular: its [columns] attribute and its
    [get_tagged] method are taken as given.  [cls] is the class being
    instantiated from its keyword arguments, and [rrshift_columns self
    features] is [right_shift_layer(self, features)] for a list of
    column names [features], a case of that function on which the spec
    is silent. *)
Context {ColumnGroup Tag Kwargs : Type}.
Variable columns : ColumnGroup → list string.
Variable get_tagged : ColumnGroup → list Tag → option (list Tag) → ColumnGroup.
Variable cls : Kwargs → TabularLayer.
Variable rrshift_columns : TabularLayer → list string → block.

(** [features >> cls(...)]: a list has no [__rshift__] either. *)
Definition from_features (features : list string) (kwargs : Kwargs) : block :=
  rrshift_columns (cls kwargs) features.

(** The column group after [if tags: column_group = ...]. *)
Definition tagged_group (column_group : ColumnGroup) (tags : option (list Tag))
    (tags_to_filter : option (list Tag)) : ColumnGroup :=
  match tags with
  | Some (t :: ts) => get_tagged column_group (t :: ts) tags_to_filter
  | _ => column_group
  end.

Definition from_column_group (column_group : ColumnGroup)
    (tags : option (list Tag)) (tags_to_filter : option (list Tag))
    (kwargs : Kwargs) : option block :=
  let column_group := tagged_group column_group tags tags_to_filter in
  match columns column_group with
  | [] => None
  | _ :: _ => Some (from_features (columns column_group) kwargs)
  end.

End from_column_group.

(** ** Vocabulary of the statements *)

(** [layer], called on the dict at [r] when it holds [B], returns a
    dict holding [d] and leaves [B'] at [r]; besides that it only
    creates objects.  The returned dict may be a new one, the input
    itself or any other object. *)
Definition runs_on (layer : Layer) (r : loc) (B B' d : pydict value) : Prop :=
  ∀ σ : store, σ !! r = Some B →
    ∃ (l : loc) (new : store),
      layer (VDict r) σ = Return (VDict l, <[r := B']> σ ++ new)
      ∧ (<[r := B']> σ ++ new) !! l = Some d.

(** The layers called one after the other on the dict at [r], which
    holds [B] before the first call and [Bn] after the last; [ds] are
    the dicts they return. *)
Inductive runs_in_turn (r : loc)
    : pydict value → list Layer → list (pydict value) → pydict value → Prop :=
  | runs_nil B : runs_in_turn r B [] [] B
  | runs_cons B B1 Bn layer d layers ds :
      runs_on layer r B B1 d →
      runs_in_turn r B1 layers ds Bn →
      runs_in_turn r B (layer :: layers) (d :: ds) Bn.

(** A bundle of tensors only, and the tensor [Flatten] makes of one
    of rank at least one. *)
Definition bundle_of (kts : list (string * Tensor)) : pydict value :=
  prod_map id VTensor <$> kts.

Definition flat (t : Tensor) : Tensor :=
  mkTensor [hd 0 (shape t); list_prod (tl (shape t))] (data t).

(** A layer that returns a new dict [d] whatever it is called on. *)
Definition constant_layer (d : pydict value) : Layer := λ _,
  r ← new_dict d;
  mret (VDict r).

(** The entry under [k] of the last dict of [ds] that has one. *)
Fixpoint last_write {V} (k : string) (ds : list (pydict V)) : option V :=
  match ds with
  | [] => None
  | d :: ds' =>
      match last_write k ds' with
      | Some v => Some v
      | None => dict_get k d
      end
  end.

(** * The rest of the module *)

(** ** Shape functions of the layers *)

(** [FilterFeatures.compute_output_shape] *)
Definition FilterFeatures_compute_output_shape (columns : list string)
    (input_shape : pydict sval) : pydict sval :=
  dict_of_items (filter (λ kv, kv.1 ∈ columns) input_shape).

(** The shapes of a bundle of tensors. *)
Definition shapes_of (kts : list (string * Tensor)) : pydict sval :=
  prod_map id shape_of <$> kts.


(** What a shape function returns: a dict of shapes, or one shape. *)
Inductive shapes : Type :=
  | ShapeDict (d : pydict sval)
  | Shape (s : sval).

(** The [compute_output_shape] method of a layer, as
    [MergeTabular.compute_output_shape] calls it. *)
Definition shape_fn : Type := pydict sval → outcome shapes.

Definition aggregator_compute_output_shape (op : aggregator)
    (input_shapes : pydict sval) : outcome sval :=
  match op with
  | ConcatFeatures _ => ConcatFeatures_compute_output_shape input_shapes
  | StackFeatures _ => StackFeatures_compute_output_shape input_shapes
  end.

(** [TabularLayer.compute_output_shape] *)
Definition TabularLayer_compute_output_shape (self : TabularLayer)
    (input_shapes : pydict sval) : outcome shapes :=
  match aggregation self with
  | Some op => Shape <$> aggregator_compute_output_shape op input_shapes
  | None => Return (ShapeDict input_shapes)
  end.

(** The loop of [MergeTabular.compute_output_shape].  A layer whose
    shape function returns a tuple of dimensions makes
    [output_shapes.update] fail: a dimension is no key/value pair. *)
Fixpoint merge_output_shapes (to_merge : list shape_fn)
    (input_shape output_shapes : pydict sval) : outcome (pydict sval) :=
  match to_merge with
  | [] => Return output_shapes
  | layer :: to_merge' =>
      s ← layer input_shape;
      match s with
      | ShapeDict d =>
          merge_output_shapes to_merge' input_shape (dict_update output_shapes d)
      | Shape _ => Raise TypeError
      end
  end.

(** [MergeTabular.compute_output_shape] *)
Definition MergeTabular_compute_output_shape (to_merge : list shape_fn)
    (input_shape : pydict sval) : outcome (pydict sval) :=
  merge_output_shapes to_merge input_shape [].

(** ** Layers as callables *)

(** [tf.keras.layers.Layer.call], which [TabularLayer] inherits: the
    inputs as they are. *)
Definition Layer_call : Layer := λ inputs, mret inputs.

(** A [TabularLayer] called on its inputs alone: [__call__] with the
    defaults of its other parameters. *)
Definition as_layer (self : TabularLayer) : Layer := λ inputs,
  TabularLayer___call__ self inputs None None [] false false None.

(** [MergeTabular.__init__] *)
Definition MergeTabular___init__ (to_merge : list Layer)
    (aggregation : option string) : TabularLayer :=
  TabularLayer___init__ aggregation (MergeTabular_call to_merge).

(** [merge_tabular], which is also [TabularLayer.__add__] and
    [TabularLayer.merge]. *)
Definition merge_tabular (self other : TabularLayer) : TabularLayer :=
  MergeTabular___init__ [as_layer self; as_layer other] None.


(** The tuple of known dimensions that stands for the shape [s]. *)
Definition dims_tuple (s : list nat) : sval :=
  STuple ((λ n, SDim (Some n)) <$> s).

(** Entries in the order of their keys, as [sorted] compares them. *)
Definition key_le {V} (x y : string * V) : Prop := String.leb x.1 y.1 = true.


(** ** MLPBlock *)

Section MLPBlock.

(** [Activation], [Rate] and [Norm] are the types of the [activation],
    of a [dropout] rate and of a normalization layer passed as an
    object; [truthy] is [bool(dropout)] on a rate, false for zero. *)
Context {Activation Rate Norm : Type}.
Variable truthy : Rate → bool.

(** The Keras layers [MLPBlock.__init__] creates, and what it appends
    for a normalization it is given: the object or the string
    itself. *)
Inductive keras_layer : Type :=
  | Dense (units : Z) (activation : Activation) (use_bias : bool)
  | Dropout (rate : Rate)
  | BatchNormalization
  | Given (normalization : string + Norm).

(** [if dropout:] *)
Definition dropout_on (dropout : option Rate) : bool :=
  match dropout with
  | Some rate => truthy rate
  | None => false
  end.

(** [if normalization:]; an object is true, a string unless empty. *)
Definition normalization_on (normalization : option (string + Norm)) : bool :=
  match normalization with
  | Some (inl name) => bool_decide (name ≠ "")
  | Some (inr _) => true
  | None => false
  end.

(** The body of the loop of [MLPBlock.__init__], for one [dim]. *)
Definition MLPBlock_step (activation : Activation) (use_bias : bool)
    (dropout : option Rate) (normalization : option (string + Norm))
    (layers : list keras_layer) (dim : Z) : list keras_layer :=
  let layers := layers ++ [Dense dim activation use_bias] in
  let layers :=
    match dropout with
    | Some rate => if truthy rate then layers ++ [Dropout rate] else layers
    | None => layers
    end in
  match normalization with
  | Some norm =>
      if normalization_on (Some norm) then
        match norm with
        | inl name =>
            if decide (name = "batch_norm")
            then layers ++ [BatchNormalization]
            else layers ++ [Given norm]
        | inr _ => layers ++ [Given norm]
        end
      else layers
  | None => layers
  end.

(** The list [layers] that [MLPBlock.__init__] hands to
    [SequentialBlock.__init__]. *)
Definition MLPBlock_layers (dimensions : list Z) (activation : Activation)
    (use_bias : bool) (dropout : option Rate)
    (normalization : option (string + Norm)) : list keras_layer :=
  foldl (MLPBlock_step activation use_bias dropout normalization) []
    dimensions.

(** [Dense] layers only. *)
Definition is_Dense (layer : keras_layer) : bool :=
  match layer with
  | Dense _ _ _ => true
  | _ => false
  end.

(** What the loop appends for the normalization. *)
Definition is_normalization (layer : keras_layer) : bool :=
  match layer with
  | BatchNormalization | Given _ => true
  | _ => false
  end.

End MLPBlock.


(** ** AsDenseFeatures *)

(** [t[:, 0]]: the first column of a tensor of rank at least two. *)
Definition column0 (t : Tensor) : outcome Tensor :=
  match shape t with
  | n :: c :: inner =>
      if decide (c = 0) then Raise InvalidArgumentError
      else Return (mkTensor (n :: inner)
             (i ← seq 0 n;
              take (list_prod inner) (drop (i * c * list_prod inner) (data t))))
  | _ => Raise InvalidArgumentError
  end.

(** The rows of a ragged tensor, each padded with zeros to [width]
    items of [size] elements. *)
Fixpoint padded_rows (size width : nat) (lens : list nat) (elts : list Z)
    : list (list Z) :=
  match lens with
  | [] => []
  | len :: lens' =>
      (take (len * size) elts ++ replicate ((width - len) * size) 0%Z)
      :: padded_rows size width lens' (drop (len * size) elts)
  end.

(** [tf.RaggedTensor.from_row_lengths(values, row_lengths).to_tensor()]:
    [row_lengths] is a vector of lengths that are not negative and add
    up to the number of rows of [values]; the result has one row per
    length, as wide as the longest. *)
Definition RaggedTensor_to_tensor (values row_lengths : Tensor)
    : outcome Tensor :=
  match shape row_lengths, shape values with
  | [nrows], n :: inner =>
      if forallb (λ len, bool_decide (0 ≤ len)%Z) (data row_lengths)
         && bool_decide (sum_list (Z.to_nat <$> data row_lengths) = n)
      then
        let lens := Z.to_nat <$> data row_lengths in
        Return (mkTensor (nrows :: max_list lens :: inner)
                  (concat (padded_rows (list_prod inner) (max_list lens) lens
                             (data values))))
      else Raise InvalidArgumentError
  | _, _ => Raise ValueError
  end.

(** [outputs[name] = val] on the dict object [outputs]. *)
Definition setitem (outputs : loc) (name : string) (val : value) : M () :=
  d ← load outputs;
  save outputs (dict_set name val d).

(** The dense tensor of a [(values, row_lengths)] pair. *)
Definition ragged_pair_to_tensor (ts : list Tensor) : outcome Tensor :=
  val0 ← py_index ts 0;
  values ← column0 val0;
  val1 ← py_index ts 1;
  row_lengths ← column0 val1;
  RaggedTensor_to_tensor values row_lengths.

(** The body of the loop of [AsDenseFeatures.call]. *)
Definition AsDenseFeatures_step (outputs : loc) (name : string) (val : value)
    : M () :=
  match val with
  | VTuple ts =>
      t ← lift (ragged_pair_to_tensor ts);
      setitem outputs name (VTensor t)
  | _ => setitem outputs name val
  end.

(** [AsDenseFeatures.call]; a value that is no dict has no [items]. *)
Definition AsDenseFeatures_call (inputs : value) : M value :=
  match inputs with
  | VDict r =>
      outputs ← new_dict [];
      items ← load r;
      for_each items (λ item, AsDenseFeatures_step outputs item.1 item.2);;
      mret (VDict outputs)
  | _ => raise AttributeError
  end.

(** What [AsDenseFeatures.call] puts in the place of one value. *)
Definition densified (val : value) : outcome value :=
  match val with
  | VTuple ts => VTensor <$> ragged_pair_to_tensor ts
  | val => Return val
  end.

Definition is_VTuple (val : value) : bool :=
  match val with
  | VTuple _ => true
  | _ => false
  end.

(** A tensor with as many elements as its shape says. *)
Definition well_formed (t : Tensor) : Prop :=
  length (data t) = list_prod (shape t).

(** ** ParseTokenizedText *)

(** [s[n:]] *)
Fixpoint str_drop (n : nat) (s : string) : string :=
  match n, s with
  | S n', String _ s' => str_drop n' s'
  | _, _ => s
  end.

(** [s.endswith(suffix)] for one suffix. *)
Definition endswith1 (s suffix : string) : bool :=
  bool_decide (String.length suffix ≤ String.length s)
  && bool_decide
       (str_drop (String.length s - String.length suffix) s = suffix).

(** [s.endswith(suffixes)] for a tuple of suffixes. *)
Definition endswith (s : string) (suffixes : list string) : bool :=
  existsb (endswith1 s) suffixes.

(** Puts a character in front of the first word. *)
Definition cons_head (c : ascii) (ws : list string) : list string :=
  match ws with
  | w :: ws' => String c w :: ws'
  | [] => [String c ""]
  end.

(** [s.split(sep)] for a separator of one character: the empty string
    gives one empty word, and so do two separators in a row. *)
Fixpoint split (sep : ascii) (s : string) : list string :=
  match s with
  | "" => [""]
  | String c s' =>
      if decide (c = sep) then "" :: split sep s'
      else cons_head c (split sep s')
  end.

(** [sep.join(ws)] *)
Fixpoint join (sep : string) (ws : list string) : string :=
  match ws with
  | [] => ""
  | w :: ws' =>
      match ws' with
      | [] => w
      | _ :: _ => w +:+ sep +:+ join sep ws'
      end
  end.

(** [l[:-1]] *)
Definition but_last {A} (l : list A) : list A := take (length l - 1) l.

(** ["/".join(name.split("/")[:-1])] *)
Definition text_column_name (name : string) : string :=
  join "/" (but_last (split "/"%char name)).

(** The suffixes of the two features of a tokenized text column. *)
Definition text_suffixes : list string := ["/tokens"; "/attention_mask"].

(** [d[k]] *)
Definition dict_getitem {V} (k : string) (d : pydict V) : outcome V :=
  match dict_get k d with
  | Some v => Return v
  | None => Raise (KeyError k)
  end.

(** A loop whose body may raise: [for x in xs: acc = f(acc, x)]. *)
Fixpoint fold_outcome {A B} (f : B → A → outcome B) (xs : list A) (acc : B)
    : outcome B :=
  match xs with
  | [] => Return acc
  | x :: xs' => acc' ← f acc x; fold_outcome f xs' acc'
  end.

(** [tf.TensorShape([batch_size, max_text_length])]: a dimension is
    [None] or an integer that is not negative. *)
Definition text_shape (batch_size : sval) (max_text_length : Z)
    : outcome sval :=
  match batch_size with
  | SDim d =>
      if decide (0 ≤ max_text_length)%Z
      then Return (TensorShape [d; Some (Z.to_nat max_text_length)])
      else Raise ValueError
  | _ => Raise TypeError
  end.

(** The first loop of [ParseTokenizedText.compute_output_shape]: the
    column names of the text features, one per feature, in the order of
    the dict. *)
Definition text_column_names_of_shapes (input_shapes : pydict sval)
    : list string :=
  foldl (λ text_column_names item,
           if is_tuple item.2 && endswith item.1 text_suffixes
           then text_column_names ++ [text_column_name item.1]
           else text_column_names)
        [] input_shapes.

(** The body of the first loop of [ParseTokenizedText.call], on the
    local [text_tensors] and [text_column_names]. *)
Definition ParseTokenizedText_scan (acc : pydict Tensor * list string)
    (item : string * value) : outcome (pydict Tensor * list string) :=
  match item.2 with
  | VTuple ts =>
      if endswith item.1 text_suffixes then
        t ← ragged_pair_to_tensor ts;
        Return (dict_set item.1 t acc.1, acc.2 ++ [text_column_name item.1])
      else Return acc
  | _ => Return acc
  end.

Section ParseTokenizedText.

(** The order in which [set(names)] is iterated depends on the hashes of
    the strings; [tf.cast] depends on the element types, which the
    tensors of this development do not record.  Both are left open. *)
Variable set_order : list string → list string.
Variable tf_cast_int32 : Tensor → Tensor.

(** The body of the second loop of [compute_output_shape]. *)
Definition ParseTokenizedText_shape_step (batch_size : sval)
    (max_text_length : Z) (output_shapes : pydict (pydict sval))
    (text_col : string) : outcome (pydict (pydict sval)) :=
  input_ids ← text_shape batch_size max_text_length;
  attention_mask ← text_shape batch_size max_text_length;
  Return (dict_set text_col
            [("input_ids", input_ids); ("attention_mask", attention_mask)]
            output_shapes).

Definition ParseTokenizedText_compute_output_shape
    (max_text_length : option Z) (input_shapes : pydict sval)
    : outcome (pydict (pydict sval)) :=
  match max_text_length with
  | None => Raise (AssertionError "")
  | Some max_text_length =>
      batch_size ← calculate_batch_size_from_input_shapes input_shapes;
      fold_outcome (ParseTokenizedText_shape_step batch_size max_text_length)
        (set_order (text_column_names_of_shapes input_shapes)) []
  end.

(** The body of the second loop of [call]: the dict of the two tensors
    of a text column is a new object. *)
Definition ParseTokenizedText_emit (text_tensors : pydict Tensor)
    (outputs : loc) (text_col : string) : M () :=
  input_ids ← lift (dict_getitem (text_col +:+ "/tokens") text_tensors);
  attention_mask ←
    lift (dict_getitem (text_col +:+ "/attention_mask") text_tensors);
  d ← new_dict [("input_ids", VTensor (tf_cast_int32 input_ids));
                ("attention_mask", VTensor (tf_cast_int32 attention_mask))];
  setitem outputs text_col (VDict d).

(** [ParseTokenizedText.call]; a value that is no dict has no [items]. *)
Definition ParseTokenizedText_call (inputs : value) : M value :=
  match inputs with
  | VDict r =>
      outputs ← new_dict [];
      items ← load r;
      scanned ← lift (fold_outcome ParseTokenizedText_scan items ([], []));
      for_each (set_order scanned.2)
        (ParseTokenizedText_emit scanned.1 outputs);;
      mret (VDict outputs)
  | _ => raise AttributeError
  end.

End ParseTokenizedText.

(** The text features of a bundle: the [(values, row_lengths)] pairs
    whose name ends in one of the two suffixes. *)
Definition is_text_feature (item : string * value) : bool :=
  is_VTuple item.2 && endswith item.1 text_suffixes.

(** * Properties *)

(** ** Lists and dicts *)

Section filter_facts.
Context {A : Type}.
Implicit Types (l : list A).

Lemma filter_ext_elem (P1 P2 : A → Prop)
    `{!∀ x, Decision (P1 x), !∀ x, Decision (P2 x)} l :
  (∀ x, x ∈ l → (P1 x ↔ P2 x)) → filter P1 l = filter P2 l.
Proof.
  induction l as [|a l IH]; intros Hiff; [done|].
  assert (filter P1 l = filter P2 l) as Hl.
  { apply IH. intros x Hx. apply Hiff. by right. }
  assert (P1 a ↔ P2 a) as Ha by (apply Hiff; left).
  rewrite !filter_cons, Hl.
  destruct (decide (P1 a)), (decide (P2 a)); tauto.
Qed.

Lemma filter_all (P : A → Prop) `{!∀ x, Decision (P x)} l :
  (∀ x, x ∈ l → P x) → filter P l = l.
Proof.
  induction l as [|a l IH]; intros Hall; [done|].
  rewrite filter_cons_True by (apply Hall; left).
  f_equal. apply IH. intros x Hx. apply Hall. by right.
Qed.

End filter_facts.

Section dict_facts.
Context {V : Type}.
Implicit Types (d items : pydict V) (k : string) (v : V).

Lemma dict_set_fresh k v d : k ∉ d.*1 → dict_set k v d = d ++ [(k, v)].
Proof.
  induction d as [|[k' v'] d IH]; simpl; [done|].
  intros Hk. apply not_elem_of_cons in Hk as [Hne Hk].
  rewrite decide_False by done. by rewrite IH.
Qed.

Lemma dict_update_fresh d items :
  NoDup (d ++ items).*1 → dict_update d items = d ++ items.
Proof.
  revert d. induction items as [|[k v] items IH]; intros d Hnd.
  - by rewrite app_nil_r.
  - unfold dict_update in *. simpl.
    rewrite dict_set_fresh.
    + rewrite IH; rewrite <- app_assoc; done.
    + rewrite fmap_app in Hnd. apply NoDup_app in Hnd as (_ & Hd & _).
      intros Hin. apply (Hd k Hin). simpl. left.
Qed.

Lemma dict_of_items_NoDup items : NoDup items.*1 → dict_of_items items = items.
Proof. intros Hnd. unfold dict_of_items. by rewrite dict_update_fresh. Qed.

Lemma NoDup_fst_filter (P : string * V → Prop) `{∀ x, Decision (P x)} d :
  NoDup d.*1 → NoDup (filter P d).*1.
Proof.
  induction d as [|[k v] d IH]; [done|].
  rewrite fmap_cons, NoDup_cons. intros [Hk Hnd].
  rewrite filter_cons. case_decide; [|by apply IH].
  rewrite fmap_cons, NoDup_cons. split; [|by apply IH].
  intros Hin. apply Hk. apply list_elem_of_fmap in Hin as (x & -> & Hx).
  apply list_elem_of_filter in Hx as [_ Hx].
  apply list_elem_of_fmap. by exists x.
Qed.

Lemma dict_get_Some_elem k d : k ∈ d.*1 → is_Some (dict_get k d).
Proof.
  induction d as [|[k' v'] d IH]; simpl.
  - by intros ?%elem_of_nil.
  - intros Hin. case_decide; [by eexists|].
    apply elem_of_cons in Hin as [?|?]; [done|by apply IH].
Qed.

End dict_facts.

(** ** The monad *)

Section monad_facts.
Context {A B : Type}.

Lemma bind_Return (m : M A) (f : A → M B) σ a σ' :
  m σ = Return (a, σ') → (m ≫= f) σ = f a σ'.
Proof. intros H. unfold mbind, M_bind. by rewrite H. Qed.

Lemma bind_Raise (m : M A) (f : A → M B) σ e :
  m σ = Raise e → (m ≫= f) σ = Raise e.
Proof. intros H. unfold mbind, M_bind. by rewrite H. Qed.

End monad_facts.

Section monad_laws.
Context {A B C : Type}.

Lemma bind_assoc_at (m : M A) (f : A → M B) (g : B → M C) σ :
  ((m ≫= f) ≫= g) σ = (m ≫= λ a, f a ≫= g) σ.
Proof. unfold mbind, M_bind. by destruct (m σ) as [e|[a σ']]. Qed.

Lemma bind_ret_at (m : M A) σ : (m ≫= mret) σ = m σ.
Proof. unfold mbind, M_bind, mret, M_ret. by destruct (m σ) as [e|[a σ']]. Qed.

Lemma bind_ext_at (m : M A) (f g : A → M B) σ :
  (∀ a σ', f a σ' = g a σ') → (m ≫= f) σ = (m ≫= g) σ.
Proof. intros H. unfold mbind, M_bind. by destruct (m σ) as [e|[a σ']]. Qed.

End monad_laws.

Lemma lift_Return {A} (m : outcome A) (a : A) (σ : store) :
  m = Return a → lift m σ = Return (a, σ).
Proof. by intros ->. Qed.

Lemma lift_Raise {A} (m : outcome A) (e : exn) (σ : store) :
  m = Raise e → lift m σ = @Raise (A * store) e.
Proof. by intros ->. Qed.

Lemma load_Return r (d : pydict value) (σ : store) :
  σ !! r = Some d → load r σ = Return (d, σ).
Proof. intros H. unfold load. by rewrite H. Qed.

(** ** FilterFeatures *)

Section store_facts.
Implicit Types (σ : store) (d : pydict value) (r : loc).

Lemma dict_pop_present r k d σ :
  σ !! r = Some d → k ∈ d.*1 →
  ∃ v, dict_pop r k σ = Return (v, <[r := dict_remove k d]> σ).
Proof.
  intros Hr Hk. unfold dict_pop. rewrite Hr.
  destruct (dict_get_Some_elem k d Hk) as [v ->]. by exists v.
Qed.

(** The loop [for key in ks: inputs.pop(key)] over distinct keys of the
    dict at [r] leaves there the entries whose key is not in [ks]. *)
Lemma pop_loop r (ks : list string) d σ :
  σ !! r = Some d → NoDup ks → (∀ k, k ∈ ks → k ∈ d.*1) →
  for_each ks (λ key, dict_pop r key;; mret ()) σ
    = Return ((), <[r := filter (λ kv, kv.1 ∉ ks) d]> σ).
Proof.
  revert d σ. induction ks as [|k ks IH]; intros d σ Hr Hnd Hin.
  - simpl. unfold mret, M_ret. do 2 f_equal.
    rewrite filter_all by (intros; apply not_elem_of_nil).
    by rewrite list_insert_id.
  - apply NoDup_cons in Hnd as [Hk Hnd].
    destruct (dict_pop_present r k d σ Hr) as [v Hpop].
    { apply Hin. left. }
    simpl. unfold mbind, M_bind at 1. unfold mbind, M_bind at 1.
    rewrite Hpop. unfold mret at 1, M_ret at 1.
    rewrite (IH (dict_remove k d)).
    + do 2 f_equal. rewrite list_insert_insert_eq. f_equal.
      unfold dict_remove. rewrite list_filter_filter.
      apply list_filter_iff. intros [k' v']. simpl.
      rewrite not_elem_of_cons. tauto.
    + apply list_lookup_insert_eq. by eapply lookup_lt_Some.
    + done.
    + intros k' Hk'. unfold dict_remove.
      assert (k' ∈ d.*1) as Hd by (apply Hin; by right).
      apply list_elem_of_fmap in Hd as ([k1 v1] & -> & Hd).
      apply list_elem_of_fmap. exists (k1, v1). split; [done|].
      apply list_elem_of_filter. split; [|done].
      simpl. intros ->. done.
Qed.

End store_facts.

(** What [FilterFeatures.call] returns and the store it leaves. *)
Lemma FilterFeatures_call_run (columns : list string) (pop : bool)
    (r : loc) (B : pydict value) (σ : store) :
  σ !! r = Some B → NoDup B.*1 →
  FilterFeatures_call columns pop (VDict r) σ
    = Return (VDict (length σ),
              <[r := if pop then filter (λ kv, kv.1 ∉ columns) B else B]> σ
              ++ [filter (λ kv, kv.1 ∈ columns) B]).
Proof.
  intros Hr Hnd.
  set (sel := filter (λ kv : string * value, kv.1 ∈ columns) B).
  assert (dict_of_items sel = sel) as Hsel.
  { apply dict_of_items_NoDup. by apply NoDup_fst_filter. }
  unfold FilterFeatures_call.
  erewrite bind_Return; [|by apply load_Return].
  erewrite bind_Return; [|reflexivity].
  fold sel. rewrite Hsel. destruct pop.
  - erewrite bind_Return; last first.
    { erewrite bind_Return; last first.
      { apply load_Return. rewrite lookup_app_r by done.
        by rewrite Nat.sub_diag. }
      apply (pop_loop r _ B).
      - by apply lookup_app_l_Some.
      - by apply NoDup_fst_filter.
      - intros k Hk.
        apply list_elem_of_fmap in Hk as (x & -> & Hx).
        apply list_elem_of_filter in Hx as [_ Hx].
        apply list_elem_of_fmap. by exists x. }
    unfold mret, M_ret. do 2 f_equal.
    rewrite insert_app_l by (by eapply lookup_lt_Some).
    do 2 f_equal. apply filter_ext_elem. intros [k v] Hkv. simpl.
    split.
    + intros Hk Hc. apply Hk. apply list_elem_of_fmap.
      exists (k, v). split; [done|]. by apply list_elem_of_filter.
    + intros Hc Hk. apply Hc.
      apply list_elem_of_fmap in Hk as ([k' v'] & -> & Hk).
      by apply list_elem_of_filter in Hk as [Hk _].
  - erewrite bind_Return; [|reflexivity].
    unfold mret, M_ret. by rewrite list_insert_id.
Qed.

(** C1.  [FilterFeatures(columns, pop)] called on the dict [B] at [r]
    returns a fresh dict holding exactly the entries of [B] whose key
    is in [columns], in [B]'s order.  The dict at [r] is afterwards
    [B] itself when [pop] is false, and [B] without the selected keys
    when [pop] is true, so that no key left in it lies in [columns];
    no other object of the store changes. *)
Theorem FilterFeatures_call_spec (columns : list string) (pop : bool)
    (r : loc) (B : pydict value) (σ : store) :
  σ !! r = Some B → NoDup B.*1 →
  ∃ B' : pydict value,
    FilterFeatures_call columns pop (VDict r) σ
      = Return (VDict (length σ),
                <[r := B']> σ ++ [filter (λ kv, kv.1 ∈ columns) B])
    ∧ (pop = false → B' = B)
    ∧ (pop = true → B' = filter (λ kv, kv.1 ∉ columns) B
                   ∧ ∀ k, k ∈ B'.*1 → k ∉ columns).
Proof.
  intros Hr Hnd.
  exists (if pop then filter (λ kv, kv.1 ∉ columns) B else B).
  split; [by apply FilterFeatures_call_run|]. split.
  - by intros ->.
  - intros ->. split; [done|]. intros k Hk.
    apply list_elem_of_fmap in Hk as ([k' v'] & -> & Hk).
    by apply list_elem_of_filter in Hk as [Hk _].
Qed.

(** The popping filter on [{"a": t, "b": u}] with columns [["a"]]. *)
Lemma FilterFeatures_call_spec_witness :
  let t := mkTensor [2; 1] [1; 2]%Z in
  let u := mkTensor [2; 1] [3; 4]%Z in
  let B : pydict value := [("a", VTensor t); ("b", VTensor u)] in
  let σ : store := [B] in
  σ !! 0 = Some B ∧ NoDup B.*1
  ∧ ∃ B' : pydict value,
      FilterFeatures_call ["a"] true (VDict 0) σ
        = Return (VDict 1, <[0 := B']> σ ++ [[("a", VTensor t)]])
      ∧ B' = [("b", VTensor u)].
Proof.
  intros t u B σ.
  assert (NoDup B.*1) as Hnd by (by apply (bool_decide_unpack _)).
  split; [reflexivity|]. split; [exact Hnd|].
  destruct (FilterFeatures_call_spec ["a"] true 0 B σ eq_refl Hnd)
    as (B' & Hcall & _ & Hpop).
  exists B'. split; [exact Hcall|]. by destruct (Hpop eq_refl) as [-> _].
Defined.

(** ** MergeTabular *)

Section union_facts.
Context {V : Type}.
Implicit Types (d other : pydict V) (k : string) (v : V).

Lemma dict_get_set k k' v d :
  dict_get k (dict_set k' v d) = if decide (k = k') then Some v else dict_get k d.
Proof.
  induction d as [|[k1 v1] d IH]; simpl.
  - done.
  - destruct (decide (k' = k1)) as [->|Hne]; simpl.
    + by destruct (decide (k = k1)).
    + rewrite IH. destruct (decide (k = k1)) as [->|]; [|done].
      by rewrite decide_False.
Qed.

Lemma dict_get_None k d : k ∉ d.*1 → dict_get k d = None.
Proof.
  induction d as [|[k1 v1] d IH]; [done|].
  rewrite fmap_cons, not_elem_of_cons. intros [Hne Hk]. simpl.
  rewrite decide_False by done. by apply IH.
Qed.

Lemma dict_get_update k d other :
  NoDup other.*1 →
  dict_get k (dict_update d other)
    = match dict_get k other with Some v => Some v | None => dict_get k d end.
Proof.
  revert d. induction other as [|[k1 v1] other IH]; intros d Hnd; [done|].
  rewrite fmap_cons in Hnd. apply NoDup_cons in Hnd as [Hk1 Hnd].
  change (dict_update d ((k1, v1) :: other))
    with (dict_update (dict_set k1 v1 d) other).
  rewrite IH by done. rewrite dict_get_set. simpl.
  destruct (decide (k = k1)) as [->|Hne]; [|done].
  by rewrite dict_get_None.
Qed.

Lemma dict_get_union k d (ds : list (pydict V)) :
  Forall (λ d, NoDup d.*1) ds →
  dict_get k (foldl dict_update d ds)
    = match last_write k ds with Some v => Some v | None => dict_get k d end.
Proof.
  revert d. induction ds as [|d1 ds IH]; intros d Hnd; [done|].
  apply Forall_cons in Hnd as [Hd1 Hnd]. simpl.
  rewrite IH by done. rewrite dict_get_update by done.
  by destruct (last_write k ds).
Qed.

End union_facts.

(** The loop of [MergeTabular.call], started with [acc] in the dict
    [outputs] at [o]. *)
Lemma merge_loop (to_merge : list Layer) (ds : list (pydict value))
    (r o : loc) (B Bn : pydict value) :
  runs_in_turn r B to_merge ds Bn → r ≠ o →
  ∀ (σ : store) (acc : pydict value),
    σ !! r = Some B → σ !! o = Some acc →
    ∃ σ' : store,
      for_each to_merge (λ layer,
          to_add ← layer (VDict r); update_in (VDict o) to_add) σ
        = Return ((), σ')
      ∧ σ' !! r = Some Bn
      ∧ σ' !! o = Some (foldl dict_update acc ds)
      ∧ ∀ l, l < length σ → l ≠ r → l ≠ o → σ' !! l = σ !! l.
Proof.
  intros Hrun Hro.
  induction Hrun as [B|B B1 Bn layer d layers ds Hl _ IH]; intros σ acc Hr Ho.
  - exists σ. by repeat split.
  - destruct (Hl σ Hr) as (l & new & Hcall & Hd).
    pose proof (lookup_lt_Some _ _ _ Hr) as Hrlt.
    pose proof (lookup_lt_Some _ _ _ Ho) as Holt.
    set (σ1 := <[r := B1]> σ ++ new) in *.
    assert (σ1 !! o = Some acc) as Ho1.
    { unfold σ1. rewrite lookup_app_l by (by rewrite length_insert).
      by rewrite list_lookup_insert_ne. }
    assert (σ1 !! r = Some B1) as Hr1.
    { unfold σ1. rewrite lookup_app_l by (by rewrite length_insert).
      by apply list_lookup_insert_eq. }
    assert (length σ ≤ length σ1) as Hlen.
    { unfold σ1. rewrite length_app, length_insert. lia. }
    destruct (IH (<[o := dict_update acc d]> σ1) (dict_update acc d))
      as (σ' & Hloop & Hr' & Ho' & Hframe).
    { by rewrite list_lookup_insert_ne. }
    { apply list_lookup_insert_eq. lia. }
    exists σ'. split; [|split; [done|split; [done|]]].
    + simpl. erewrite bind_Return; [exact Hloop|].
      erewrite bind_Return; [|exact Hcall].
      unfold update_in.
      erewrite bind_Return; [|by apply load_Return].
      erewrite bind_Return; [|by apply load_Return].
      reflexivity.
    + intros l' Hl' Hne1 Hne2.
      rewrite Hframe by (rewrite ?length_insert; lia || done).
      rewrite list_lookup_insert_ne by done.
      unfold σ1. rewrite lookup_app_l by (by rewrite length_insert).
      by rewrite list_lookup_insert_ne.
Qed.

(** C2.  [MergeTabular(b1, ..., bn)] called on the bundle at [r] runs
    the layers on that same dict, one after the other in argument
    order, and returns a new dict, the union of the dicts [d1, ..., dn]
    they return: under each key it holds the entry of the last layer,
    in argument order, whose dict has the key.  The input dict is as
    the layers leave it, and no other object of the store changes. *)
Theorem MergeTabular_call_spec (to_merge : list Layer)
    (ds : list (pydict value)) (r : loc) (B Bn : pydict value) (σ : store) :
  σ !! r = Some B →
  runs_in_turn r B to_merge ds Bn →
  Forall (λ d : pydict value, NoDup d.*1) ds →
  ∃ (σ' : store) (outputs : pydict value),
    MergeTabular_call to_merge (VDict r) σ = Return (VDict (length σ), σ')
    ∧ σ' !! length σ = Some outputs
    ∧ outputs = foldl dict_update [] ds
    ∧ (∀ k, dict_get k outputs = last_write k ds)
    ∧ σ' !! r = Some Bn
    ∧ ∀ l, l < length σ → l ≠ r → σ' !! l = σ !! l.
Proof.
  intros Hr Hrun Hnd.
  pose proof (lookup_lt_Some _ _ _ Hr) as Hrlt.
  destruct (merge_loop to_merge ds r (length σ) B Bn Hrun) with
    (σ := σ ++ [[]]) (acc := @nil (string * value))
    as (σ' & Hloop & Hr' & Ho' & Hframe).
  { lia. }
  { by apply lookup_app_l_Some. }
  { rewrite lookup_app_r by done. by rewrite Nat.sub_diag. }
  exists σ', (foldl dict_update [] ds).
  split; [|split; [done|split; [done|split; [|split; [done|]]]]].
  - unfold MergeTabular_call.
    erewrite bind_Return; [|reflexivity].
    erewrite bind_Return; [|exact Hloop].
    reflexivity.
  - intros k. rewrite dict_get_union by done.
    by destruct (last_write k ds).
  - intros l Hl Hne.
    rewrite Hframe by (rewrite ?length_app; simpl; lia || done).
    by rewrite lookup_app_l.
Qed.

Lemma constant_layer_runs_on (d B : pydict value) (r : loc) :
  runs_on (constant_layer d) r B B d.
Proof.
  intros σ Hr. exists (length σ), [d].
  rewrite list_insert_id by done. split; [reflexivity|].
  rewrite lookup_app_r by done. by rewrite Nat.sub_diag.
Qed.

Lemma FilterFeatures_call_runs_on (columns : list string) (pop : bool)
    (r : loc) (B : pydict value) :
  NoDup B.*1 →
  runs_on (FilterFeatures_call columns pop) r B
    (if pop then filter (λ kv, kv.1 ∉ columns) B else B)
    (filter (λ kv, kv.1 ∈ columns) B).
Proof.
  intros Hnd σ Hr. eexists (length σ), [_].
  split; [by apply FilterFeatures_call_run|].
  rewrite lookup_app_r by (by rewrite length_insert).
  by rewrite length_insert, Nat.sub_diag.
Qed.

(** The example of the spec: [blockA] returns [{"x": t1}] and [blockB]
    returns [{"x": t2, "y": t3}]; in the order [blockA, blockB] the
    merge holds [t2] under ["x"], in the reverse order [t1].  Then a
    merge whose first layer is a popping filter: the second layer is
    called on the dict the first has emptied of ["a"]. *)
Lemma MergeTabular_call_spec_witness :
  let t1 := mkTensor [1] [1]%Z in
  let t2 := mkTensor [1] [2]%Z in
  let t3 := mkTensor [1] [3]%Z in
  let dA : pydict value := [("x", VTensor t1)] in
  let dB : pydict value := [("x", VTensor t2); ("y", VTensor t3)] in
  let B : pydict value := [("a", VTensor t1); ("b", VTensor t2)] in
  let σ : store := [B] in
  let pop_a := FilterFeatures_call ["a"] true in
  let keep_all := FilterFeatures_call ["a"; "b"] false in
  (σ !! 0 = Some B
   ∧ runs_in_turn 0 B [constant_layer dA; constant_layer dB] [dA; dB] B
   ∧ Forall (λ d : pydict value, NoDup d.*1) [dA; dB])
  ∧ (∃ σ' : store,
       MergeTabular_call [constant_layer dA; constant_layer dB] (VDict 0) σ
         = Return (VDict 1, σ')
       ∧ σ' !! 1 = Some [("x", VTensor t2); ("y", VTensor t3)])
  ∧ (∃ σ' : store,
       MergeTabular_call [constant_layer dB; constant_layer dA] (VDict 0) σ
         = Return (VDict 1, σ')
       ∧ σ' !! 1 = Some [("x", VTensor t1); ("y", VTensor t3)])
  ∧ (∃ σ' : store,
       MergeTabular_call [pop_a; keep_all] (VDict 0) σ = Return (VDict 1, σ')
       ∧ σ' !! 1 = Some [("a", VTensor t1); ("b", VTensor t2)]
       ∧ σ' !! 0 = Some [("b", VTensor t2)]).
Proof.
  intros t1 t2 t3 dA dB B σ pop_a keep_all.
  assert (∀ d1 d2,
            runs_in_turn 0 B [constant_layer d1; constant_layer d2] [d1; d2] B)
    as Hrun.
  { intros d1 d2.
    repeat (eapply runs_cons; [apply constant_layer_runs_on|]).
    apply runs_nil. }
  assert (∀ d : pydict value, bool_decide (NoDup d.*1) = true → NoDup d.*1)
    as Hdec by (intros d Hd; by apply bool_decide_eq_true in Hd).
  assert (∀ d1 d2 : pydict value, NoDup d1.*1 → NoDup d2.*1 →
            Forall (λ d : pydict value, NoDup d.*1) [d1; d2])
    as Hdup by (intros; repeat (constructor; [assumption|]); constructor).
  split; [|split; [|split]].
  - split; [reflexivity|].
    split; [apply Hrun|apply Hdup; by apply Hdec].
  - destruct (MergeTabular_call_spec [constant_layer dA; constant_layer dB]
               [dA; dB] 0 B B σ eq_refl (Hrun dA dB)
               (Hdup _ _ (Hdec dA eq_refl) (Hdec dB eq_refl)))
      as (σ' & outputs & Hcall & Hout & -> & _).
    exists σ'. split; [exact Hcall|exact Hout].
  - destruct (MergeTabular_call_spec [constant_layer dB; constant_layer dA]
               [dB; dA] 0 B B σ eq_refl (Hrun dB dA)
               (Hdup _ _ (Hdec dB eq_refl) (Hdec dA eq_refl)))
      as (σ' & outputs & Hcall & Hout & -> & _).
    exists σ'. split; [exact Hcall|exact Hout].
  - set (B1 := [("b", VTensor t2)] : pydict value).
    set (d1 := [("a", VTensor t1)] : pydict value).
    assert (runs_in_turn 0 B [pop_a; keep_all] [d1; B1] B1) as Hpop.
    { eapply runs_cons;
        [exact (FilterFeatures_call_runs_on ["a"] true 0 B (Hdec B eq_refl))|].
      eapply runs_cons;
        [exact (FilterFeatures_call_runs_on ["a"; "b"] false 0 B1
                  (Hdec B1 eq_refl))|].
      apply runs_nil. }
    destruct (MergeTabular_call_spec [pop_a; keep_all] [d1; B1] 0 B B1 σ
                eq_refl Hpop (Hdup _ _ (Hdec d1 eq_refl) (Hdec B1 eq_refl)))
      as (σ' & outputs & Hcall & Hout & -> & _ & Hin & _).
    exists σ'. split; [exact Hcall|]. split; [exact Hout|exact Hin].
Defined.

(** ** The per-call pipeline of TabularLayer *)

(** C3, as the code has it.  The aggregation applied to the outputs
    of a call is [StackFeatures] when [stack_outputs] is true, also
    when [concat_outputs] is true as well; otherwise [ConcatFeatures]
    when [concat_outputs] is true; otherwise the one set at
    construction; otherwise none.  The call returns what the same call
    without any aggregation returns, passed through it. *)
Theorem post_op_precedence (self : TabularLayer) (inputs : value)
    (pre post : option Layer) (merge_with : list (Layer + value))
    (stack_outputs concat_outputs : bool)
    (filter_columns : option (list string)) (σ : store) :
  let resolved :=
    if stack_outputs then Some (StackFeatures (-1))
    else if concat_outputs then Some (ConcatFeatures (-1))
    else aggregation self in
  post_op_of self stack_outputs concat_outputs = resolved
  ∧ TabularLayer___call__ self inputs pre post merge_with
      stack_outputs concat_outputs filter_columns σ
    = (TabularLayer___call__ (mkTabularLayer None (call self)) inputs pre post
         merge_with false false filter_columns
       ≫= λ outputs,
            match resolved with
            | Some post_op => aggregator_call post_op outputs
            | None => mret outputs
            end) σ.
Proof.
  intros resolved.
  assert (post_op_of self stack_outputs concat_outputs = resolved) as Hres.
  { unfold post_op_of, resolved. by destruct stack_outputs, concat_outputs. }
  split; [done|].
  unfold TabularLayer___call__. rewrite Hres.
  change (post_op_of _ false false) with (@None aggregator). simpl.
  rewrite bind_assoc_at. apply bind_ext_at. intros inputs' σ1.
  rewrite bind_assoc_at. apply bind_ext_at. intros outputs σ2.
  rewrite bind_assoc_at. apply bind_ext_at. intros [] σ3.
  unfold mbind, M_bind, mret, M_ret. done.
Qed.

(** C3, as stated, fails: with both flags true the aggregation is
    [StackFeatures], not [ConcatFeatures], and the bundle of two
    [(2, 3)] tensors comes out stacked, of shape [(2, 3, 2)], where its
    concatenation has shape [(2, 6)]. *)
Lemma post_op_both_flags_stacks :
  let self := TabularLayer___init__ None (λ x, mret x) in
  let t := mkTensor [2; 3] [1; 2; 3; 4; 5; 6]%Z in
  let σ : store := [[("a", VTensor t); ("b", VTensor t)]] in
  post_op_of self true true = Some (StackFeatures (-1))
  ∧ post_op_of self true true ≠ Some (ConcatFeatures (-1))
  ∧ (∃ out σ',
       TabularLayer___call__ self (VDict 0) None None [] true true None σ
         = Return (VTensor out, σ')
       ∧ shape out = [2; 3; 2])
  ∧ (∃ out σ',
       ConcatFeatures_call (-1) (VDict 0) σ = Return (VTensor out, σ')
       ∧ shape out = [2; 6]).
Proof.
  split; [reflexivity|]. split; [discriminate|].
  split; eexists _, _; (split; [vm_compute; reflexivity|reflexivity]).
Qed.

(** ** Aggregators and MergeTabular on a bare tensor *)

Lemma nest_map_structure_tensor func (t t' : Tensor) (σ : store) :
  func t = Return t' →
  nest_map_structure func (VTensor t) σ = Return (VTensor t', σ).
Proof.
  intros Hf. unfold nest_map_structure.
  destruct (length σ); simpl; (erewrite bind_Return; [|by apply lift_Return]);
    reflexivity.
Qed.

Lemma nest_flatten_tensor (t : Tensor) (σ : store) :
  nest_flatten (VTensor t) σ = Return ([t], σ).
Proof. unfold nest_flatten. by destruct (length σ). Qed.

Lemma tf_stack_one (t : Tensor) :
  ∃ out, tf_stack [t] (-1) = Return out ∧ shape out = shape t ++ [1].
Proof.
  unfold tf_stack.
  assert (normalize_axis (S (length (shape t))) (-1) = Some (length (shape t)))
    as ->.
  { unfold normalize_axis. rewrite decide_False by lia.
    rewrite decide_True by lia. f_equal. lia. }
  simpl. rewrite bool_decide_true by done. simpl.
  eexists. split; [reflexivity|]. simpl.
  by rewrite firstn_all, drop_all.
Qed.

(** C5, as the code has it.  On a bare tensor of rank at least one,
    [ConcatFeatures] returns the flattened tensor and [StackFeatures]
    the flattened tensor with one more axis, of length one, at the end;
    neither raises.  [MergeTabular] fails its assertion on any bare
    tensor. *)
Theorem aggregators_on_bare_tensor (b : nat) (rest : list nat) (elts : list Z)
    (axis : Z) (to_merge : list Layer) (σ : store) :
  let t := mkTensor (b :: rest) elts in
  ConcatFeatures_call axis (VTensor t) σ
    = Return (VTensor (mkTensor [b; list_prod rest] elts), σ)
  ∧ (∃ out, StackFeatures_call (-1) (VTensor t) σ = Return (VTensor out, σ)
            ∧ shape out = [b; list_prod rest; 1])
  ∧ MergeTabular_call to_merge (VTensor t) σ
    = Raise (AssertionError "Inputs needs to be a dict").
Proof.
  intros t. split; [|split].
  - unfold ConcatFeatures_call.
    erewrite bind_Return; [|by apply nest_map_structure_tensor].
    erewrite bind_Return; [|by apply nest_flatten_tensor].
    reflexivity.
  - destruct (tf_stack_one (mkTensor [b; list_prod rest] elts))
      as (out & Hout & Hshape).
    exists out. split; [|done].
    unfold StackFeatures_call.
    erewrite bind_Return; [|by apply nest_map_structure_tensor].
    erewrite bind_Return; [|by apply nest_flatten_tensor].
    erewrite bind_Return; [|by apply lift_Return].
    reflexivity.
  - reflexivity.
Qed.

(** C5, as stated, fails: [ConcatFeatures] and [StackFeatures] called
    on one bare [(2, 3)] tensor raise nothing and return a tensor. *)
Lemma aggregators_accept_bare_tensor :
  let t := mkTensor [2; 3] [1; 2; 3; 4; 5; 6]%Z in
  (ConcatFeatures_call (-1) (VTensor t) [] = Return (VTensor t, [])
   ∧ ¬ ∃ e, ConcatFeatures_call (-1) (VTensor t) [] = Raise e)
  ∧ (StackFeatures_call (-1) (VTensor t) []
       = Return (VTensor (mkTensor [2; 3; 1] [1; 2; 3; 4; 5; 6]%Z), [])
     ∧ ¬ ∃ e, StackFeatures_call (-1) (VTensor t) [] = Raise e).
Proof.
  split; (split; [reflexivity|]); intros [e He]; discriminate He.
Qed.

(** ** AsTabular *)

(** C6, as the code has it.  [AsTabular(output_name)] wraps whatever
    it is called on, a tensor or a bundle, as the only entry of a new
    dict; it never raises. *)
Theorem AsTabular_call_spec (output_name : string) (inputs : value) (σ : store) :
  AsTabular_call output_name inputs σ
    = Return (VDict (length σ), σ ++ [[(output_name, inputs)]]).
Proof. reflexivity. Qed.

(** C6, as stated, fails: called on a bundle, [AsTabular("user")]
    raises nothing and returns a dict holding the bundle under
    ["user"]. *)
Lemma AsTabular_accepts_bundle :
  let t := mkTensor [2; 1] [7; 8]%Z in
  let σ : store := [[("item_id", VTensor t)]] in
  AsTabular_call "user" (VDict 0) σ
    = Return (VDict 1, σ ++ [[("user", VDict 0)]])
  ∧ ¬ ∃ e, AsTabular_call "user" (VDict 0) σ = Raise e.
Proof. split; [reflexivity|]. intros [e He]. discriminate He. Qed.

(** ** Composition *)






(** ** Construction from a column group *)

(** C9.  [from_column_group] returns [None], and raises nothing, when
    the column group, narrowed to the tags if any were given, has no
    column; otherwise it returns the block [from_features] builds from
    the selected columns. *)
Theorem from_column_group_spec {ColumnGroup Tag Kwargs : Type}
    (columns : ColumnGroup → list string)
    (get_tagged : ColumnGroup → list Tag → option (list Tag) → ColumnGroup)
    (cls : Kwargs → TabularLayer)
    (rrshift_columns : TabularLayer → list string → block)
    (column_group : ColumnGroup) (tags tags_to_filter : option (list Tag))
    (kwargs : Kwargs) :
  let selected :=
    columns (tagged_group get_tagged column_group tags tags_to_filter) in
  (selected = [] →
     from_column_group columns get_tagged cls rrshift_columns
       column_group tags tags_to_filter kwargs = None)
  ∧ (selected ≠ [] →
     from_column_group columns get_tagged cls rrshift_columns
       column_group tags tags_to_filter kwargs
     = Some (from_features cls rrshift_columns selected kwargs)).
Proof.
  intros selected. unfold from_column_group. fold selected.
  split; intros Hsel; by destruct selected.
Qed.

(** A column group of names with their tags: no column carries the tag
    ["user"], one carries ["item"]. *)
Lemma from_column_group_spec_witness :
  let columns (g : list (string * list string)) := g.*1 in
  let get_tagged (g : list (string * list string)) (tags : list string)
        (_ : option (list string)) :=
    filter (λ c, Exists (λ t, t ∈ c.2) tags) g in
  let cls (_ : ()) := mkTabularLayer None (λ x, mret x) in
  let rrshift (self : TabularLayer) (features : list string) :=
    SequentialBlock [FilterFeatures_call features false; call self] in
  let g := [("item_id", ["item"]); ("price", ["continuous"])] in
  (columns (tagged_group get_tagged g (Some ["user"]) None) = []
   ∧ from_column_group columns get_tagged cls rrshift g (Some ["user"]) None ()
     = None)
  ∧ (columns (tagged_group get_tagged g (Some ["item"]) None) ≠ []
     ∧ from_column_group columns get_tagged cls rrshift g (Some ["item"]) None ()
       = Some (rrshift (cls ()) ["item_id"])).
Proof.
  intros columns get_tagged cls rrshift g. split.
  - split; [reflexivity|].
    apply (from_column_group_spec columns get_tagged cls rrshift g
             (Some ["user"]) None ()).
    reflexivity.
  - split; [discriminate|].
    apply (from_column_group_spec columns get_tagged cls rrshift g
             (Some ["item"]) None ()).
    discriminate.
Defined.

(** ** Batch-size discovery *)

Lemma py_index_0 {A} (l : list A) :
  py_index l 0 = match l with [] => Raise IndexError | x :: _ => Return x end.
Proof. by destruct l. Qed.

Lemma filter_leaves_tuples (pre : list sval) :
  Forall (λ s, is_tuple s = true) pre →
  filter (λ i, is_tuple i = false) pre = [].
Proof.
  induction 1 as [|s pre Hs _ IH]; [done|].
  rewrite filter_cons_False; [done|]. by rewrite Hs.
Qed.

(** C10.  [calculate_batch_size_from_input_shapes] raises [IndexError]
    when every shape of the bundle is a tuple, and so do the shape
    functions of [ConcatFeatures] and [StackFeatures], which call it;
    it returns the leading dimension of the first shape that is not a
    tuple; and whenever it returns, some shape of the bundle is not a
    tuple. *)
Theorem calculate_batch_size_spec (input_shapes : pydict sval) :
  (Forall (λ s, is_tuple s = true) input_shapes.*2 →
     calculate_batch_size_from_input_shapes input_shapes = Raise IndexError
     ∧ ConcatFeatures_compute_output_shape input_shapes = Raise IndexError
     ∧ StackFeatures_compute_output_shape input_shapes = Raise IndexError)
  ∧ (∀ pre d dims post,
       input_shapes.*2 = pre ++ TensorShape (d :: dims) :: post →
       Forall (λ s, is_tuple s = true) pre →
       calculate_batch_size_from_input_shapes input_shapes = Return (SDim d))
  ∧ (∀ v, calculate_batch_size_from_input_shapes input_shapes = Return v →
       ∃ s, s ∈ input_shapes.*2 ∧ is_tuple s = false).
Proof.
  split; [|split].
  - intros Hall.
    assert (calculate_batch_size_from_input_shapes input_shapes
              = Raise IndexError) as Hraise.
    { unfold calculate_batch_size_from_input_shapes.
      by rewrite filter_leaves_tuples. }
    unfold ConcatFeatures_compute_output_shape,
      StackFeatures_compute_output_shape.
    by rewrite Hraise.
  - intros pre d dims post Hshapes Hpre.
    unfold calculate_batch_size_from_input_shapes. rewrite Hshapes.
    rewrite filter_app, filter_leaves_tuples by done.
    by rewrite filter_cons_True.
  - intros v. unfold calculate_batch_size_from_input_shapes.
    rewrite py_index_0.
    destruct (filter _ _) as [|s l] eqn:Hf; [done|]. intros _.
    exists s. apply and_comm.
    apply (list_elem_of_filter (λ i, is_tuple i = false)).
    rewrite Hf. left.
Qed.

(** A ragged entry before a dense one, and a bundle of ragged entries
    only. *)
Lemma calculate_batch_size_spec_witness :
  let ragged := STuple [TensorShape [None; Some 1]; TensorShape [Some 5; Some 1]] in
  let dense := TensorShape [Some 5; Some 4] in
  (Forall (λ s, is_tuple s = true) [("genres", ragged)].*2
   ∧ calculate_batch_size_from_input_shapes [("genres", ragged)]
     = Raise IndexError)
  ∧ (Forall (λ s, is_tuple s = true) [ragged]
     ∧ calculate_batch_size_from_input_shapes
         [("genres", ragged); ("price", dense)] = Return (SDim (Some 5)))
  ∧ (calculate_batch_size_from_input_shapes
       [("genres", ragged); ("price", dense)] = Return (SDim (Some 5))
     ∧ ∃ s, s ∈ [("genres", ragged); ("price", dense)].*2 ∧ is_tuple s = false).
Proof.
  intros ragged dense.
  assert (Forall (λ s, is_tuple s = true) [ragged]) as Hr
    by (repeat constructor).
  split; [|split].
  - split; [exact Hr|].
    by apply (proj1 (calculate_batch_size_spec [("genres", ragged)])).
  - split; [exact Hr|].
    by apply (proj1 (proj2 (calculate_batch_size_spec
                [("genres", ragged); ("price", dense)]))
              [ragged] (Some 5) [Some 4] []).
  - split; [reflexivity|].
    by apply (proj2 (proj2 (calculate_batch_size_spec
                [("genres", ragged); ("price", dense)])) (SDim (Some 5))).
Defined.

(** ** Aggregating a bundle of tensors *)

Section sorted_facts.
Context {V : Type}.
Implicit Types (d l : pydict V) (kv : string * V) (k : string).

Lemma insert_sorted_perm kv l : insert_sorted kv l ≡ₚ kv :: l.
Proof.
  induction l as [|x l IH]; simpl; [done|].
  destruct (String.leb kv.1 x.1); [done|].
  rewrite IH. apply Permutation_swap.
Qed.

Lemma sorted_items_perm d : sorted_items d ≡ₚ d.
Proof.
  induction d as [|x d IH]; simpl; [done|].
  unfold sorted_items in IH. by rewrite insert_sorted_perm, IH.
Qed.

Lemma sorted_items_length d : length (sorted_items d) = length d.
Proof. by rewrite sorted_items_perm. Qed.

Lemma dict_get_insert_sorted k kv l :
  kv.1 ∉ l.*1 →
  dict_get k (insert_sorted kv l)
    = if decide (k = kv.1) then Some kv.2 else dict_get k l.
Proof.
  destruct kv as [k' v']. simpl.
  induction l as [|[k1 v1] l IH]; simpl; [done|].
  rewrite not_elem_of_cons. intros [Hne Hk'].
  destruct (String.leb k' k1); simpl; [done|].
  rewrite IH by done.
  destruct (decide (k = k1)) as [->|]; [|done].
  by rewrite decide_False.
Qed.

Lemma dict_get_sorted_items k d :
  NoDup d.*1 → dict_get k (sorted_items d) = dict_get k d.
Proof.
  induction d as [|[k1 v1] d IH]; [done|].
  rewrite fmap_cons, NoDup_cons. intros [Hk1 Hnd].
  change (sorted_items ((k1, v1) :: d))
    with (insert_sorted (k1, v1) (sorted_items d)).
  rewrite dict_get_insert_sorted.
  - simpl. by rewrite IH.
  - simpl. by rewrite sorted_items_perm.
Qed.

Lemma dict_get_elem k v d : NoDup d.*1 → (k, v) ∈ d → dict_get k d = Some v.
Proof.
  induction d as [|[k1 v1] d IH]; [by intros _ ?%elem_of_nil|].
  rewrite fmap_cons, NoDup_cons, elem_of_cons. intros [Hk1 Hnd] [Heq|Hin].
  - simplify_eq. simpl. by rewrite decide_True.
  - simpl. rewrite decide_False; [by apply IH|].
    intros ->. apply Hk1. apply list_elem_of_fmap. by exists (k1, v).
Qed.

End sorted_facts.

Lemma sorted_items_fmap {V W} (f : V → W) (d : pydict V) :
  sorted_items (prod_map id f <$> d) = prod_map id f <$> sorted_items d.
Proof.
  assert (∀ kv (l : pydict V),
    insert_sorted (prod_map id f kv) (prod_map id f <$> l)
      = prod_map id f <$> insert_sorted kv l) as Hins.
  { intros kv l. induction l as [|x l IH]; [done|].
    rewrite fmap_cons. simpl.
    destruct (String.leb kv.1 x.1); [done|].
    rewrite fmap_cons. f_equal. apply IH. }
  induction d as [|x d IH]; [done|].
  rewrite fmap_cons.
  change (sorted_items (prod_map id f x :: (prod_map id f <$> d)))
    with (insert_sorted (prod_map id f x) (sorted_items (prod_map id f <$> d))).
  rewrite IH. apply Hins.
Qed.

Lemma Flatten_call_flat (t : Tensor) :
  shape t ≠ [] → Flatten_call t = Return (flat t).
Proof. unfold Flatten_call, flat. by destruct (shape t). Qed.

Lemma nest_map_structure_at_tensor depth func (t : Tensor) :
  nest_map_structure_at depth func (VTensor t)
    = (t' ← lift (func t); mret (VTensor t')).
Proof. by destruct depth. Qed.

Lemma nest_flatten_at_tensor depth (t : Tensor) :
  nest_flatten_at depth (VTensor t) = mret [t].
Proof. by destruct depth. Qed.

Section bundle_facts.
Implicit Types (kts : list (string * Tensor)) (σ : store).

Lemma bundle_of_keys kts : (bundle_of kts).*1 = kts.*1.
Proof.
  unfold bundle_of. rewrite <- list_fmap_compose.
  by apply list_fmap_ext.
Qed.

Lemma flat_keys kts : (prod_map id flat <$> kts).*1 = kts.*1.
Proof. rewrite <- list_fmap_compose. by apply list_fmap_ext. Qed.

(** [Flatten] mapped over the entries of a bundle of tensors. *)
Lemma mapM_Flatten depth kts σ :
  Forall (λ kt, shape kt.2 ≠ []) kts →
  mapM (λ kv : string * value,
          v' ← nest_map_structure_at depth Flatten_call kv.2;
          mret (kv.1, v')) (bundle_of kts) σ
    = Return (bundle_of (prod_map id flat <$> kts), σ).
Proof.
  induction 1 as [|[k t] kts Ht _ IH]; [done|].
  unfold bundle_of. rewrite !fmap_cons. cbn [mapM].
  erewrite bind_Return; last first.
  { simpl. rewrite nest_map_structure_at_tensor.
    erewrite bind_Return; last first.
    { erewrite bind_Return; [|by apply lift_Return, Flatten_call_flat].
      reflexivity. }
    reflexivity. }
  erewrite bind_Return; [|exact IH].
  reflexivity.
Qed.

(** The tensors of a bundle of tensors. *)
Lemma mapM_nest_flatten depth kts σ :
  mapM (λ kv : string * value, nest_flatten_at depth kv.2) (bundle_of kts) σ
    = Return ((λ kt, [kt.2]) <$> kts, σ).
Proof.
  induction kts as [|[k t] kts IH]; [done|].
  unfold bundle_of. rewrite !fmap_cons. cbn [mapM].
  erewrite bind_Return; last first.
  { simpl. rewrite nest_flatten_at_tensor. reflexivity. }
  erewrite bind_Return; [|exact IH].
  reflexivity.
Qed.

Lemma concat_singletons kts : concat ((λ kt, [kt.2]) <$> kts) = kts.*2.
Proof.
  induction kts as [|kt kts IH]; [done|].
  rewrite !fmap_cons. cbn [concat]. by rewrite IH.
Qed.

(** The dict [tf.nest.map_structure] builds from the flattened
    entries. *)
Lemma rebuild_bundle kts (result : pydict value) :
  (∀ kt, kt ∈ kts → dict_get kt.1 result = Some (VTensor (flat kt.2))) →
  omap (λ kv, (kv.1,.) <$> dict_get kv.1 result) (bundle_of kts)
    = bundle_of (prod_map id flat <$> kts).
Proof.
  induction kts as [|[k t] kts IH]; intros Hres; [done|].
  unfold bundle_of. rewrite !fmap_cons. cbn [omap list_omap].
  change ((prod_map id VTensor (k, t)).1) with k.
  assert (dict_get k result = Some (VTensor (flat t))) as ->
    by (apply (Hres (k, t)); left).
  cbn [fmap option_fmap option_map]. f_equal.
  apply IH. intros kt Hkt. apply Hres. by right.
Qed.

(** [tf.nest.flatten(tf.nest.map_structure(flatten, inputs))] on a
    bundle of tensors of rank at least one: the flattened tensors in
    the sorted order of their keys. *)
Lemma flatten_bundle kts r σ :
  σ !! r = Some (bundle_of kts) → NoDup kts.*1 →
  Forall (λ kt, shape kt.2 ≠ []) kts →
  (flat ← nest_map_structure Flatten_call (VDict r); nest_flatten flat) σ
    = Return (flat <$> (sorted_items kts).*2,
              σ ++ [bundle_of (prod_map id flat <$> kts)]).
Proof.
  intros Hr Hnd Hrank.
  assert (∃ n, length σ = S n) as [n Hn].
  { apply lookup_lt_Some in Hr. destruct σ; simpl in *; [lia|by eexists]. }
  set (kts' := prod_map id flat <$> kts).
  erewrite bind_Return; last first.
  { unfold nest_map_structure. rewrite Hn. cbn [nest_map_structure_at].
    erewrite bind_Return; [|by apply load_Return].
    erewrite bind_Return; last first.
    { unfold bundle_of. rewrite sorted_items_fmap.
      apply mapM_Flatten.
      by rewrite sorted_items_perm. }
    erewrite bind_Return; [|reflexivity].
    reflexivity. }
  rewrite rebuild_bundle; last first.
  { intros [k t] Hkt. simpl.
    rewrite <- sorted_items_fmap.
    change (prod_map id VTensor <$> (prod_map id flat <$> kts))
      with (bundle_of kts').
    rewrite <- (sorted_items_fmap VTensor).
    rewrite dict_get_sorted_items by (by rewrite bundle_of_keys, flat_keys).
    apply dict_get_elem; [by rewrite bundle_of_keys, flat_keys|].
    unfold bundle_of, kts'. rewrite <- list_fmap_compose.
    apply list_elem_of_fmap. by exists (k, t). }
  fold kts'. unfold nest_flatten.
  rewrite length_app, Nat.add_comm. cbn [length nest_flatten_at Nat.add].
  erewrite bind_Return; last first.
  { apply load_Return. rewrite lookup_app_r by done.
    by rewrite Nat.sub_diag. }
  erewrite bind_Return; last first.
  { unfold bundle_of. rewrite sorted_items_fmap. apply mapM_nest_flatten. }
  unfold mret, M_ret. do 2 f_equal.
  rewrite concat_singletons. unfold kts'.
  rewrite sorted_items_fmap, <- !list_fmap_compose.
  by apply list_fmap_ext.
Qed.

End bundle_facts.

Lemma forallb_all {A} (f : A → bool) (l : list A) :
  Forall (λ x, f x = true) l → forallb f l = true.
Proof. induction 1 as [|x l Hx _ IH]; [done|]. simpl. by rewrite Hx, IH. Qed.

Lemma sum_list_fmap {A} (f : A → nat) (l : list A) :
  sum_list (f <$> l) = sum_list_with f l.
Proof.
  induction l as [|x l IH]; [done|].
  rewrite fmap_cons. simpl. by rewrite IH.
Qed.

(** [tf.stack] along the last axis of tensors of one shape. *)
Lemma tf_stack_shape (ts : list Tensor) (s : list nat) :
  ts ≠ [] → Forall (λ t, shape t = s) ts →
  ∃ out, tf_stack ts (-1) = Return out ∧ shape out = s ++ [length ts].
Proof.
  intros Hne Hall. destruct ts as [|t0 ts]; [done|].
  assert (shape t0 = s) as Ht0 by (by apply Forall_cons in Hall as [? _]).
  unfold tf_stack. rewrite Ht0.
  assert (normalize_axis (S (length s)) (-1) = Some (length s)) as ->.
  { unfold normalize_axis. rewrite decide_False by lia.
    rewrite decide_True by lia. f_equal. lia. }
  rewrite forallb_all; last first.
  { eapply Forall_impl; [exact Hall|]. intros t Ht. simpl.
    by rewrite bool_decide_true. }
  eexists. split; [reflexivity|]. simpl.
  by rewrite firstn_all, drop_all.
Qed.

(** [tf.concat] along the last axis of matrices with one number of
    rows. *)
Lemma tf_concat_shape (ts : list Tensor) (b : nat) :
  ts ≠ [] → Forall (λ t, ∃ w, shape t = [b; w]) ts →
  ∃ out, tf_concat ts (-1) = Return out
         ∧ shape out = [b; sum_list_with (λ t, nth 1 (shape t) 0) ts].
Proof.
  intros Hne Hall. destruct ts as [|t0 ts]; [done|].
  apply Forall_cons in Hall as [[w0 Ht0] Hall].
  destruct ts as [|t1 ts].
  { exists t0. split; [done|]. simpl. rewrite Ht0. simpl.
    by rewrite Nat.add_0_r. }
  unfold tf_concat. rewrite Ht0.
  change (normalize_axis (length [b; w0]) (-1)) with (Some 1).
  cbv beta iota. rewrite forallb_all; last first.
  { constructor.
    - rewrite Ht0. unfold same_but_axis. by rewrite bool_decide_true.
    - eapply Forall_impl; [exact Hall|]. intros t [w Ht]. simpl.
      rewrite Ht. unfold same_but_axis. by rewrite bool_decide_true. }
  eexists. split; [reflexivity|]. cbn [shape].
  by rewrite sum_list_fmap.
Qed.

(** On a bundle of [n] tensors whose flattened shape is [(b, w)],
    [StackFeatures(axis=-1)] returns a tensor of shape [(b, w, n)]. *)
Lemma StackFeatures_call_bundle (kts : list (string * Tensor)) (r : loc)
    (σ : store) (b w : nat) :
  σ !! r = Some (bundle_of kts) → NoDup kts.*1 → kts ≠ [] →
  Forall (λ kt, shape kt.2 ≠ [] ∧ shape (flat kt.2) = [b; w]) kts →
  ∃ out σ',
    StackFeatures_call (-1) (VDict r) σ = Return (VTensor out, σ')
    ∧ shape out = [b; w; length kts].
Proof.
  intros Hr Hnd Hne Hall.
  destruct (tf_stack_shape (flat <$> (sorted_items kts).*2) [b; w])
    as (out & Hout & Hshape).
  { intros Hnil. apply fmap_nil_inv, fmap_nil_inv in Hnil.
    apply Hne. apply Permutation_nil_r. by rewrite <- Hnil, sorted_items_perm. }
  { rewrite sorted_items_perm. apply Forall_fmap, Forall_fmap.
    eapply Forall_impl; [exact Hall|]. by intros kt [_ ?]. }
  exists out, (σ ++ [bundle_of (prod_map id flat <$> kts)]).
  split.
  - unfold StackFeatures_call. rewrite <- bind_assoc_at.
    erewrite bind_Return; last first.
    { apply flatten_bundle; [done..|].
      eapply Forall_impl; [exact Hall|]. by intros kt [? _]. }
    erewrite bind_Return; [|by apply lift_Return].
    reflexivity.
  - rewrite Hshape, !length_fmap, sorted_items_length. done.
Qed.

(** On a bundle of tensors with [b] rows, [ConcatFeatures(axis=-1)]
    returns a tensor of shape [(b, total)], [total] the sum of the
    flattened widths of the entries. *)
Lemma ConcatFeatures_call_bundle (kts : list (string * Tensor)) (r : loc)
    (σ : store) (b : nat) :
  σ !! r = Some (bundle_of kts) → NoDup kts.*1 → kts ≠ [] →
  Forall (λ kt, ∃ rest, shape kt.2 = b :: rest) kts →
  ∃ out σ',
    ConcatFeatures_call (-1) (VDict r) σ = Return (VTensor out, σ')
    ∧ shape out
      = [b; sum_list_with (λ kt, list_prod (tl (shape kt.2))) kts].
Proof.
  intros Hr Hnd Hne Hall.
  destruct (tf_concat_shape (flat <$> (sorted_items kts).*2) b)
    as (out & Hout & Hshape).
  { intros Hnil. apply fmap_nil_inv, fmap_nil_inv in Hnil.
    apply Hne. apply Permutation_nil_r. by rewrite <- Hnil, sorted_items_perm. }
  { rewrite sorted_items_perm. apply Forall_fmap, Forall_fmap.
    eapply Forall_impl; [exact Hall|]. intros kt [rest Hkt]. simpl.
    exists (list_prod rest). unfold flat. by rewrite Hkt. }
  exists out, (σ ++ [bundle_of (prod_map id flat <$> kts)]).
  split.
  - unfold ConcatFeatures_call. rewrite <- bind_assoc_at.
    erewrite bind_Return; last first.
    { apply flatten_bundle; [done..|].
      eapply Forall_impl; [exact Hall|]. intros kt [rest Hkt]. by rewrite Hkt. }
    erewrite bind_Return; [|by apply lift_Return].
    reflexivity.
  - rewrite Hshape. do 2 f_equal.
    rewrite <- (sum_list_with_Permutation_proper _ _ _ (sorted_items_perm kts)).
    generalize (sorted_items kts). intros l.
    induction l as [|kt l IH]; [done|].
    rewrite !fmap_cons. simpl. by rewrite IH.
Qed.

(** ** Shapes of the aggregations *)

Lemma py_sum_dims (ws : list nat) :
  py_sum ((λ w, SDim (Some w)) <$> ws) = Return (sum_list ws).
Proof.
  induction ws as [|w ws IH]; [done|].
  rewrite fmap_cons. cbn [py_sum]. by rewrite IH.
Qed.

(** Where all shapes are [(batch, width)], the shape
    [ConcatFeatures.compute_output_shape] infers is the batch size and
    the sum of the widths. *)
Lemma ConcatFeatures_compute_output_shape_rank2 (input_shapes : pydict sval)
    (batch : dim) (ws : list nat) :
  ws ≠ [] →
  input_shapes.*2 = (λ w, TensorShape [batch; Some w]) <$> ws →
  ConcatFeatures_compute_output_shape input_shapes
    = Return (STuple [SDim batch; SDim (Some (sum_list ws))]).
Proof.
  intros Hne Hshapes.
  unfold ConcatFeatures_compute_output_shape,
    calculate_batch_size_from_input_shapes.
  rewrite Hshapes. destruct ws as [|w ws]; [done|].
  rewrite fmap_cons, filter_cons_True by done. simpl.
  assert (∀ l : list nat,
    mapM (λ i, getitem i 1) ((λ w, TensorShape [batch; Some w]) <$> l)
      = Return ((λ w, SDim (Some w)) <$> l)) as Hmap.
  { induction l as [|w' l IH]; [done|].
    rewrite !fmap_cons. cbn [mapM]. by rewrite IH. }
  rewrite Hmap. cbn [mbind outcome_bind mret outcome_ret py_sum].
  by rewrite py_sum_dims.
Qed.

(** Where all shapes are [(batch, width)] with one width, the shape
    [StackFeatures.compute_output_shape] infers is the batch size, the
    number of entries and the width. *)
Lemma StackFeatures_compute_output_shape_rank2 (input_shapes : pydict sval)
    (batch width : dim) :
  input_shapes ≠ [] →
  Forall (λ s, s = TensorShape [batch; width]) input_shapes.*2 →
  StackFeatures_compute_output_shape input_shapes
    = Return (STuple [SDim batch; SDim (Some (length input_shapes));
                      SDim width]).
Proof.
  intros Hne Hall. destruct input_shapes as [|[k s] l]; [done|].
  rewrite fmap_cons in Hall. apply Forall_cons in Hall as [Hs _].
  simpl in Hs. subst s.
  unfold StackFeatures_compute_output_shape,
    calculate_batch_size_from_input_shapes.
  rewrite fmap_cons, filter_cons_True by done. reflexivity.
Qed.

(** C7 at a bundle of one [(2, 3, 4)] tensor: the shape function of
    [ConcatFeatures] reports [(2, 3)], the second dimension of the
    entry, where the entry's flattened width is [12] and the call
    returns a tensor of shape [(2, 12)]. *)
Theorem ConcatFeatures_compute_output_shape_rank3 :
  let t := mkTensor [2; 3; 4] (replicate 24 0%Z) in
  ConcatFeatures_compute_output_shape [("a", shape_of t)]
    = Return (STuple [SDim (Some 2); SDim (Some 3)])
  ∧ ∃ out σ',
      ConcatFeatures_call (-1) (VDict 0) [[("a", VTensor t)]]
        = Return (VTensor out, σ')
      ∧ shape out = [2; 12].
Proof.
  split; [reflexivity|].
  eexists _, _. split; [vm_compute; reflexivity|reflexivity].
Qed.

(** C4 at a bundle of two [(3, 8)] tensors: [StackFeatures(axis=-1)]
    returns a tensor of shape [(3, 8, 2)], the new axis last, where its
    shape function reports [(3, 2, 8)].  With a second entry of width
    [4] the call raises. *)
Theorem StackFeatures_call_shape_last_axis :
  let t := mkTensor [3; 8] (replicate 24 0%Z) in
  let u := mkTensor [3; 4] (replicate 12 0%Z) in
  (∃ out σ',
     StackFeatures_call (-1) (VDict 0) [[("a", VTensor t); ("b", VTensor t)]]
       = Return (VTensor out, σ')
     ∧ shape out = [3; 8; 2])
  ∧ StackFeatures_compute_output_shape [("a", shape_of t); ("b", shape_of t)]
    = Return (STuple [SDim (Some 3); SDim (Some 2); SDim (Some 8)])
  ∧ StackFeatures_call (-1) (VDict 0) [[("a", VTensor t); ("b", VTensor u)]]
    = Raise InvalidArgumentError.
Proof.
  split; [|split; [reflexivity|vm_compute; reflexivity]].
  eexists _, _. split; [vm_compute; reflexivity|reflexivity].
Qed.

(** * More of FilterFeatures *)

Lemma filter_columns_fmap {V W} (f : V → W) (columns : list string)
    (d : pydict V) :
  filter (λ kv, kv.1 ∈ columns) (prod_map id f <$> d)
    = prod_map id f <$> filter (λ kv, kv.1 ∈ columns) d.
Proof.
  induction d as [|[k v] d IH]; [done|].
  rewrite fmap_cons, !filter_cons. simpl.
  destruct (decide (k ∈ columns)); [rewrite fmap_cons|]; by rewrite IH.
Qed.

Lemma filter_none {A} (P : A → Prop) `{!∀ x, Decision (P x)} (l : list A) :
  (∀ x, x ∈ l → ¬ P x) → filter P l = [].
Proof.
  induction l as [|a l IH]; intros Hnone; [done|].
  rewrite filter_cons_False by (apply Hnone; left).
  apply IH. intros x Hx. apply Hnone. by right.
Qed.

Lemma fmap_keys {V W} (f : V → W) (d : pydict V) :
  (prod_map id f <$> d).*1 = d.*1.
Proof. rewrite <- list_fmap_compose. by apply list_fmap_ext. Qed.

(** X1.  A popping filter loses nothing: the dict it returns and the
    dict it leaves behind share no key and hold, between them, exactly
    the entries the input had. *)
Theorem FilterFeatures_pop_partitions (columns : list string) (r : loc)
    (B : pydict value) (σ : store) :
  σ !! r = Some B → NoDup B.*1 →
  ∃ selected remaining : pydict value,
    FilterFeatures_call columns true (VDict r) σ
      = Return (VDict (length σ), <[r := remaining]> σ ++ [selected])
    ∧ selected ++ remaining ≡ₚ B
    ∧ ∀ k, k ∈ selected.*1 → k ∉ remaining.*1.
Proof.
  intros Hr Hnd. eexists _, _.
  split; [by apply (FilterFeatures_call_run columns true)|]. split.
  - apply (filter_app_complement (λ kv : string * value, kv.1 ∈ columns)).
  - intros k Hsel Hrem.
    apply list_elem_of_fmap in Hsel as ([k1 v1] & -> & Hsel).
    apply list_elem_of_fmap in Hrem as ([k2 v2] & Heq & Hrem).
    apply list_elem_of_filter in Hsel as [Hsel _].
    apply list_elem_of_filter in Hrem as [Hrem _].
    simpl in *. by subst.
Qed.

Lemma FilterFeatures_pop_partitions_witness :
  let t := mkTensor [2; 1] [1; 2]%Z in
  let B : pydict value :=
    [("a", VTensor t); ("b", VTensor t); ("c", VTensor t)] in
  let σ : store := [B] in
  (σ !! 0 = Some B ∧ NoDup B.*1)
  ∧ ∃ selected remaining : pydict value,
      FilterFeatures_call ["c"; "a"; "z"] true (VDict 0) σ
        = Return (VDict 1, <[0 := remaining]> σ ++ [selected])
      ∧ selected ++ remaining ≡ₚ B
      ∧ ∀ k, k ∈ selected.*1 → k ∉ remaining.*1.
Proof.
  intros t B σ.
  assert (NoDup B.*1) as Hnd by (by apply (bool_decide_unpack _)).
  split; [by split|].
  exact (FilterFeatures_pop_partitions ["c"; "a"; "z"] 0 B σ eq_refl Hnd).
Defined.

(** X2.  Two filters in a row select the keys that lie in both column
    lists: the second, called on what the first returns, returns the
    entries of the input whose key is in [columns1] and in [columns2].
    In particular a filter applied twice selects what it selects
    once. *)
Theorem FilterFeatures_call_twice (columns1 columns2 : list string)
    (pop1 : bool) (r : loc) (B : pydict value) (σ : store) :
  σ !! r = Some B → NoDup B.*1 →
  ∃ σ' : store,
    (FilterFeatures_call columns1 pop1 (VDict r)
       ≫= FilterFeatures_call columns2 false) σ
      = Return (VDict (S (length σ)), σ')
    ∧ σ' !! S (length σ)
      = Some (filter (λ kv, kv.1 ∈ columns1 ∧ kv.1 ∈ columns2) B)
    ∧ σ' !! length σ = Some (filter (λ kv, kv.1 ∈ columns1) B).
Proof.
  intros Hr Hnd.
  pose proof (lookup_lt_Some _ _ _ Hr) as Hlt.
  set (B1 := if pop1 then filter (λ kv, kv.1 ∉ columns1) B else B).
  set (sel := filter (λ kv : string * value, kv.1 ∈ columns1) B).
  assert (length (<[r := B1]> σ ++ [sel]) = S (length σ)) as Hlen.
  { rewrite length_app, length_insert. simpl. lia. }
  assert ((<[r := B1]> σ ++ [sel]) !! length σ = Some sel) as Hsel.
  { rewrite lookup_app_r by (by rewrite length_insert).
    by rewrite length_insert, Nat.sub_diag. }
  eexists. split; [|split].
  - erewrite bind_Return; [|by apply (FilterFeatures_call_run columns1 pop1)].
    fold B1 sel.
    rewrite (FilterFeatures_call_run columns2 false (length σ) sel);
      [|done|by apply NoDup_fst_filter].
    rewrite Hlen. reflexivity.
  - rewrite lookup_app_r by (rewrite length_insert, Hlen; lia).
    rewrite length_insert, Hlen, Nat.sub_diag. simpl. f_equal.
    unfold sel. rewrite list_filter_filter.
    apply list_filter_iff. intros kv. tauto.
  - rewrite lookup_app_l by (rewrite length_insert, Hlen; lia).
    rewrite list_insert_id by done. done.
Qed.

Lemma FilterFeatures_call_twice_witness :
  let t := mkTensor [2; 1] [1; 2]%Z in
  let B : pydict value :=
    [("a", VTensor t); ("b", VTensor t); ("c", VTensor t)] in
  let σ : store := [B] in
  (σ !! 0 = Some B ∧ NoDup B.*1)
  ∧ ∃ σ' : store,
      (FilterFeatures_call ["a"; "b"] false (VDict 0)
         ≫= FilterFeatures_call ["b"; "c"] false) σ
        = Return (VDict 2, σ')
      ∧ σ' !! 2 = Some [("b", VTensor t)].
Proof.
  intros t B σ.
  assert (NoDup B.*1) as Hnd by (by apply (bool_decide_unpack _)).
  split; [by split|].
  destruct (FilterFeatures_call_twice ["a"; "b"] ["b"; "c"] false 0 B σ
              eq_refl Hnd) as (σ' & Hcall & Hout & _).
  exists σ'. split; [exact Hcall|exact Hout].
Defined.

(** X3.  The shape function of [FilterFeatures] agrees with its call:
    on a bundle of tensors, the call returns a bundle whose shapes are
    the dict [compute_output_shape] makes of the shapes of the input,
    key for key and in the same order. *)
Theorem FilterFeatures_shape_agrees (columns : list string) (pop : bool)
    (kts : list (string * Tensor)) (r : loc) (σ : store) :
  σ !! r = Some (bundle_of kts) → NoDup kts.*1 →
  ∃ (out : list (string * Tensor)) (σ' : store),
    FilterFeatures_call columns pop (VDict r) σ
      = Return (VDict (length σ), σ')
    ∧ σ' !! length σ = Some (bundle_of out)
    ∧ FilterFeatures_compute_output_shape columns (shapes_of kts)
      = shapes_of out.
Proof.
  intros Hr Hnd.
  exists (filter (λ kt, kt.1 ∈ columns) kts). eexists.
  split; [|split].
  - apply FilterFeatures_call_run; [done|]. by rewrite bundle_of_keys.
  - rewrite lookup_app_r by (by rewrite length_insert).
    rewrite length_insert, Nat.sub_diag. simpl. f_equal.
    unfold bundle_of. apply filter_columns_fmap.
  - unfold FilterFeatures_compute_output_shape, shapes_of.
    rewrite filter_columns_fmap.
    apply dict_of_items_NoDup. rewrite fmap_keys.
    by apply NoDup_fst_filter.
Qed.

Lemma FilterFeatures_shape_agrees_witness :
  let t := mkTensor [2; 1] [1; 2]%Z in
  let u := mkTensor [2; 3] [1; 2; 3; 4; 5; 6]%Z in
  let kts := [("a", t); ("b", u)] in
  let σ : store := [bundle_of kts] in
  (σ !! 0 = Some (bundle_of kts) ∧ NoDup kts.*1)
  ∧ ∃ (out : list (string * Tensor)) (σ' : store),
      FilterFeatures_call ["b"] false (VDict 0) σ = Return (VDict 1, σ')
      ∧ σ' !! 1 = Some (bundle_of out)
      ∧ FilterFeatures_compute_output_shape ["b"] (shapes_of kts)
        = shapes_of out.
Proof.
  intros t u kts σ.
  assert (NoDup kts.*1) as Hnd by (by apply (bool_decide_unpack _)).
  split; [by split|].
  exact (FilterFeatures_shape_agrees ["b"] false kts 0 σ eq_refl Hnd).
Defined.

(** X4.  Columns that the bundle does not have are not an error: a
    filter none of whose columns is a key of the input returns a new
    empty dict and leaves the input as it is, popping or not. *)
Theorem FilterFeatures_no_match (columns : list string) (pop : bool)
    (r : loc) (B : pydict value) (σ : store) :
  σ !! r = Some B → NoDup B.*1 →
  (∀ k, k ∈ B.*1 → k ∉ columns) →
  FilterFeatures_call columns pop (VDict r) σ
    = Return (VDict (length σ), σ ++ [[]]).
Proof.
  intros Hr Hnd Hnone.
  rewrite (FilterFeatures_call_run columns pop r B) by done.
  rewrite (filter_none (λ kv : string * value, kv.1 ∈ columns)); last first.
  { intros kv Hkv. apply Hnone. apply list_elem_of_fmap. by exists kv. }
  assert (filter (λ kv : string * value, kv.1 ∉ columns) B = B) as Hall.
  { apply filter_all. intros kv Hkv. apply Hnone.
    apply list_elem_of_fmap. by exists kv. }
  destruct pop; rewrite ?Hall; by rewrite list_insert_id.
Qed.

Lemma FilterFeatures_no_match_witness :
  let t := mkTensor [2; 1] [1; 2]%Z in
  let B : pydict value := [("a", VTensor t); ("b", VTensor t)] in
  let σ : store := [B] in
  (σ !! 0 = Some B ∧ NoDup B.*1 ∧ ∀ k, k ∈ B.*1 → k ∉ ["x"; "y"])
  ∧ FilterFeatures_call ["x"; "y"] true (VDict 0) σ
    = Return (VDict 1, σ ++ [[]]).
Proof.
  intros t B σ.
  assert (NoDup B.*1) as Hnd by (by apply (bool_decide_unpack _)).
  assert (∀ k, k ∈ B.*1 → k ∉ ["x"; "y"]) as Hnone.
  { apply Forall_forall. by apply (bool_decide_unpack _). }
  split; [by repeat split|].
  exact (FilterFeatures_no_match ["x"; "y"] true 0 B σ eq_refl Hnd Hnone).
Defined.

(** * More of MergeTabular *)

(** The loop of [MergeTabular.call] again, with the store it leaves:
    the input dict as the layers leave it, the merged dict, and the
    objects the layers created. *)
Lemma merge_loop_store (to_merge : list Layer) (ds : list (pydict value))
    (r : loc) (B Bn : pydict value) :
  runs_in_turn r B to_merge ds Bn →
  ∀ (σ : store) (acc : pydict value) (junk : store),
    r < length σ →
    ∃ junk' : store,
      for_each to_merge (λ layer,
          to_add ← layer (VDict r); update_in (VDict (length σ)) to_add)
        (<[r := B]> σ ++ acc :: junk)
      = Return ((), <[r := Bn]> σ ++ foldl dict_update acc ds :: junk').
Proof.
  induction 1 as [B|B B1 Bn layer d layers ds Hl _ IH]; intros σ acc junk Hr.
  - by exists junk.
  - set (σc := <[r := B]> σ ++ acc :: junk).
    assert (σc !! r = Some B) as Hrc.
    { unfold σc. rewrite lookup_app_l by (by rewrite length_insert).
      by apply list_lookup_insert_eq. }
    destruct (Hl σc Hrc) as (l & new & Hcall & Hd).
    assert (<[r := B1]> σc ++ new = <[r := B1]> σ ++ acc :: (junk ++ new))
      as Hstore.
    { unfold σc. rewrite insert_app_l by (by rewrite length_insert).
      rewrite list_insert_insert_eq. by rewrite <- app_assoc. }
    rewrite Hstore in Hcall, Hd.
    destruct (IH σ (dict_update acc d) (junk ++ new) Hr) as [junk' Hloop].
    exists junk'. simpl.
    erewrite bind_Return; [exact Hloop|].
    erewrite bind_Return; [|exact Hcall].
    unfold update_in.
    erewrite bind_Return; [|by apply load_Return].
    erewrite bind_Return; last first.
    { apply load_Return. rewrite lookup_app_r by (by rewrite length_insert).
      by rewrite length_insert, Nat.sub_diag. }
    unfold save. do 2 f_equal.
    rewrite insert_app_r_alt by (by rewrite length_insert).
    by rewrite length_insert, Nat.sub_diag.
Qed.

(** A [MergeTabular] is itself a layer of the kind it merges. *)
Lemma MergeTabular_call_runs_on (to_merge : list Layer)
    (ds : list (pydict value)) (r : loc) (B Bn : pydict value) :
  runs_in_turn r B to_merge ds Bn →
  runs_on (MergeTabular_call to_merge) r B Bn (foldl dict_update [] ds).
Proof.
  intros Hrun σ Hr.
  pose proof (lookup_lt_Some _ _ _ Hr) as Hlt.
  destruct (merge_loop_store to_merge ds r B Bn Hrun σ [] [] Hlt)
    as [junk' Hloop].
  rewrite list_insert_id in Hloop by done.
  exists (length σ), (foldl dict_update [] ds :: junk'). split.
  - unfold MergeTabular_call.
    erewrite bind_Return; [|reflexivity].
    erewrite bind_Return; [|exact Hloop].
    reflexivity.
  - rewrite lookup_app_r by (by rewrite length_insert).
    by rewrite length_insert, Nat.sub_diag.
Qed.

(** Without aggregation, calling a [TabularLayer] on its inputs alone
    is calling its [call]. *)
Lemma as_layer_no_aggregation (self : TabularLayer) (x : value) (σ : store) :
  aggregation self = None → as_layer self x σ = call self x σ.
Proof.
  intros Hagg. unfold as_layer, TabularLayer___call__, post_op_of.
  rewrite Hagg. cbn [for_each].
  erewrite bind_Return; [|reflexivity].
  etrans; [|apply (bind_ret_at (call self x) σ)].
  apply bind_ext_at. intros outputs σ'. reflexivity.
Qed.

Lemma as_layer_runs_on (self : TabularLayer) (r : loc) (B B' d : pydict value) :
  aggregation self = None →
  runs_on (call self) r B B' d → runs_on (as_layer self) r B B' d.
Proof.
  intros Hagg Hrun σ Hr. destruct (Hrun σ Hr) as (l & new & Hcall & Hd).
  exists l, new. by rewrite as_layer_no_aggregation.
Qed.

Lemma merge_tabular_runs_on (a b : TabularLayer) (r : loc)
    (B B2 da db : pydict value) :
  runs_in_turn r B [as_layer a; as_layer b] [da; db] B2 →
  runs_on (as_layer (merge_tabular a b)) r B B2 (dict_update (dict_update [] da) db).
Proof.
  intros Hrun. apply as_layer_runs_on; [done|].
  by apply (MergeTabular_call_runs_on _ [da; db]).
Qed.

Section update_facts.
Context {V : Type}.
Implicit Types (d e : pydict V) (k : string) (v : V).

Lemma dict_set_keys k v d :
  (dict_set k v d).*1 = if decide (k ∈ d.*1) then d.*1 else d.*1 ++ [k].
Proof.
  induction d as [|[k1 v1] d IH]; [done|].
  rewrite fmap_cons. simpl.
  destruct (decide (k = k1)) as [->|Hne].
  - rewrite decide_True by left. done.
  - rewrite fmap_cons, IH. simpl.
    destruct (decide (k ∈ d.*1)).
    + rewrite decide_True by (by right). done.
    + rewrite decide_False; [done|].
      intros [?|?]%elem_of_cons; done.
Qed.

Lemma dict_set_NoDup k v d : NoDup d.*1 → NoDup (dict_set k v d).*1.
Proof.
  intros Hnd. rewrite dict_set_keys. case_decide; [done|].
  apply NoDup_app. split; [done|]. split; [|apply NoDup_singleton].
  intros x Hx ->%list_elem_of_singleton. done.
Qed.

Lemma dict_update_NoDup d e : NoDup d.*1 → NoDup (dict_update d e).*1.
Proof.
  revert d. induction e as [|[k v] e IH]; intros d Hnd; [done|].
  apply (IH (dict_set k v d)). by apply dict_set_NoDup.
Qed.

End update_facts.

(** X5.  Merging with [+] is associative as far as the entries go:
    [((a + b) + c)] and [(a + (b + c))], called on the same bundle,
    call [a], [b] and [c] on it in that order and return dicts with
    the same entry under every key, that of the last of [a], [b], [c]
    to have the key; both leave the input as the three layers leave
    it. *)
Theorem merge_tabular_assoc (a b c : TabularLayer) (r : loc)
    (B Bn da db dc : pydict value) (σ : store) :
  σ !! r = Some B →
  runs_in_turn r B [as_layer a; as_layer b; as_layer c] [da; db; dc] Bn →
  NoDup da.*1 → NoDup db.*1 → NoDup dc.*1 →
  ∃ (l1 l2 : loc) (σ1 σ2 : store) (d1 d2 : pydict value),
    (as_layer (merge_tabular (merge_tabular a b) c) (VDict r) σ
       = Return (VDict l1, σ1)
     ∧ σ1 !! l1 = Some d1 ∧ σ1 !! r = Some Bn)
    ∧ (as_layer (merge_tabular a (merge_tabular b c)) (VDict r) σ
         = Return (VDict l2, σ2)
       ∧ σ2 !! l2 = Some d2 ∧ σ2 !! r = Some Bn)
    ∧ ∀ k, dict_get k d1 = last_write k [da; db; dc]
           ∧ dict_get k d2 = last_write k [da; db; dc].
Proof.
  intros Hr Hrun Ha Hb Hc.
  pose proof (lookup_lt_Some _ _ _ Hr) as Hlt.
  inversion Hrun as [|? B1 ? ? ? ? ? Hra Hrun1]; subst.
  inversion Hrun1 as [|? B2 ? ? ? ? ? Hrb Hrun2]; subst.
  inversion Hrun2 as [|? B3 ? ? ? ? ? Hrc Hrun3]; subst.
  inversion Hrun3; subst.
  set (dab := dict_update (dict_update [] da) db).
  set (dbc := dict_update (dict_update [] db) dc).
  assert (runs_on (as_layer (merge_tabular (merge_tabular a b) c)) r B Bn
            (dict_update (dict_update [] dab) dc)) as Hleft.
  { apply merge_tabular_runs_on.
    eapply runs_cons; [|eapply runs_cons; [exact Hrc|apply runs_nil]].
    apply merge_tabular_runs_on.
    eapply runs_cons; [exact Hra|]. eapply runs_cons; [exact Hrb|].
    apply runs_nil. }
  assert (runs_on (as_layer (merge_tabular a (merge_tabular b c))) r B Bn
            (dict_update (dict_update [] da) dbc)) as Hright.
  { apply merge_tabular_runs_on.
    eapply runs_cons; [exact Hra|]. eapply runs_cons; [|apply runs_nil].
    apply merge_tabular_runs_on.
    eapply runs_cons; [exact Hrb|]. eapply runs_cons; [exact Hrc|].
    apply runs_nil. }
  destruct (Hleft σ Hr) as (l1 & new1 & Hcall1 & Hd1).
  destruct (Hright σ Hr) as (l2 & new2 & Hcall2 & Hd2).
  assert (∀ new : store, (<[r := Bn]> σ ++ new) !! r = Some Bn) as Hin.
  { intros new. rewrite lookup_app_l by (by rewrite length_insert).
    by apply list_lookup_insert_eq. }
  eexists l1, l2, _, _, _, _.
  split; [by split; [exact Hcall1|split; [exact Hd1|apply Hin]]|].
  split; [by split; [exact Hcall2|split; [exact Hd2|apply Hin]]|].
  assert (NoDup dab.*1) as Hab by apply dict_update_NoDup, dict_update_NoDup, NoDup_nil_2.
  assert (NoDup dbc.*1) as Hbc by apply dict_update_NoDup, dict_update_NoDup, NoDup_nil_2.
  intros k. unfold dab, dbc.
  rewrite !dict_get_update by done. simpl.
  destruct (dict_get k dc), (dict_get k db), (dict_get k da); done.
Qed.
Lemma merge_tabular_assoc_witness :
  let t1 := mkTensor [1] [1]%Z in
  let t2 := mkTensor [1] [2]%Z in
  let t3 := mkTensor [1] [3]%Z in
  let da : pydict value := [("x", VTensor t1); ("y", VTensor t1)] in
  let db : pydict value := [("y", VTensor t2); ("z", VTensor t2)] in
  let dc : pydict value := [("z", VTensor t3)] in
  let a := TabularLayer___init__ None (constant_layer da) in
  let b := TabularLayer___init__ None (constant_layer db) in
  let c := TabularLayer___init__ None (constant_layer dc) in
  let B : pydict value := [("f", VTensor t1)] in
  let σ : store := [B] in
  (σ !! 0 = Some B
   ∧ runs_in_turn 0 B [as_layer a; as_layer b; as_layer c] [da; db; dc] B
   ∧ NoDup da.*1 ∧ NoDup db.*1 ∧ NoDup dc.*1)
  ∧ ∃ (l1 l2 : loc) (σ1 σ2 : store) (d1 d2 : pydict value),
      (as_layer (merge_tabular (merge_tabular a b) c) (VDict 0) σ
         = Return (VDict l1, σ1) ∧ σ1 !! l1 = Some d1)
      ∧ (as_layer (merge_tabular a (merge_tabular b c)) (VDict 0) σ
           = Return (VDict l2, σ2) ∧ σ2 !! l2 = Some d2)
      ∧ dict_get "x" d1 = Some (VTensor t1) ∧ dict_get "x" d2 = Some (VTensor t1)
      ∧ dict_get "y" d1 = Some (VTensor t2) ∧ dict_get "y" d2 = Some (VTensor t2)
      ∧ dict_get "z" d1 = Some (VTensor t3) ∧ dict_get "z" d2 = Some (VTensor t3).
Proof.
  intros t1 t2 t3 da db dc a b c B σ.
  assert (∀ d, runs_on (as_layer (TabularLayer___init__ None (constant_layer d)))
                 0 B B d) as Hconst.
  { intros d. apply as_layer_runs_on; [done|]. apply constant_layer_runs_on. }
  assert (runs_in_turn 0 B [as_layer a; as_layer b; as_layer c] [da; db; dc] B)
    as Hrun.
  { repeat (eapply runs_cons; [apply Hconst|]). apply runs_nil. }
  assert (∀ d : pydict value, bool_decide (NoDup d.*1) = true → NoDup d.*1)
    as Hdec by (intros d Hd; by apply bool_decide_eq_true in Hd).
  split; [by repeat split; try apply Hdec|].
  destruct (merge_tabular_assoc a b c 0 B B da db dc σ eq_refl Hrun
              (Hdec da eq_refl) (Hdec db eq_refl) (Hdec dc eq_refl))
    as (l1 & l2 & σ1 & σ2 & d1 & d2 & (Hc1 & Hd1 & _) & (Hc2 & Hd2 & _) & Hget).
  exists l1, l2, σ1, σ2, d1, d2.
  split; [by split|]. split; [by split|].
  repeat split; apply Hget.
Defined.

Lemma dict_get_is_key {V} (k : string) (v : V) (d : pydict V) :
  dict_get k d = Some v → k ∈ d.*1.
Proof.
  intros Hget. destruct (decide (k ∈ d.*1)) as [|Hnot]; [done|].
  by rewrite dict_get_None in Hget.
Qed.

(** X6.  The order of a merge matters on colliding keys only: when the
    dicts that [a] and [b] return share no key, [(a + b)] and [(b + a)]
    return dicts with the same entry under every key. *)
Theorem merge_tabular_comm_disjoint (a b : TabularLayer) (r : loc)
    (B da db : pydict value) (σ : store) :
  σ !! r = Some B →
  runs_on (as_layer a) r B B da → runs_on (as_layer b) r B B db →
  NoDup da.*1 → NoDup db.*1 →
  (∀ k, k ∈ da.*1 → k ∉ db.*1) →
  ∃ (l1 l2 : loc) (σ1 σ2 : store) (d1 d2 : pydict value),
    (as_layer (merge_tabular a b) (VDict r) σ = Return (VDict l1, σ1)
     ∧ σ1 !! l1 = Some d1)
    ∧ (as_layer (merge_tabular b a) (VDict r) σ = Return (VDict l2, σ2)
       ∧ σ2 !! l2 = Some d2)
    ∧ ∀ k, dict_get k d1 = dict_get k d2.
Proof.
  intros Hr Hra Hrb Ha Hb Hdisj.
  assert (runs_on (as_layer (merge_tabular a b)) r B B
            (dict_update (dict_update [] da) db)) as Hab.
  { apply merge_tabular_runs_on.
    eapply runs_cons; [exact Hra|]. eapply runs_cons; [exact Hrb|].
    apply runs_nil. }
  assert (runs_on (as_layer (merge_tabular b a)) r B B
            (dict_update (dict_update [] db) da)) as Hba.
  { apply merge_tabular_runs_on.
    eapply runs_cons; [exact Hrb|]. eapply runs_cons; [exact Hra|].
    apply runs_nil. }
  destruct (Hab σ Hr) as (l1 & new1 & Hcall1 & Hd1).
  destruct (Hba σ Hr) as (l2 & new2 & Hcall2 & Hd2).
  eexists l1, l2, _, _, _, _.
  split; [by split|]. split; [by split|].
  intros k. rewrite !dict_get_update by done. simpl.
  destruct (dict_get k da) as [va|] eqn:Hga, (dict_get k db) as [vb|] eqn:Hgb;
    try done.
  exfalso. apply (Hdisj k); by eapply dict_get_is_key.
Qed.

Lemma merge_tabular_comm_disjoint_witness :
  let t1 := mkTensor [1] [1]%Z in
  let t2 := mkTensor [1] [2]%Z in
  let da : pydict value := [("x", VTensor t1)] in
  let db : pydict value := [("y", VTensor t2)] in
  let a := TabularLayer___init__ None (constant_layer da) in
  let b := TabularLayer___init__ None (constant_layer db) in
  let B : pydict value := [("f", VTensor t1)] in
  let σ : store := [B] in
  (σ !! 0 = Some B
   ∧ runs_on (as_layer a) 0 B B da ∧ runs_on (as_layer b) 0 B B db
   ∧ NoDup da.*1 ∧ NoDup db.*1 ∧ ∀ k, k ∈ da.*1 → k ∉ db.*1)
  ∧ ∃ (l1 l2 : loc) (σ1 σ2 : store) (d1 d2 : pydict value),
      (as_layer (merge_tabular a b) (VDict 0) σ = Return (VDict l1, σ1)
       ∧ σ1 !! l1 = Some d1)
      ∧ (as_layer (merge_tabular b a) (VDict 0) σ = Return (VDict l2, σ2)
         ∧ σ2 !! l2 = Some d2)
      ∧ ∀ k, dict_get k d1 = dict_get k d2.
Proof.
  intros t1 t2 da db a b B σ.
  assert (∀ d, runs_on (as_layer (TabularLayer___init__ None (constant_layer d)))
                 0 B B d) as Hconst.
  { intros d. apply as_layer_runs_on; [done|]. apply constant_layer_runs_on. }
  assert (NoDup da.*1) as Ha by (by apply (bool_decide_unpack _)).
  assert (NoDup db.*1) as Hb by (by apply (bool_decide_unpack _)).
  assert (∀ k, k ∈ da.*1 → k ∉ db.*1) as Hdisj.
  { apply Forall_forall. by apply (bool_decide_unpack _). }
  split;
    [exact (conj eq_refl (conj (Hconst da) (conj (Hconst db)
              (conj Ha (conj Hb Hdisj)))))|].
  exact (merge_tabular_comm_disjoint a b 0 B da db σ eq_refl
           (Hconst da) (Hconst db) Ha Hb Hdisj).
Defined.

Lemma dict_set_fmap {V W} (f : V → W) (k : string) (v : V) (d : pydict V) :
  dict_set k (f v) (prod_map id f <$> d) = prod_map id f <$> dict_set k v d.
Proof.
  induction d as [|[k1 v1] d IH]; [done|].
  rewrite fmap_cons. simpl.
  destruct (decide (k = k1)); [done|].
  by rewrite fmap_cons, IH.
Qed.

Lemma dict_update_fmap {V W} (f : V → W) (d e : pydict V) :
  dict_update (prod_map id f <$> d) (prod_map id f <$> e)
    = prod_map id f <$> dict_update d e.
Proof.
  revert d. induction e as [|[k v] e IH]; intros d; [done|].
  rewrite fmap_cons.
  change (dict_update (prod_map id f <$> d) (prod_map id f (k, v) :: _))
    with (dict_update (dict_set k (f v) (prod_map id f <$> d))
            (prod_map id f <$> e)).
  rewrite dict_set_fmap. apply IH.
Qed.

Lemma merge_output_shapes_dicts (fns : list shape_fn)
    (ktss : list (list (string * Tensor))) (input_shape : pydict sval)
    (acc : list (string * Tensor)) :
  Forall2 (λ fn out, fn input_shape = Return (ShapeDict (shapes_of out)))
    fns ktss →
  merge_output_shapes fns input_shape (shapes_of acc)
    = Return (shapes_of (foldl dict_update acc ktss)).
Proof.
  intros Hall. revert acc.
  induction Hall as [|fn out fns ktss Hfn _ IH]; intros acc; [done|].
  simpl. rewrite Hfn. simpl.
  unfold shapes_of at 1 2. rewrite dict_update_fmap. apply IH.
Qed.

Lemma foldl_dict_update_bundle (ktss : list (list (string * Tensor)))
    (acc : list (string * Tensor)) :
  foldl dict_update (bundle_of acc) (bundle_of <$> ktss)
    = bundle_of (foldl dict_update acc ktss).
Proof.
  revert acc. induction ktss as [|kts ktss IH]; intros acc; [done|].
  rewrite fmap_cons. simpl.
  unfold bundle_of at 1 2. rewrite dict_update_fmap. apply IH.
Qed.

(** X7.  The shape function of [MergeTabular] agrees with its call:
    when every merged layer returns a bundle of tensors whose shapes
    are the dict its own shape function returns, [MergeTabular.call]
    returns a bundle of tensors whose shapes are the dict
    [MergeTabular.compute_output_shape] returns, key for key and in
    the same order. *)
Theorem MergeTabular_shape_agrees (to_merge : list Layer)
    (fns : list shape_fn) (ktss : list (list (string * Tensor)))
    (kts : list (string * Tensor)) (r : loc) (Bn : pydict value) (σ : store) :
  σ !! r = Some (bundle_of kts) →
  runs_in_turn r (bundle_of kts) to_merge (bundle_of <$> ktss) Bn →
  Forall2 (λ fn out, fn (shapes_of kts) = Return (ShapeDict (shapes_of out)))
    fns ktss →
  ∃ (l : loc) (σ' : store) (merged : list (string * Tensor)),
    MergeTabular_call to_merge (VDict r) σ = Return (VDict l, σ')
    ∧ σ' !! l = Some (bundle_of merged)
    ∧ MergeTabular_compute_output_shape fns (shapes_of kts)
      = Return (shapes_of merged).
Proof.
  intros Hr Hrun Hfns.
  destruct (MergeTabular_call_runs_on _ _ _ _ _ Hrun σ Hr)
    as (l & new & Hcall & Hd).
  exists l. eexists. exists (foldl dict_update [] ktss).
  split; [exact Hcall|]. split.
  - rewrite Hd. f_equal. apply (foldl_dict_update_bundle ktss []).
  - apply (merge_output_shapes_dicts fns ktss _ [] Hfns).
Qed.

Lemma MergeTabular_shape_agrees_witness :
  let t := mkTensor [2; 1] [1; 2]%Z in
  let u := mkTensor [2; 3] [1; 2; 3; 4; 5; 6]%Z in
  let kts := [("a", t); ("b", u); ("c", t)] in
  let σ : store := [bundle_of kts] in
  let to_merge := [FilterFeatures_call ["a"; "b"] false;
                   FilterFeatures_call ["b"; "c"] false] in
  let fns : list shape_fn :=
    [λ s, Return (ShapeDict (FilterFeatures_compute_output_shape ["a"; "b"] s));
     λ s, Return (ShapeDict (FilterFeatures_compute_output_shape ["b"; "c"] s))] in
  let ktss := [[("a", t); ("b", u)]; [("b", u); ("c", t)]] in
  (σ !! 0 = Some (bundle_of kts)
   ∧ runs_in_turn 0 (bundle_of kts) to_merge (bundle_of <$> ktss) (bundle_of kts)
   ∧ Forall2 (λ fn out, fn (shapes_of kts) = Return (ShapeDict (shapes_of out)))
       fns ktss)
  ∧ ∃ (l : loc) (σ' : store) (merged : list (string * Tensor)),
      MergeTabular_call to_merge (VDict 0) σ = Return (VDict l, σ')
      ∧ σ' !! l = Some (bundle_of merged)
      ∧ MergeTabular_compute_output_shape fns (shapes_of kts)
        = Return (shapes_of merged).
Proof.
  intros t u kts σ to_merge fns ktss.
  assert (NoDup (bundle_of kts).*1) as Hnd by (by apply (bool_decide_unpack _)).
  assert (runs_in_turn 0 (bundle_of kts) to_merge (bundle_of <$> ktss)
            (bundle_of kts)) as Hrun.
  { eapply runs_cons;
      [exact (FilterFeatures_call_runs_on ["a"; "b"] false 0 _ Hnd)|].
    eapply runs_cons;
      [exact (FilterFeatures_call_runs_on ["b"; "c"] false 0 _ Hnd)|].
    apply runs_nil. }
  assert (Forall2 (λ fn out,
            fn (shapes_of kts) = Return (ShapeDict (shapes_of out))) fns ktss)
    as Hfns by (repeat constructor).
  split; [by repeat split|].
  exact (MergeTabular_shape_agrees to_merge fns ktss kts 0 _ σ eq_refl
           Hrun Hfns).
Defined.


(** * More of TabularLayer *)

(** X8.  An aggregation name other than ["concat"] and ["stack"] is
    not refused but dropped: the layer built with it behaves as one
    built without aggregation, its call returning what [call] returns
    and its shape function the shapes it is given. *)
Theorem unknown_aggregation_ignored (name : string) (f : Layer) (x : value)
    (input_shapes : pydict sval) (σ : store) :
  name ≠ "concat" → name ≠ "stack" →
  as_layer (TabularLayer___init__ (Some name) f) x σ = f x σ
  ∧ TabularLayer_compute_output_shape (TabularLayer___init__ (Some name) f)
      input_shapes
    = Return (ShapeDict input_shapes).
Proof.
  intros Hc Hs.
  assert (aggregation (TabularLayer___init__ (Some name) f) = None) as Hagg.
  { simpl. by rewrite !decide_False. }
  split.
  - by rewrite as_layer_no_aggregation.
  - unfold TabularLayer_compute_output_shape. by rewrite Hagg.
Qed.

Lemma unknown_aggregation_ignored_witness :
  let t := mkTensor [2; 1] [1; 2]%Z in
  let σ : store := [[("a", VTensor t)]] in
  ("cosine" ≠ "concat" ∧ "cosine" ≠ "stack")
  ∧ as_layer (TabularLayer___init__ (Some "cosine") Layer_call) (VDict 0) σ
    = Return (VDict 0, σ)
  ∧ TabularLayer_compute_output_shape
      (TabularLayer___init__ (Some "cosine") Layer_call) [("a", shape_of t)]
    = Return (ShapeDict [("a", shape_of t)]).
Proof.
  intros t σ.
  assert ("cosine" ≠ "concat") as Hc by discriminate.
  assert ("cosine" ≠ "stack") as Hs by discriminate.
  split; [by split|].
  exact (unknown_aggregation_ignored "cosine" Layer_call (VDict 0)
           [("a", shape_of t)] σ Hc Hs).
Defined.

(** X9.  [merge_with] writes into whatever dict [call] returns.  A
    layer that keeps the inherited [call], which returns its input,
    therefore updates the caller's dict in place: after the call the
    input holds the entries of the merged layer too, and the value
    returned is the input dict itself. *)
Theorem merge_with_updates_input_in_place (m : Layer) (r : loc)
    (B B' d : pydict value) (σ : store) :
  σ !! r = Some B → runs_on m r B B' d →
  ∃ new : store,
    TabularLayer___call__ (TabularLayer___init__ None Layer_call) (VDict r)
      None None [inl m] false false None σ
    = Return (VDict r, <[r := dict_update B' d]> σ ++ new).
Proof.
  intros Hr Hm. destruct (Hm σ Hr) as (l & new & Hcall & Hd).
  pose proof (lookup_lt_Some _ _ _ Hr) as Hlt.
  exists new. unfold TabularLayer___call__. simpl.
  erewrite bind_Return; [|reflexivity].
  erewrite bind_Return; [|reflexivity].
  erewrite bind_Return; [reflexivity|].
  erewrite bind_Return; last first.
  { erewrite bind_Return; [|exact Hcall].
    unfold update_in.
    erewrite bind_Return; [|by apply load_Return].
    erewrite bind_Return; last first.
    { apply load_Return. rewrite lookup_app_l by (by rewrite length_insert).
      by apply list_lookup_insert_eq. }
    reflexivity. }
  unfold mret, M_ret. do 2 f_equal.
  rewrite insert_app_l by (by rewrite length_insert).
  by rewrite list_insert_insert_eq.
Qed.

Lemma merge_with_updates_input_in_place_witness :
  let t := mkTensor [2; 1] [1; 2]%Z in
  let u := mkTensor [2; 1] [3; 4]%Z in
  let B : pydict value := [("a", VTensor t)] in
  let d : pydict value := [("a", VTensor u); ("b", VTensor u)] in
  let σ : store := [B] in
  (σ !! 0 = Some B ∧ runs_on (constant_layer d) 0 B B d)
  ∧ ∃ new : store,
      TabularLayer___call__ (TabularLayer___init__ None Layer_call) (VDict 0)
        None None [inl (constant_layer d)] false false None σ
      = Return (VDict 0, [[("a", VTensor u); ("b", VTensor u)]] ++ new).
Proof.
  intros t u B d σ.
  split; [split; [reflexivity|apply constant_layer_runs_on]|].
  exact (merge_with_updates_input_in_place (constant_layer d) 0 B B d σ
           eq_refl (constant_layer_runs_on d B 0)).
Defined.

(** * Shape inference against the calls *)

(** [tf.stack] at any admissible axis of tensors of one shape. *)
Lemma tf_stack_shape_at (ts : list Tensor) (s : list nat) (axis : Z) (a : nat) :
  ts ≠ [] → Forall (λ t, shape t = s) ts →
  normalize_axis (S (length s)) axis = Some a →
  ∃ out, tf_stack ts axis = Return out
         ∧ shape out = take a s ++ [length ts] ++ drop a s.
Proof.
  intros Hne Hall Haxis. destruct ts as [|t0 ts]; [done|].
  assert (shape t0 = s) as Ht0 by (by apply Forall_cons in Hall as [? _]).
  unfold tf_stack. rewrite Ht0, Haxis.
  rewrite forallb_all; last first.
  { eapply Forall_impl; [exact Hall|]. intros t Ht. simpl.
    by rewrite bool_decide_true. }
  eexists. split; reflexivity.
Qed.

Lemma shapes_of_values (kts : list (string * Tensor)) :
  (shapes_of kts).*2 = (λ kt, shape_of kt.2) <$> kts.
Proof.
  unfold shapes_of. rewrite <- list_fmap_compose. by apply list_fmap_ext.
Qed.

(** X10.  On bundles of matrices the shape function of a layer built
    with [aggregation="concat"] tells the truth: the layer returns a
    tensor whose shape is the tuple its [compute_output_shape] infers
    from the shapes of the input. *)
Theorem concat_shape_agrees_rank2 (kts : list (string * Tensor)) (r : loc)
    (σ : store) (b : nat) :
  let self := TabularLayer___init__ (Some "concat") Layer_call in
  σ !! r = Some (bundle_of kts) → NoDup kts.*1 → kts ≠ [] →
  Forall (λ kt, ∃ w, shape kt.2 = [b; w]) kts →
  ∃ out σ',
    as_layer self (VDict r) σ = Return (VTensor out, σ')
    ∧ TabularLayer_compute_output_shape self (shapes_of kts)
      = Return (Shape (dims_tuple (shape out))).
Proof.
  intros self Hr Hnd Hne Hall.
  destruct (ConcatFeatures_call_bundle kts r σ b Hr Hnd Hne)
    as (out & σ' & Hcall & Hshape).
  { eapply Forall_impl; [exact Hall|]. intros kt [w Hw]. by exists [w]. }
  exists out, σ'. split.
  - unfold as_layer, TabularLayer___call__. simpl.
    erewrite bind_Return; [|reflexivity].
    erewrite bind_Return; [|reflexivity].
    erewrite bind_Return; [|reflexivity].
    exact Hcall.
  - unfold TabularLayer_compute_output_shape. simpl.
    rewrite (ConcatFeatures_compute_output_shape_rank2 _ (Some b)
               ((λ kt, nth 1 (shape kt.2) 0) <$> kts)).
    + simpl. rewrite Hshape. unfold dims_tuple. simpl.
      rewrite sum_list_fmap.
      assert (sum_list_with (λ kt : string * Tensor, nth 1 (shape kt.2) 0) kts
              = sum_list_with
                  (λ kt : string * Tensor, list_prod (tail (shape kt.2))) kts)
        as ->; [|done].
      clear -Hall. induction Hall as [|kt kts [w Hw] _ IH]; [done|].
      simpl. rewrite IH, Hw. simpl. lia.
    + by intros ?%fmap_nil_inv.
    + rewrite shapes_of_values, <- list_fmap_compose.
      apply Forall_fmap_ext_1.
      eapply Forall_impl; [exact Hall|]. intros kt [w Hw]. simpl.
      unfold shape_of. by rewrite Hw.
Qed.

Lemma concat_shape_agrees_rank2_witness :
  let t := mkTensor [2; 1] [1; 2]%Z in
  let u := mkTensor [2; 3] [1; 2; 3; 4; 5; 6]%Z in
  let kts := [("b", u); ("a", t)] in
  let σ : store := [bundle_of kts] in
  let self := TabularLayer___init__ (Some "concat") Layer_call in
  (σ !! 0 = Some (bundle_of kts) ∧ NoDup kts.*1 ∧ kts ≠ []
   ∧ Forall (λ kt, ∃ w, shape kt.2 = [2; w]) kts)
  ∧ ∃ out σ',
      as_layer self (VDict 0) σ = Return (VTensor out, σ')
      ∧ TabularLayer_compute_output_shape self (shapes_of kts)
        = Return (Shape (dims_tuple (shape out))).
Proof.
  intros t u kts σ self.
  assert (NoDup kts.*1) as Hnd by (by apply (bool_decide_unpack _)).
  assert (kts ≠ []) as Hne by discriminate.
  assert (Forall (λ kt, ∃ w, shape kt.2 = [2; w]) kts) as Hall.
  { repeat constructor; by eexists. }
  split; [by repeat split|].
  exact (concat_shape_agrees_rank2 kts 0 σ 2 eq_refl Hnd Hne Hall).
Defined.

(** On a bundle of [n] tensors whose flattened shape is [(b, w)],
    [StackFeatures(axis=1)] returns a tensor of shape [(b, n, w)]. *)
Lemma StackFeatures_call_bundle_axis1 (kts : list (string * Tensor)) (r : loc)
    (σ : store) (b w : nat) :
  σ !! r = Some (bundle_of kts) → NoDup kts.*1 → kts ≠ [] →
  Forall (λ kt, shape kt.2 ≠ [] ∧ shape (flat kt.2) = [b; w]) kts →
  ∃ out σ',
    StackFeatures_call 1 (VDict r) σ = Return (VTensor out, σ')
    ∧ shape out = [b; length kts; w].
Proof.
  intros Hr Hnd Hne Hall.
  destruct (tf_stack_shape_at (flat <$> (sorted_items kts).*2) [b; w] 1 1)
    as (out & Hout & Hshape).
  { intros Hnil. apply fmap_nil_inv, fmap_nil_inv in Hnil.
    apply Hne. apply Permutation_nil_r. by rewrite <- Hnil, sorted_items_perm. }
  { rewrite sorted_items_perm. apply Forall_fmap, Forall_fmap.
    eapply Forall_impl; [exact Hall|]. by intros kt [_ ?]. }
  { reflexivity. }
  exists out, (σ ++ [bundle_of (prod_map id flat <$> kts)]).
  split.
  - unfold StackFeatures_call. rewrite <- bind_assoc_at.
    erewrite bind_Return; last first.
    { apply flatten_bundle; [done..|].
      eapply Forall_impl; [exact Hall|]. by intros kt [? _]. }
    erewrite bind_Return; [|by apply lift_Return].
    reflexivity.
  - rewrite Hshape, !length_fmap, sorted_items_length. done.
Qed.

(** X11.  Stacking along axis 1 is what the shape function of
    [StackFeatures] describes: on a bundle of [n] matrices of one shape
    [(b, w)], [StackFeatures(axis=1)] returns a tensor of shape
    [(b, n, w)], the tuple [compute_output_shape] infers from the
    shapes of the input. *)
Theorem stack_axis1_shape_agrees (kts : list (string * Tensor)) (r : loc)
    (σ : store) (b w : nat) :
  σ !! r = Some (bundle_of kts) → NoDup kts.*1 → kts ≠ [] →
  Forall (λ kt, shape kt.2 = [b; w]) kts →
  ∃ out σ',
    StackFeatures_call 1 (VDict r) σ = Return (VTensor out, σ')
    ∧ shape out = [b; length kts; w]
    ∧ StackFeatures_compute_output_shape (shapes_of kts)
      = Return (dims_tuple (shape out)).
Proof.
  intros Hr Hnd Hne Hall.
  destruct (StackFeatures_call_bundle_axis1 kts r σ b (w * 1) Hr Hnd Hne)
    as (out & σ' & Hcall & Hshape).
  { eapply Forall_impl; [exact Hall|]. intros kt Hkt.
    unfold flat. by rewrite Hkt. }
  rewrite Nat.mul_1_r in Hshape.
  exists out, σ'. split; [done|]. split; [done|].
  rewrite Hshape.
  rewrite (StackFeatures_compute_output_shape_rank2 _ (Some b) (Some w)).
  - unfold shapes_of, dims_tuple. by rewrite length_fmap.
  - unfold shapes_of. by intros ?%fmap_nil_inv.
  - rewrite shapes_of_values. apply Forall_fmap.
    eapply Forall_impl; [exact Hall|]. intros kt Hkt. simpl.
    unfold shape_of. by rewrite Hkt.
Qed.

Lemma stack_axis1_shape_agrees_witness :
  let t := mkTensor [3; 8] (replicate 24 0%Z) in
  let kts := [("a", t); ("b", t)] in
  let σ : store := [bundle_of kts] in
  (σ !! 0 = Some (bundle_of kts) ∧ NoDup kts.*1 ∧ kts ≠ []
   ∧ Forall (λ kt, shape kt.2 = [3; 8]) kts)
  ∧ ∃ out σ',
      StackFeatures_call 1 (VDict 0) σ = Return (VTensor out, σ')
      ∧ shape out = [3; 2; 8]
      ∧ StackFeatures_compute_output_shape (shapes_of kts)
        = Return (dims_tuple (shape out)).
Proof.
  intros t kts σ.
  assert (NoDup kts.*1) as Hnd by (by apply (bool_decide_unpack _)).
  assert (kts ≠ []) as Hne by discriminate.
  assert (Forall (λ kt, shape kt.2 = [3; 8]) kts) as Hall
    by (repeat constructor).
  split; [by repeat split|].
  exact (stack_axis1_shape_agrees kts 0 σ 3 8 eq_refl Hnd Hne Hall).
Defined.

(** * The order of the keys *)

Lemma ascii_compare_lt_trans (x y z : Ascii.ascii) :
  Ascii.compare x y = Lt → Ascii.compare y z = Lt → Ascii.compare x z = Lt.
Proof.
  unfold Ascii.compare. rewrite !N.compare_lt_iff. apply N.lt_trans.
Qed.

Lemma string_compare_lt_trans (a b c : string) :
  String.compare a b = Lt → String.compare b c = Lt → String.compare a c = Lt.
Proof.
  revert b c. induction a as [|x a IH]; intros [|y b] [|z c]; simpl; try done.
  destruct (Ascii.compare x y) eqn:Hxy; [|clear IH|done].
  - apply Ascii.compare_eq_iff in Hxy as ->.
    destruct (Ascii.compare y z); [apply IH|done..].
  - intros _. destruct (Ascii.compare y z) eqn:Hyz; [| |done].
    + apply Ascii.compare_eq_iff in Hyz as <-. by rewrite Hxy.
    + intros _. by rewrite (ascii_compare_lt_trans x y z).
Qed.

Lemma string_leb_trans (a b c : string) :
  String.leb a b = true → String.leb b c = true → String.leb a c = true.
Proof.
  unfold String.leb.
  destruct (String.compare a b) eqn:Hab; [| |done]; intros _.
  - by apply String.compare_eq_iff in Hab as ->.
  - destruct (String.compare b c) eqn:Hbc; [| |done]; intros _.
    + apply String.compare_eq_iff in Hbc as <-. by rewrite Hab.
    + by rewrite (string_compare_lt_trans a b c).
Qed.

Section sorted_unique.
Context {V : Type}.
Implicit Types (d l : pydict V) (kv : string * V).

#[local] Instance key_le_trans : Transitive (@key_le V).
Proof. intros x y z. apply string_leb_trans. Qed.

Lemma insert_sorted_Sorted kv l :
  Sorted key_le l → Sorted key_le (insert_sorted kv l).
Proof.
  induction 1 as [|x l Hl IH Hx]; simpl; [by repeat constructor|].
  destruct (String.leb kv.1 x.1) eqn:Hle.
  - constructor; [by constructor|]. by constructor.
  - assert (key_le x kv) as Hxkv.
    { unfold key_le. destruct (String.leb_total x.1 kv.1) as [?|Hc]; [done|].
      by rewrite Hc in Hle. }
    constructor; [done|].
    destruct Hx as [|y l Hxy]; simpl; [by constructor|].
    destruct (String.leb kv.1 y.1); by constructor.
Qed.

Lemma sorted_items_Sorted d : Sorted key_le (sorted_items d).
Proof.
  induction d as [|x d IH]; [constructor|].
  by apply insert_sorted_Sorted.
Qed.

Lemma NoDup_keys_inj d x y :
  NoDup d.*1 → x ∈ d → y ∈ d → x.1 = y.1 → x = y.
Proof.
  induction d as [|z d IH]; [by intros _ ?%elem_of_nil|].
  rewrite fmap_cons, NoDup_cons, !elem_of_cons.
  intros [Hz Hnd] [->|Hx] [->|Hy] Heq; [done| | |by apply IH].
  - exfalso. apply Hz. rewrite Heq. apply list_elem_of_fmap. by exists y.
  - exfalso. apply Hz. rewrite <- Heq. apply list_elem_of_fmap. by exists x.
Qed.

(** [sorted] does not depend on the order its argument is in. *)
Lemma sorted_items_unique d1 d2 :
  NoDup d1.*1 → d1 ≡ₚ d2 → sorted_items d1 = sorted_items d2.
Proof.
  intros Hnd Hperm.
  apply (Sorted_unique_strong key_le);
    [|apply sorted_items_Sorted..|by rewrite !sorted_items_perm].
  intros x y Hx Hy Hxy Hyx.
  apply (NoDup_keys_inj d1); [done| | |by apply String.leb_antisym].
  - by rewrite <- (sorted_items_perm d1).
  - by rewrite Hperm, <- (sorted_items_perm d2).
Qed.

End sorted_unique.

(** The outcome of an aggregation, given the flattened tensors. *)
Lemma aggregate_outcome (g : list Tensor → outcome Tensor) (inputs : value)
    (σ σ' : store) (ts : list Tensor) :
  (nest_map_structure Flatten_call inputs ≫= nest_flatten) σ
    = Return (ts, σ') →
  fst <$> (flat ← nest_map_structure Flatten_call inputs;
           tensors ← nest_flatten flat;
           t ← lift (g tensors);
           mret (VTensor t)) σ
    = VTensor <$> g ts.
Proof.
  intros H. rewrite <- bind_assoc_at.
  erewrite bind_Return; [|exact H].
  unfold mbind, M_bind, lift. by destruct (g ts).
Qed.

(** X12.  What an aggregation returns does not depend on the order in
    which the bundle was filled: two bundles of tensors with the same
    entries, inserted in any two orders, are concatenated, or stacked,
    into the same tensor, or fail with the same exception. *)
Theorem aggregation_ignores_insertion_order (op : aggregator)
    (kts1 kts2 : list (string * Tensor)) (r1 r2 : loc) (σ1 σ2 : store) :
  σ1 !! r1 = Some (bundle_of kts1) → σ2 !! r2 = Some (bundle_of kts2) →
  kts1 ≡ₚ kts2 → NoDup kts1.*1 →
  Forall (λ kt, shape kt.2 ≠ []) kts1 →
  fst <$> aggregator_call op (VDict r1) σ1
    = fst <$> aggregator_call op (VDict r2) σ2.
Proof.
  intros Hr1 Hr2 Hperm Hnd Hrank.
  assert (NoDup kts2.*1) as Hnd2 by (by rewrite <- Hperm).
  assert (Forall (λ kt, shape kt.2 ≠ []) kts2) as Hrank2
    by (by rewrite <- Hperm).
  pose proof (flatten_bundle kts1 r1 σ1 Hr1 Hnd Hrank) as H1.
  pose proof (flatten_bundle kts2 r2 σ2 Hr2 Hnd2 Hrank2) as H2.
  rewrite <- (sorted_items_unique kts1 kts2 Hnd Hperm) in H2.
  destruct op as [axis|axis]; simpl;
    unfold ConcatFeatures_call, StackFeatures_call.
  - rewrite (aggregate_outcome (λ ts, tf_concat ts axis) _ _ _ _ H1).
    by rewrite (aggregate_outcome (λ ts, tf_concat ts axis) _ _ _ _ H2).
  - rewrite (aggregate_outcome (λ ts, tf_stack ts axis) _ _ _ _ H1).
    by rewrite (aggregate_outcome (λ ts, tf_stack ts axis) _ _ _ _ H2).
Qed.

Lemma aggregation_ignores_insertion_order_witness :
  let t := mkTensor [2; 1] [1; 2]%Z in
  let u := mkTensor [2; 2] [3; 4; 5; 6]%Z in
  let kts1 := [("a", t); ("b", u)] in
  let kts2 := [("b", u); ("a", t)] in
  (kts1 ≡ₚ kts2 ∧ NoDup kts1.*1 ∧ Forall (λ kt, shape kt.2 ≠ []) kts1)
  ∧ fst <$> ConcatFeatures_call (-1) (VDict 0) [bundle_of kts1]
    = fst <$> ConcatFeatures_call (-1) (VDict 0) [bundle_of kts2]
  ∧ fst <$> ConcatFeatures_call (-1) (VDict 0) [bundle_of kts2]
    = Return (VTensor (mkTensor [2; 3] [1; 3; 4; 2; 5; 6]%Z)).
Proof.
  intros t u kts1 kts2.
  assert (kts1 ≡ₚ kts2) as Hperm by apply Permutation_swap.
  assert (NoDup kts1.*1) as Hnd by (by apply (bool_decide_unpack _)).
  assert (Forall (λ kt, shape kt.2 ≠ []) kts1) as Hrank
    by (repeat constructor; discriminate).
  split; [by repeat split|]. split; [|reflexivity].
  exact (aggregation_ignores_insertion_order (ConcatFeatures (-1)) kts1 kts2
           0 0 [bundle_of kts1] [bundle_of kts2] eq_refl eq_refl
           Hperm Hnd Hrank).
Defined.

(** X13.  With [filter_columns] the caller's dict is out of reach of
    [merge_with]: the filter, which replaces any [pre], hands a new
    dict to the layer, the merged layer is called on that dict and its
    entries are written into it; the input dict and every other object
    the caller had are as before, and [post] plays no part. *)
Theorem filter_columns_shields_input (c : string) (cs : list string)
    (pre post : option Layer) (m : Layer) (r : loc)
    (B B' d : pydict value) (σ : store) :
  σ !! r = Some B → NoDup B.*1 →
  runs_on m (length σ) (filter (λ kv, kv.1 ∈ c :: cs) B) B' d →
  ∃ new : store,
    TabularLayer___call__ (TabularLayer___init__ None Layer_call) (VDict r)
      pre post [inl m] false false (Some (c :: cs)) σ
    = Return (VDict (length σ), σ ++ [dict_update B' d] ++ new).
Proof.
  intros Hr Hnd Hm.
  set (sel := filter (λ kv : string * value, kv.1 ∈ c :: cs) B) in *.
  assert ((σ ++ [sel]) !! length σ = Some sel) as Hsel.
  { rewrite lookup_app_r by done. by rewrite Nat.sub_diag. }
  destruct (Hm (σ ++ [sel]) Hsel) as (l & new & Hcall & Hd).
  assert (length σ < length (σ ++ [sel])) as Hlt
    by (rewrite length_app; simpl; lia).
  exists new. unfold TabularLayer___call__. cbv beta iota zeta.
  erewrite bind_Return; last first.
  { rewrite (FilterFeatures_call_run (c :: cs) false r B) by done.
    rewrite list_insert_id by done. reflexivity. }
  erewrite bind_Return; [|reflexivity].
  erewrite bind_Return; [reflexivity|].
  cbn [for_each]. fold sel.
  erewrite bind_Return; last first.
  { erewrite bind_Return; [|exact Hcall].
    unfold update_in.
    erewrite bind_Return; [|by apply load_Return].
    erewrite bind_Return; last first.
    { apply load_Return. rewrite lookup_app_l by (by rewrite length_insert).
      by apply list_lookup_insert_eq. }
    reflexivity. }
  unfold mret, M_ret. do 2 f_equal.
  rewrite insert_app_l by (by rewrite length_insert).
  rewrite list_insert_insert_eq.
  rewrite insert_app_r_alt by done. rewrite Nat.sub_diag. simpl.
  by rewrite <- app_assoc.
Qed.

Lemma filter_columns_shields_input_witness :
  let t := mkTensor [2; 1] [1; 2]%Z in
  let u := mkTensor [2; 1] [3; 4]%Z in
  let B : pydict value := [("a", VTensor t); ("b", VTensor t)] in
  let d : pydict value := [("a", VTensor u); ("c", VTensor u)] in
  let σ : store := [B] in
  (σ !! 0 = Some B ∧ NoDup B.*1
   ∧ runs_on (constant_layer d) (length σ)
       (filter (λ kv, kv.1 ∈ ["a"]) B) (filter (λ kv, kv.1 ∈ ["a"]) B) d)
  ∧ ∃ new : store,
      TabularLayer___call__ (TabularLayer___init__ None Layer_call) (VDict 0)
        None None [inl (constant_layer d)] false false (Some ["a"]) σ
      = Return (VDict 1,
                [B] ++ [[("a", VTensor u); ("c", VTensor u)]] ++ new).
Proof.
  intros t u B d σ.
  assert (NoDup B.*1) as Hnd by (by apply (bool_decide_unpack _)).
  split; [split; [reflexivity|split; [exact Hnd|apply constant_layer_runs_on]]|].
  exact (filter_columns_shields_input "a" [] None None (constant_layer d) 0
           B _ d σ eq_refl Hnd (constant_layer_runs_on d _ 1)).
Defined.

(** * MLPBlock *)

Section MLPBlock_facts.
Context {Activation Rate Norm : Type}.
Variable truthy : Rate → bool.
Implicit Types (dims : list Z) (activation : Activation)
  (dropout : option Rate) (normalization : option (string + Norm)).

Lemma MLPBlock_step_app activation use_bias dropout normalization
    (layers : list (@keras_layer Activation Rate Norm)) (dim : Z) :
  MLPBlock_step truthy activation use_bias dropout normalization layers dim
    = layers
      ++ MLPBlock_step truthy activation use_bias dropout normalization [] dim.
Proof.
  unfold MLPBlock_step.
  destruct dropout as [rate|]; [destruct (truthy rate)|];
    (destruct normalization as [[name|obj]|];
       [destruct (normalization_on _); [destruct (decide _)|]
       |destruct (normalization_on _)|]);
    by rewrite <- ?app_assoc.
Qed.

(** The list as the groups of layers of the dimensions, one after the
    other. *)
Lemma MLPBlock_layers_groups dims activation use_bias dropout normalization :
  MLPBlock_layers truthy dims activation use_bias dropout normalization
    = dims ≫= MLPBlock_step truthy activation use_bias dropout normalization [].
Proof.
  unfold MLPBlock_layers.
  assert (∀ acc,
    foldl (MLPBlock_step truthy activation use_bias dropout normalization)
      acc dims
    = acc ++ (dims ≫= MLPBlock_step truthy activation use_bias dropout
                        normalization [])) as Hacc; [|apply (Hacc [])].
  induction dims as [|dim dims IH]; intros acc; simpl.
  - by rewrite app_nil_r.
  - rewrite IH, MLPBlock_step_app. by rewrite <- app_assoc.
Qed.

End MLPBlock_facts.

(** X14.  The layers of an [MLPBlock]: every dimension contributes one
    [Dense] layer, then a [Dropout] if [dropout] is set and not zero,
    then a normalization if one is given; so the number of layers is
    the number of dimensions times one, two or three, and the [Dense]
    layers, in order, are those of the dimensions, all with the
    [activation] and [use_bias] of the block. *)
Theorem MLPBlock_layers_structure {Activation Rate Norm : Type}
    (truthy : Rate → bool) (dimensions : list Z) (activation : Activation)
    (use_bias : bool) (dropout : option Rate)
    (normalization : option (string + Norm)) :
  let layers :=
    MLPBlock_layers truthy dimensions activation use_bias dropout
      normalization in
  length layers
    = length dimensions
      * (1 + (if dropout_on truthy dropout then 1 else 0)
           + (if normalization_on normalization then 1 else 0))
  ∧ filter (λ layer, is_Dense layer = true) layers
    = (λ dim, Dense dim activation use_bias) <$> dimensions.
Proof.
  intros layers. unfold layers. rewrite MLPBlock_layers_groups.
  induction dimensions as [|dim dims [IHlen IHdense]]; [done|].
  rewrite bind_cons, length_app, filter_app, IHlen, IHdense.
  split.
  - cbn [length]. rewrite Nat.mul_succ_l, (Nat.add_comm _ (_ * _)). f_equal.
    unfold MLPBlock_step, dropout_on.
    destruct dropout as [rate|]; [destruct (truthy rate)|];
      (destruct normalization as [[name|obj]|];
         [destruct (normalization_on _); [destruct (decide _)|]
         |cbn [normalization_on]|]);
      reflexivity.
  - rewrite fmap_cons. f_equal.
    unfold MLPBlock_step.
    destruct dropout as [rate|]; [destruct (truthy rate)|];
      (destruct normalization as [[name|obj]|];
         [destruct (normalization_on _); [destruct (decide _)|]
         |cbn [normalization_on]|]);
      reflexivity.
Qed.

(** X15.  The normalization of an [MLPBlock]: the name ["batch_norm"]
    gives one [BatchNormalization] per dimension; any other non-empty
    name, and any object, is itself appended once per dimension, the
    same string or the same object at every position of the list. *)
Theorem MLPBlock_layers_normalization {Activation Rate Norm : Type}
    (truthy : Rate → bool) (dimensions : list Z) (activation : Activation)
    (use_bias : bool) (dropout : option Rate) (norm : string + Norm) :
  let norms :=
    filter (λ layer, is_normalization layer = true)
      (MLPBlock_layers truthy dimensions activation use_bias dropout
         (Some norm)) in
  (norm = inl "batch_norm" →
     norms = replicate (length dimensions) BatchNormalization)
  ∧ (norm ≠ inl "batch_norm" → norm ≠ inl "" →
     norms = replicate (length dimensions) (Given norm)).
Proof.
  intros norms. unfold norms. rewrite MLPBlock_layers_groups.
  split.
  - intros ->. induction dimensions as [|dim dims IH]; [done|].
    rewrite bind_cons, filter_app, IH. cbn [length replicate].
    unfold MLPBlock_step. simpl.
    destruct dropout as [rate|]; [destruct (truthy rate)|]; reflexivity.
  - intros Hbn Hempty. induction dimensions as [|dim dims IH]; [done|].
    rewrite bind_cons, filter_app, IH. cbn [length replicate].
    unfold MLPBlock_step.
    destruct norm as [name|obj].
    + cbn [normalization_on]. rewrite bool_decide_true by congruence.
      rewrite decide_False by congruence.
      destruct dropout as [rate|]; [destruct (truthy rate)|]; reflexivity.
    + cbn [normalization_on].
      destruct dropout as [rate|]; [destruct (truthy rate)|]; reflexivity.
Qed.

Lemma MLPBlock_layers_normalization_witness :
  let truthy (rate : Z) := bool_decide (rate ≠ 0%Z) in
  let layers (norm : string + ()) :=
    MLPBlock_layers (Activation := string) truthy [512; 256]%Z "relu" true
      (Some 0%Z) (Some norm) in
  (inl "layer_norm" ≠ @inl string () "batch_norm"
   ∧ inl "layer_norm" ≠ @inl string () "")
  ∧ layers (inl "batch_norm")
    = [Dense 512 "relu" true; BatchNormalization;
       Dense 256 "relu" true; BatchNormalization]
  ∧ filter (λ layer, is_normalization layer = true) (layers (inl "layer_norm"))
    = [Given (inl "layer_norm"); Given (inl "layer_norm")].
Proof.
  intros truthy layers.
  assert (inl "layer_norm" ≠ @inl string () "batch_norm") as H1 by discriminate.
  assert (inl "layer_norm" ≠ @inl string () "") as H2 by discriminate.
  split; [by split|]. split; [reflexivity|].
  exact (proj2 (MLPBlock_layers_normalization truthy [512; 256]%Z "relu" true
                  (Some 0%Z) (inl "layer_norm")) H1 H2).
Defined.

(** * AsDenseFeatures *)

Lemma densified_not_tuple (val val' : value) :
  densified val = Return val' → is_VTuple val' = false.
Proof.
  destruct val as [t|ts|r]; simpl; [by intros [= <-]| |by intros [= <-]].
  destruct (ragged_pair_to_tensor ts); simpl; [done|]. by intros [= <-].
Qed.

Lemma densified_id (val : value) :
  is_VTuple val = false → densified val = Return val.
Proof. by destruct val. Qed.

(** One round of the loop of [AsDenseFeatures.call]. *)
Lemma AsDenseFeatures_step_run (σ : store) (acc : pydict value)
    (k : string) (val val' : value) :
  densified val = Return val' →
  AsDenseFeatures_step (length σ) k val (σ ++ [acc])
    = Return ((), σ ++ [dict_set k val' acc]).
Proof.
  assert (∀ v, setitem (length σ) k v (σ ++ [acc])
               = Return ((), σ ++ [dict_set k v acc])) as Hset.
  { intros v. unfold setitem.
    erewrite bind_Return; last first.
    { apply load_Return. rewrite lookup_app_r by done.
      by rewrite Nat.sub_diag. }
    unfold save. rewrite insert_app_r_alt by done.
    by rewrite Nat.sub_diag. }
  unfold AsDenseFeatures_step.
  destruct val as [t|ts|r]; simpl; [intros [= <-]; apply Hset| |
                                    intros [= <-]; apply Hset].
  destruct (ragged_pair_to_tensor ts) as [e|t] eqn:Ht; simpl; [done|].
  intros [= <-].
  erewrite bind_Return; [|by apply lift_Return]. apply Hset.
Qed.

Lemma AsDenseFeatures_step_raise (σ : store) (acc : pydict value)
    (k : string) (val : value) (e : exn) :
  densified val = Raise e →
  AsDenseFeatures_step (length σ) k val (σ ++ [acc]) = Raise e.
Proof.
  unfold AsDenseFeatures_step. destruct val as [t|ts|r]; simpl; try done.
  destruct (ragged_pair_to_tensor ts) as [e'|t] eqn:Ht; simpl; [|done].
  intros [= <-]. apply bind_Raise. by apply lift_Raise.
Qed.

Lemma AsDenseFeatures_loop (σ : store) (items items' acc : pydict value) :
  Forall2 (λ kv kv', kv'.1 = kv.1 ∧ densified kv.2 = Return kv'.2)
    items items' →
  NoDup (acc ++ items).*1 →
  for_each items (λ item, AsDenseFeatures_step (length σ) item.1 item.2)
    (σ ++ [acc])
  = Return ((), σ ++ [acc ++ items']).
Proof.
  intros Hall. revert acc.
  induction Hall as [|[k v] [k' v'] items items' [Hk Hv] _ IH]; intros acc Hnd.
  - by rewrite app_nil_r.
  - simpl in Hk, Hv. subst k'. cbn [for_each].
    erewrite bind_Return; [|by apply (AsDenseFeatures_step_run σ acc k v v')].
    rewrite dict_set_fresh; last first.
    { rewrite fmap_app in Hnd. apply NoDup_app in Hnd as (_ & Hd & _).
      intros Hin. apply (Hd k Hin). left. }
    rewrite IH; [by rewrite <- app_assoc|].
    rewrite <- app_assoc, !fmap_app. rewrite fmap_app, fmap_cons in Hnd.
    exact Hnd.
Qed.

Lemma AsDenseFeatures_call_run (r : loc) (B B' : pydict value) (σ : store) :
  σ !! r = Some B → NoDup B.*1 →
  Forall2 (λ kv kv', kv'.1 = kv.1 ∧ densified kv.2 = Return kv'.2) B B' →
  AsDenseFeatures_call (VDict r) σ = Return (VDict (length σ), σ ++ [B']).
Proof.
  intros Hr Hnd Hall. unfold AsDenseFeatures_call.
  erewrite bind_Return; [|reflexivity].
  erewrite bind_Return; [|by apply load_Return, lookup_app_l_Some].
  erewrite bind_Return; [|by apply (AsDenseFeatures_loop σ B B' [])].
  reflexivity.
Qed.

Lemma Forall2_densified_keys (B B' : pydict value) :
  Forall2 (λ kv kv', kv'.1 = kv.1 ∧ densified kv.2 = Return kv'.2) B B' →
  B'.*1 = B.*1 ∧ Forall (λ kv, is_VTuple kv.2 = false) B'.
Proof.
  induction 1 as [|kv kv' B B' [Hk Hv] _ [IHk IHt]]; [done|].
  rewrite !fmap_cons, Hk, IHk. split; [done|].
  constructor; [|done]. by eapply densified_not_tuple.
Qed.

(** X16.  When every [(values, row_lengths)] pair of the bundle can be
    made dense, [AsDenseFeatures] returns a new dict with the keys of
    the input in the same order, each pair replaced by its dense
    tensor and every other value as it was; no value of the result is
    a tuple, and the input and the rest of the store are unchanged. *)
Theorem AsDenseFeatures_call_spec (r : loc) (B B' : pydict value) (σ : store) :
  σ !! r = Some B → NoDup B.*1 →
  Forall2 (λ kv kv', kv'.1 = kv.1 ∧ densified kv.2 = Return kv'.2) B B' →
  AsDenseFeatures_call (VDict r) σ = Return (VDict (length σ), σ ++ [B'])
  ∧ B'.*1 = B.*1
  ∧ Forall (λ kv, is_VTuple kv.2 = false) B'
  ∧ Forall2 (λ kv kv', is_VTuple kv.2 = false → kv' = kv) B B'.
Proof.
  intros Hr Hnd Hall.
  split; [by apply (AsDenseFeatures_call_run r B B')|].
  destruct (Forall2_densified_keys B B' Hall) as [Hk Ht].
  split; [done|]. split; [done|].
  eapply Forall2_impl; [exact Hall|].
  intros [k v] [k' v'] [Hkk Hv] Hnot. simpl in *. subst k'.
  rewrite densified_id in Hv by done. by injection Hv as <-.
Qed.

Lemma AsDenseFeatures_call_spec_witness :
  let values := mkTensor [5; 1] [1; 2; 3; 4; 5]%Z in
  let row_lengths := mkTensor [3; 1] [2; 0; 3]%Z in
  let price := mkTensor [3; 1] [7; 8; 9]%Z in
  let dense := mkTensor [3; 3] [1; 2; 0; 0; 0; 0; 3; 4; 5]%Z in
  let B : pydict value :=
    [("genres", VTuple [values; row_lengths]); ("price", VTensor price)] in
  let B' : pydict value :=
    [("genres", VTensor dense); ("price", VTensor price)] in
  let σ : store := [B] in
  (σ !! 0 = Some B ∧ NoDup B.*1
   ∧ Forall2 (λ kv kv', kv'.1 = kv.1 ∧ densified kv.2 = Return kv'.2) B B')
  ∧ AsDenseFeatures_call (VDict 0) σ = Return (VDict 1, σ ++ [B']).
Proof.
  intros values row_lengths price dense B B' σ.
  assert (NoDup B.*1) as Hnd by (by apply (bool_decide_unpack _)).
  assert (Forall2 (λ kv kv', kv'.1 = kv.1 ∧ densified kv.2 = Return kv'.2)
            B B') as Hall by (repeat constructor).
  split; [by repeat split|].
  exact (proj1 (AsDenseFeatures_call_spec 0 B B' σ eq_refl Hnd Hall)).
Defined.

(** X17.  [AsDenseFeatures] is idempotent: called on a dict it has
    returned, it returns a new dict with the same entries, whatever
    the bundle it was first called on; a bundle without ragged pairs
    is copied as it is. *)
Theorem AsDenseFeatures_call_idempotent (r : loc) (B B' : pydict value)
    (σ : store) :
  σ !! r = Some B → NoDup B.*1 →
  AsDenseFeatures_call (VDict r) σ = Return (VDict (length σ), σ ++ [B']) →
  (AsDenseFeatures_call (VDict r) ≫= AsDenseFeatures_call) σ
    = Return (VDict (S (length σ)), σ ++ [B'; B'])
  ∧ (Forall (λ kv, is_VTuple kv.2 = false) B → B' = B).
Proof.
  intros Hr Hnd Hcall.
  assert (∀ d : pydict value, Forall (λ kv, is_VTuple kv.2 = false) d →
            Forall2 (λ kv kv', kv'.1 = kv.1 ∧ densified kv.2 = Return kv'.2)
              d d) as Hcopy.
  { intros d Hd. apply Forall_Forall2_diag.
    eapply Forall_impl; [exact Hd|]. intros kv Hkv.
    split; [done|]. by apply densified_id. }
  assert (∃ B'', Forall2 (λ kv kv',
                    kv'.1 = kv.1 ∧ densified kv.2 = Return kv'.2) B B'')
    as [B'' Hall].
  { clear Hnd. revert B' Hcall. unfold AsDenseFeatures_call.
    erewrite bind_Return; [|reflexivity].
    erewrite bind_Return; [|by apply load_Return, lookup_app_l_Some].
    clear Hr. generalize (@nil (string * value)) as acc.
    induction B as [|[k v] B IH]; intros acc B' Hcall; [by exists []|].
    cbn [for_each] in Hcall.
    destruct (densified v) as [e|v'] eqn:Hv.
    - exfalso. revert Hcall.
      erewrite bind_Raise; [done|].
      apply bind_Raise. by apply AsDenseFeatures_step_raise.
    - revert Hcall. rewrite bind_assoc_at.
      erewrite bind_Return;
        [|by apply (AsDenseFeatures_step_run σ acc k v v')].
      intros Hcall. destruct (IH _ _ Hcall) as [B'' HB''].
      exists ((k, v') :: B''). by constructor. }
  pose proof (AsDenseFeatures_call_run r B B'' σ Hr Hnd Hall) as Hrun.
  rewrite Hrun in Hcall. injection Hcall as Heq%app_inv_head.
  injection Heq as <-.
  destruct (Forall2_densified_keys B B'' Hall) as [Hk Ht].
  split.
  - erewrite bind_Return; [|exact Hrun].
    rewrite (AsDenseFeatures_call_run (length σ) B'' B'');
      [|by rewrite lookup_app_r, Nat.sub_diag|by rewrite Hk|by apply Hcopy].
    rewrite length_app, Nat.add_comm. simpl. by rewrite <- app_assoc.
  - intros Hdense. pose proof (Hcopy B Hdense) as Hself.
    pose proof (AsDenseFeatures_call_run r B B σ Hr Hnd Hself) as Hrun'.
    rewrite Hrun in Hrun'. injection Hrun' as Heq%app_inv_head.
    by injection Heq.
Qed.

Lemma AsDenseFeatures_call_idempotent_witness :
  let values := mkTensor [5; 1] [1; 2; 3; 4; 5]%Z in
  let row_lengths := mkTensor [3; 1] [2; 0; 3]%Z in
  let dense := mkTensor [3; 3] [1; 2; 0; 0; 0; 0; 3; 4; 5]%Z in
  let B : pydict value := [("genres", VTuple [values; row_lengths])] in
  let B' : pydict value := [("genres", VTensor dense)] in
  let σ : store := [B] in
  (σ !! 0 = Some B ∧ NoDup B.*1
   ∧ AsDenseFeatures_call (VDict 0) σ = Return (VDict 1, σ ++ [B']))
  ∧ (AsDenseFeatures_call (VDict 0) ≫= AsDenseFeatures_call) σ
    = Return (VDict 2, σ ++ [B'; B']).
Proof.
  intros values row_lengths dense B B' σ.
  assert (NoDup B.*1) as Hnd by (by apply (bool_decide_unpack _)).
  split; [by repeat split|].
  exact (proj1 (AsDenseFeatures_call_idempotent 0 B B' σ eq_refl Hnd eq_refl)).
Defined.

Lemma single_columns (l : list Z) :
  (i ← seq 0 (length l); take 1 (drop (i * 1 * 1) l)) = l.
Proof.
  assert (∀ n k, (i ← seq k n; take 1 (drop (i * 1 * 1) l))
                 = take n (drop k l)) as Hseq.
  { induction n as [|n IH]; intros k; [done|].
    cbn [seq]. rewrite bind_cons, IH.
    rewrite !Nat.mul_1_r.
    destruct (drop k l) as [|x l'] eqn:Hdrop.
    - rewrite (drop_ge l (S k)); [by rewrite !take_nil|].
      apply drop_nil_inv in Hdrop. lia.
    - simpl. f_equal. replace (S k) with (k + 1) by lia.
      by rewrite <- drop_drop, Hdrop. }
  rewrite Hseq. simpl. apply firstn_all.
Qed.

Lemma column0_single (t : Tensor) (n : nat) :
  shape t = [n; 1] → well_formed t →
  column0 t = Return (mkTensor [n] (data t)).
Proof.
  unfold well_formed, column0. intros -> Hwf. simpl in *.
  do 2 f_equal. replace n with (length (data t)) by lia.
  apply single_columns.
Qed.

Lemma padded_rows_length (width : nat) (lens : list nat) (elts : list Z) :
  Forall (λ len, len ≤ width) lens → sum_list lens ≤ length elts →
  length (concat (padded_rows 1 width lens elts)) = length lens * width.
Proof.
  intros Hall. revert elts.
  induction Hall as [|len lens Hlen _ IH]; intros elts Hsum; [done|].
  simpl in *. rewrite length_app, IH by (rewrite length_drop; lia).
  rewrite length_app, length_take, length_replicate. lia.
Qed.

Lemma max_list_bound (lens : list nat) :
  Forall (λ len, len ≤ max_list lens) lens.
Proof. apply Forall_forall. intros len Hin. by apply max_list_elem_of_le. Qed.

(** X18.  The dense tensor of a ragged column: for [values] of shape
    [(n, 1)] and [row_lengths] of shape [(b, 1)] holding lengths that
    are not negative and add up to [n], the tensor [AsDenseFeatures]
    puts in place of the pair has one row per length and is as wide as
    the longest row, and it holds that many elements. *)
Theorem ragged_pair_to_tensor_shape (values row_lengths : Tensor) (n b : nat) :
  shape values = [n; 1] → shape row_lengths = [b; 1] →
  well_formed values → well_formed row_lengths →
  Forall (λ len, (0 ≤ len)%Z) (data row_lengths) →
  sum_list (Z.to_nat <$> data row_lengths) = n →
  ∃ t : Tensor,
    densified (VTuple [values; row_lengths]) = Return (VTensor t)
    ∧ shape t = [b; max_list (Z.to_nat <$> data row_lengths)]
    ∧ well_formed t.
Proof.
  intros Hv Hr Hwv Hwr Hpos Hsum.
  eexists. split; [|split].
  - unfold densified, ragged_pair_to_tensor. cbn [py_index].
    simpl. rewrite (column0_single values n), (column0_single row_lengths b)
      by done.
    simpl. unfold RaggedTensor_to_tensor. simpl.
    rewrite forallb_all; last first.
    { eapply Forall_impl; [exact Hpos|]. intros len Hlen. simpl.
      by rewrite bool_decide_true. }
    rewrite bool_decide_true by done. reflexivity.
  - reflexivity.
  - unfold well_formed in *. simpl.
    rewrite padded_rows_length.
    + rewrite length_fmap, Hwr, Hr. simpl. lia.
    + apply max_list_bound.
    + rewrite Hsum, Hwv, Hv. simpl. lia.
Qed.

Lemma ragged_pair_to_tensor_shape_witness :
  let values := mkTensor [5; 1] [1; 2; 3; 4; 5]%Z in
  let row_lengths := mkTensor [3; 1] [2; 0; 3]%Z in
  (shape values = [5; 1] ∧ shape row_lengths = [3; 1]
   ∧ well_formed values ∧ well_formed row_lengths
   ∧ Forall (λ len, (0 ≤ len)%Z) (data row_lengths)
   ∧ sum_list (Z.to_nat <$> data row_lengths) = 5)
  ∧ ∃ t : Tensor,
      densified (VTuple [values; row_lengths]) = Return (VTensor t)
      ∧ shape t = [3; 3] ∧ well_formed t.
Proof.
  intros values row_lengths.
  assert (Forall (λ len, (0 ≤ len)%Z) (data row_lengths)) as Hpos
    by (repeat constructor; lia).
  split; [by repeat split|].
  exact (ragged_pair_to_tensor_shape values row_lengths 5 3 eq_refl eq_refl
           eq_refl eq_refl Hpos eq_refl).
Defined.
(** ** ParseTokenizedText *)

Lemma str_app_cons (c : ascii) (p s : string) :
  String c p +:+ s = String c (p +:+ s).
Proof. reflexivity. Qed.

Lemma str_length_app (p s : string) :
  String.length (p +:+ s) = String.length p + String.length s.
Proof.
  induction p as [|c p IH]; [done|].
  rewrite str_app_cons. simpl. by rewrite IH.
Qed.

Lemma str_drop_app (p s : string) : str_drop (String.length p) (p +:+ s) = s.
Proof. induction p as [|c p IH]; [by destruct s|]. by rewrite str_app_cons. Qed.

Lemma str_drop_split (n : nat) (s : string) : ∃ p, s = p +:+ str_drop n s.
Proof.
  revert s. induction n as [|n IH]; intros s; [by exists ""|].
  destruct s as [|c s]; [by exists ""|].
  destruct (IH s) as [p Hp]. exists (String c p).
  rewrite str_app_cons. simpl. by rewrite <- Hp.
Qed.

Lemma endswith1_app (p suffix : string) : endswith1 (p +:+ suffix) suffix = true.
Proof.
  unfold endswith1. rewrite str_length_app.
  rewrite bool_decide_true by lia.
  replace (String.length p + String.length suffix - String.length suffix)
    with (String.length p) by lia.
  rewrite str_drop_app. by rewrite bool_decide_true.
Qed.

Lemma endswith1_inv (s suffix : string) :
  endswith1 s suffix = true → ∃ p, s = p +:+ suffix.
Proof.
  unfold endswith1. intros [_ Heq%bool_decide_eq_true]%andb_true_iff.
  destruct (str_drop_split (String.length s - String.length suffix) s)
    as [p Hp].
  exists p. by rewrite Heq in Hp.
Qed.

Lemma split_nonempty (sep : ascii) (s : string) : split sep s ≠ [].
Proof.
  destruct s as [|c s]; simpl; [done|].
  case_decide; [done|]. by destruct (split sep s).
Qed.

Lemma split_app_sep (sep : ascii) (p w : string) :
  split sep w = [w] → split sep (p +:+ String sep w) = split sep p ++ [w].
Proof.
  intros Hw. induction p as [|c p IH].
  - change ("" +:+ String sep w) with (String sep w). simpl.
    by rewrite decide_True, Hw.
  - rewrite str_app_cons. simpl. rewrite IH.
    case_decide; [done|].
    pose proof (split_nonempty sep p).
    by destruct (split sep p).
Qed.

Lemma join_split (sep : ascii) (s : string) :
  join (String sep "") (split sep s) = s.
Proof.
  induction s as [|c s IH]; [done|].
  pose proof (split_nonempty sep s) as Hne.
  cbn [split]. case_decide as Hc.
  - subst c. destruct (split sep s) as [|w ws]; [done|].
    change (join (String sep "") ("" :: w :: ws))
      with ("" +:+ String sep "" +:+ join (String sep "") (w :: ws)).
    by rewrite IH.
  - destruct (split sep s) as [|w ws]; [done|].
    rewrite <- IH. by destruct ws.
Qed.

Lemma but_last_snoc {A} (l : list A) (x : A) : but_last (l ++ [x]) = l.
Proof.
  unfold but_last. rewrite length_app. simpl.
  replace (length l + 1 - 1) with (length l) by lia.
  by rewrite take_app_length.
Qed.

Lemma text_column_name_app (p w : string) :
  split "/" w = [w] → text_column_name (p +:+ String "/" w) = p.
Proof.
  intros Hw. unfold text_column_name.
  rewrite split_app_sep by done.
  rewrite but_last_snoc. apply join_split.
Qed.

Lemma text_name_iff (name c : string) :
  endswith name text_suffixes = true ∧ text_column_name name = c
  ↔ name = c +:+ "/tokens" ∨ name = c +:+ "/attention_mask".
Proof.
  split.
  - intros [Hends <-]. unfold endswith, text_suffixes in Hends. simpl in Hends.
    rewrite orb_false_r in Hends.
    apply orb_true_iff in Hends as [[p ->]%endswith1_inv|[p ->]%endswith1_inv].
    + left. by rewrite (text_column_name_app p "tokens").
    + right. by rewrite (text_column_name_app p "attention_mask").
  - intros [->| ->].
    + split; [|by apply (text_column_name_app c "tokens")].
      unfold endswith, text_suffixes. simpl. by rewrite endswith1_app.
    + split; [|by apply (text_column_name_app c "attention_mask")].
      unfold endswith, text_suffixes. simpl.
      by rewrite (endswith1_app c "/attention_mask"), orb_true_r.
Qed.

(** X19.  The name of a text feature is the name of its column followed
    by [/tokens] or [/attention_mask]: for a name that passes the
    [endswith] test of [ParseTokenizedText], dropping what follows the
    last [/] gives a column name from which one of the two suffixes
    gives the name back, also when the column name has a [/] of its
    own. *)
Theorem text_column_name_round_trip (name : string) :
  endswith name text_suffixes = true →
  name = text_column_name name +:+ "/tokens"
  ∨ name = text_column_name name +:+ "/attention_mask".
Proof. intros Hends. by apply text_name_iff. Qed.

Lemma text_column_name_round_trip_witness :
  endswith "item/title/tokens" text_suffixes = true
  ∧ ("item/title/tokens" = text_column_name "item/title/tokens" +:+ "/tokens"
     ∨ "item/title/tokens"
       = text_column_name "item/title/tokens" +:+ "/attention_mask").
Proof.
  split; [reflexivity|].
  apply (text_column_name_round_trip "item/title/tokens"). reflexivity.
Defined.

Lemma text_column_names_of_shapes_filter (input_shapes : pydict sval) :
  text_column_names_of_shapes input_shapes
  = (λ item, text_column_name item.1)
      <$> filter (λ item, is_tuple item.2 && endswith item.1 text_suffixes = true)
            input_shapes.
Proof.
  unfold text_column_names_of_shapes.
  assert (∀ acc : list string,
    foldl (λ text_column_names (item : string * sval),
             if is_tuple item.2 && endswith item.1 text_suffixes
             then text_column_names ++ [text_column_name item.1]
             else text_column_names)
          acc input_shapes
    = acc ++ ((λ item, text_column_name item.1)
                <$> filter (λ item, is_tuple item.2
                                    && endswith item.1 text_suffixes = true)
                      input_shapes)) as Hloop; [|apply (Hloop [])].
  induction input_shapes as [|item items IH]; intros acc.
  - by rewrite app_nil_r.
  - cbn [foldl]. rewrite IH, filter_cons.
    destruct (is_tuple item.2 && endswith item.1 text_suffixes) eqn:Htext.
    + rewrite decide_True by done. by rewrite fmap_cons, <- app_assoc.
    + by rewrite decide_False.
Qed.

Lemma text_column_names_of_shapes_elem (input_shapes : pydict sval) (c : string) :
  c ∈ text_column_names_of_shapes input_shapes
  ↔ ∃ name s, (name, s) ∈ input_shapes ∧ is_tuple s = true
      ∧ (name = c +:+ "/tokens" ∨ name = c +:+ "/attention_mask").
Proof.
  rewrite text_column_names_of_shapes_filter, list_elem_of_fmap. split.
  - intros ([name s] & -> & [Htext Hin]%list_elem_of_filter). simpl in *.
    apply andb_true_iff in Htext as [Htuple Hends].
    exists name, s. split_and!; [done..|]. by apply text_name_iff.
  - intros (name & s & Hin & Htuple & Hname).
    apply text_name_iff in Hname as [Hends Hc].
    exists (name, s). split; [done|].
    apply list_elem_of_filter. split; [|done].
    apply andb_true_iff. by split.
Qed.

Lemma keys_of_constant {A B} (l : list A) (b : B) :
  ((λ c, (c, b)) <$> l).*1 = l.
Proof. induction l as [|a l IH]; [done|]. rewrite !fmap_cons. by f_equal. Qed.

Lemma outcome_bind_Return {A B} (a : A) (k : A → outcome B) :
  (Return a ≫= k) = k a.
Proof. reflexivity. Qed.

Lemma ParseTokenizedText_shape_step_run (d : dim) (max_text_length : Z)
    (output_shapes : pydict (pydict sval)) (text_col : string) :
  (0 ≤ max_text_length)%Z →
  ParseTokenizedText_shape_step (SDim d) max_text_length output_shapes text_col
  = Return (dict_set text_col
      [("input_ids", TensorShape [d; Some (Z.to_nat max_text_length)]);
       ("attention_mask", TensorShape [d; Some (Z.to_nat max_text_length)])]
      output_shapes).
Proof.
  intros Hlen. unfold ParseTokenizedText_shape_step, text_shape.
  by rewrite decide_True.
Qed.

Lemma ParseTokenizedText_shape_loop (d : dim) (max_text_length : Z)
    (cols : list string) (acc : pydict (pydict sval)) :
  (0 ≤ max_text_length)%Z → NoDup (acc.*1 ++ cols) →
  let entry :=
    [("input_ids", TensorShape [d; Some (Z.to_nat max_text_length)]);
     ("attention_mask", TensorShape [d; Some (Z.to_nat max_text_length)])] in
  fold_outcome (ParseTokenizedText_shape_step (SDim d) max_text_length) cols acc
  = Return (acc ++ ((λ c, (c, entry)) <$> cols)).
Proof.
  intros Hlen Hnd entry. revert acc Hnd.
  induction cols as [|c cols IH]; intros acc Hnd.
  - by rewrite app_nil_r.
  - cbn [fold_outcome]. rewrite ParseTokenizedText_shape_step_run by done.
    rewrite outcome_bind_Return. fold entry.
    rewrite dict_set_fresh; last first.
    { apply NoDup_app in Hnd as (_ & Hdisj & _).
      intros Hin. apply (Hdisj c Hin). left. }
    rewrite IH.
    + by rewrite fmap_cons, <- app_assoc.
    + rewrite fmap_app. simpl. by rewrite <- app_assoc.
Qed.

(** X20.  The shape function of [ParseTokenizedText] never returns on a
    bundle that holds [(values, row_lengths)] pairs only, as a bundle
    of tokenized text does: it raises [AssertionError] without a
    maximal text length and [IndexError] with one, for want of a dense
    feature to read the batch size from. *)
Theorem ParseTokenizedText_shape_needs_dense_feature
    (set_order : list string → list string) (input_shapes : pydict sval) :
  Forall (λ s, is_tuple s = true) input_shapes.*2 →
  ParseTokenizedText_compute_output_shape set_order None input_shapes
    = Raise (AssertionError "")
  ∧ ∀ max_text_length : Z,
      ParseTokenizedText_compute_output_shape set_order (Some max_text_length)
        input_shapes
      = Raise IndexError.
Proof.
  intros Htuples. split; [done|]. intros max_text_length.
  unfold ParseTokenizedText_compute_output_shape,
    calculate_batch_size_from_input_shapes.
  by rewrite filter_leaves_tuples.
Qed.

Lemma ParseTokenizedText_shape_needs_dense_feature_witness :
  let pair := STuple [TensorShape [None; Some 1]; TensorShape [None; Some 1]] in
  let input_shapes : pydict sval :=
    [("title/tokens", pair); ("title/attention_mask", pair)] in
  Forall (λ s, is_tuple s = true) input_shapes.*2
  ∧ ParseTokenizedText_compute_output_shape remove_dups (Some 16%Z) input_shapes
    = Raise IndexError.
Proof.
  intros pair input_shapes.
  assert (Forall (λ s, is_tuple s = true) input_shapes.*2) as Htuples
    by (by repeat constructor).
  split; [exact Htuples|].
  exact (proj2 (ParseTokenizedText_shape_needs_dense_feature remove_dups
                  input_shapes Htuples) 16%Z).
Defined.

(** X21.  With a maximal text length that is not negative and a bundle
    whose first dense feature has the leading dimension [d], the shape
    function of [ParseTokenizedText] returns one entry per text column
    and no other: a column has an entry as soon as one pair of the
    bundle is named after it with the suffix [/tokens] or
    [/attention_mask], the other one need not be there; every entry is
    the dict of the two shapes [(d, max_text_length)]. *)
Theorem ParseTokenizedText_compute_output_shape_spec
    (set_order : list string → list string) (max_text_length : Z)
    (input_shapes : pydict sval) (d : dim) :
  (∀ names, NoDup (set_order names)) →
  (∀ names c, c ∈ set_order names ↔ c ∈ names) →
  (0 ≤ max_text_length)%Z →
  calculate_batch_size_from_input_shapes input_shapes = Return (SDim d) →
  ∃ output_shapes : pydict (pydict sval),
    ParseTokenizedText_compute_output_shape set_order (Some max_text_length)
      input_shapes
    = Return output_shapes
    ∧ NoDup output_shapes.*1
    ∧ (∀ c, c ∈ output_shapes.*1
          ↔ ∃ name s, (name, s) ∈ input_shapes ∧ is_tuple s = true
              ∧ (name = c +:+ "/tokens" ∨ name = c +:+ "/attention_mask"))
    ∧ Forall (λ entry, entry.2 =
        [("input_ids", TensorShape [d; Some (Z.to_nat max_text_length)]);
         ("attention_mask", TensorShape [d; Some (Z.to_nat max_text_length)])])
        output_shapes.
Proof.
  intros Hnd Helem Hlen Hbatch.
  unfold ParseTokenizedText_compute_output_shape. rewrite Hbatch.
  cbn [mbind outcome_bind].
  rewrite ParseTokenizedText_shape_loop by (by simpl).
  eexists. split; [reflexivity|]. simpl.
  rewrite keys_of_constant. split_and!.
  - apply Hnd.
  - intros c. rewrite Helem. apply text_column_names_of_shapes_elem.
  - apply Forall_fmap. by apply Forall_true.
Qed.

Lemma ParseTokenizedText_compute_output_shape_spec_witness :
  let pair := STuple [TensorShape [None; Some 1]; TensorShape [None; Some 1]] in
  let input_shapes : pydict sval :=
    [("title/tokens", pair); ("price", TensorShape [Some 4; Some 1])] in
  ((∀ names : list string, NoDup (remove_dups names))
   ∧ (∀ (names : list string) c, c ∈ remove_dups names ↔ c ∈ names)
   ∧ (0 ≤ 16)%Z
   ∧ calculate_batch_size_from_input_shapes input_shapes
     = Return (SDim (Some 4)))
  ∧ ∃ output_shapes : pydict (pydict sval),
      ParseTokenizedText_compute_output_shape remove_dups (Some 16%Z)
        input_shapes
      = Return output_shapes
      ∧ NoDup output_shapes.*1
      ∧ (∀ c, c ∈ output_shapes.*1
            ↔ ∃ name s, (name, s) ∈ input_shapes ∧ is_tuple s = true
                ∧ (name = c +:+ "/tokens" ∨ name = c +:+ "/attention_mask"))
      ∧ Forall (λ entry, entry.2 =
          [("input_ids", TensorShape [Some 4; Some 16]);
           ("attention_mask", TensorShape [Some 4; Some 16])])
          output_shapes.
Proof.
  intros pair input_shapes.
  assert (∀ names : list string, NoDup (remove_dups names)) as Hnd
    by apply NoDup_remove_dups.
  assert (∀ (names : list string) c, c ∈ remove_dups names ↔ c ∈ names)
    as Helem by (intros names c; apply elem_of_remove_dups).
  assert (0 ≤ 16)%Z as Hlen by lia.
  split; [by split_and!|].
  exact (ParseTokenizedText_compute_output_shape_spec remove_dups 16
           input_shapes (Some 4) Hnd Helem Hlen eq_refl).
Defined.

Lemma ParseTokenizedText_scan_loop (items : pydict value) (T : pydict Tensor)
    (acc : pydict Tensor * list string) :
  Forall2 (λ kv kt, kt.1 = kv.1 ∧ densified kv.2 = Return (VTensor kt.2))
    (filter (λ kv, is_text_feature kv = true) items) T →
  fold_outcome ParseTokenizedText_scan items acc
  = Return (dict_update acc.1 T, acc.2 ++ (text_column_name <$> T.*1)).
Proof.
  revert T acc. induction items as [|[name val] items IH]; intros T acc Hall.
  - apply Forall2_nil_inv_l in Hall as ->. destruct acc as [tt names].
    simpl. by rewrite app_nil_r.
  - cbn [fold_outcome].
    assert (∀ b, is_text_feature (name, val) = b →
              is_text_feature (name, val) = true ↔ b = true) as Hdec
      by (by intros b ->).
    destruct val as [t|ts|r'].
    + rewrite filter_cons_False in Hall by (by rewrite (Hdec false)).
      assert (ParseTokenizedText_scan acc (name, VTensor t) = Return acc)
        as -> by done.
      rewrite outcome_bind_Return. by apply IH.
    + assert (ParseTokenizedText_scan acc (name, VTuple ts)
              = if endswith name text_suffixes
                then t ← ragged_pair_to_tensor ts;
                     Return (dict_set name t acc.1,
                             acc.2 ++ [text_column_name name])
                else Return acc) as -> by done.
      assert (is_text_feature (name, VTuple ts) = endswith name text_suffixes)
        as Htext by done.
      destruct (endswith name text_suffixes) eqn:Hends.
      * rewrite filter_cons_True in Hall by done.
        apply Forall2_cons_inv_l in Hall
          as ([name' t] & T' & [Hname Hdense] & Hall & ->).
        simpl in Hname, Hdense. subst name'.
        destruct (ragged_pair_to_tensor ts) as [e|t'] eqn:Hragged; [done|].
        injection Hdense as ->.
        rewrite !outcome_bind_Return, (IH T') by done.
        cbn [fst snd]. rewrite !fmap_cons, <- app_assoc. reflexivity.
      * rewrite filter_cons_False in Hall by (by rewrite Htext).
        rewrite outcome_bind_Return. by apply IH.
    + rewrite filter_cons_False in Hall by (by rewrite (Hdec false)).
      assert (ParseTokenizedText_scan acc (name, VDict r') = Return acc)
        as -> by done.
      rewrite outcome_bind_Return. by apply IH.
Qed.

Lemma text_features_keys (items : pydict value) (T : pydict Tensor) :
  Forall2 (λ kv kt, kt.1 = kv.1 ∧ densified kv.2 = Return (VTensor kt.2))
    (filter (λ kv, is_text_feature kv = true) items) T →
  T.*1 = (filter (λ kv, is_text_feature kv = true) items).*1.
Proof.
  induction 1 as [|kv kt l T' [Hk _] _ IH]; [done|].
  rewrite !fmap_cons. by f_equal.
Qed.

Lemma text_features_endswith (items : pydict value) (T : pydict Tensor)
    (name : string) :
  Forall2 (λ kv kt, kt.1 = kv.1 ∧ densified kv.2 = Return (VTensor kt.2))
    (filter (λ kv, is_text_feature kv = true) items) T →
  name ∈ T.*1 → endswith name text_suffixes = true.
Proof.
  intros Hall. rewrite (text_features_keys items T Hall).
  intros (kv & -> & [Htext _]%list_elem_of_filter)%list_elem_of_fmap.
  unfold is_text_feature in Htext. by apply andb_true_iff in Htext as [_ ?].
Qed.

Section emit.
Variable tf_cast_int32 : Tensor → Tensor.
Variable text_tensors : pydict Tensor.

Lemma ParseTokenizedText_emit_run (σ0 : store) (out : pydict value)
    (inner : list (pydict value)) (c : string) (ids mask : Tensor) :
  dict_get (c +:+ "/tokens") text_tensors = Some ids →
  dict_get (c +:+ "/attention_mask") text_tensors = Some mask →
  ParseTokenizedText_emit tf_cast_int32 text_tensors (length σ0) c
    (σ0 ++ out :: inner)
  = Return ((), σ0 ++ dict_set c (VDict (length σ0 + S (length inner))) out
                   :: (inner ++ [[("input_ids", VTensor (tf_cast_int32 ids));
                                  ("attention_mask",
                                   VTensor (tf_cast_int32 mask))]])).
Proof.
  intros Hids Hmask. unfold ParseTokenizedText_emit, dict_getitem.
  rewrite Hids, Hmask.
  erewrite bind_Return; [|by apply lift_Return].
  erewrite bind_Return; [|by apply lift_Return].
  erewrite bind_Return; [|reflexivity].
  unfold setitem.
  rewrite <- app_assoc, <- app_comm_cons.
  erewrite bind_Return; [|by apply load_Return, list_lookup_middle].
  unfold save. rewrite insert_app_r_alt, Nat.sub_diag by done.
  rewrite length_app. reflexivity.
Qed.

Lemma ParseTokenizedText_emit_raise (outputs : loc) (c : string) (σ : store) :
  dict_get (c +:+ "/tokens") text_tensors = None
  ∨ dict_get (c +:+ "/attention_mask") text_tensors = None →
  ∃ k, dict_get k text_tensors = None
    ∧ ParseTokenizedText_emit tf_cast_int32 text_tensors outputs c σ
      = Raise (KeyError k).
Proof.
  intros Hmissing. unfold ParseTokenizedText_emit, dict_getitem.
  destruct (dict_get (c +:+ "/tokens") text_tensors) as [ids|] eqn:Hids.
  - destruct Hmissing as [|Hmask]; [done|].
    exists (c +:+ "/attention_mask"). split; [done|].
    erewrite bind_Return; [|by apply lift_Return].
    rewrite Hmask. by apply bind_Raise, lift_Raise.
  - exists (c +:+ "/tokens"). split; [done|].
    by apply bind_Raise, lift_Raise.
Qed.

Lemma ParseTokenizedText_emit_loop (σ0 : store) (cols : list string)
    (out : pydict value) (inner entries : list (pydict value)) :
  NoDup (out.*1 ++ cols) →
  Forall2 (λ c entry, ∃ ids mask,
      dict_get (c +:+ "/tokens") text_tensors = Some ids
      ∧ dict_get (c +:+ "/attention_mask") text_tensors = Some mask
      ∧ entry = [("input_ids", VTensor (tf_cast_int32 ids));
                 ("attention_mask", VTensor (tf_cast_int32 mask))])
    cols entries →
  for_each cols (ParseTokenizedText_emit tf_cast_int32 text_tensors (length σ0))
    (σ0 ++ out :: inner)
  = Return ((), σ0 ++ (out ++ imap (λ i c,
                          (c, VDict (length σ0 + S (length inner + i)))) cols)
                   :: (inner ++ entries)).
Proof.
  intros Hnd Hall. revert out inner Hnd.
  induction Hall as [|c entry cols entries (ids & mask & Hids & Hmask & ->) _ IH];
    intros out inner Hnd.
  - simpl. by rewrite !app_nil_r.
  - cbn [for_each].
    erewrite bind_Return; [|by apply ParseTokenizedText_emit_run].
    rewrite dict_set_fresh; last first.
    { apply NoDup_app in Hnd as (_ & Hdisj & _).
      intros Hin. apply (Hdisj c Hin). left. }
    rewrite IH; last first.
    { rewrite fmap_app. simpl. by rewrite <- app_assoc. }
    rewrite imap_cons, <- !app_assoc. cbn [app].
    rewrite Nat.add_0_r.
    rewrite (imap_ext _
      ((λ i c, (c, VDict (length σ0 + S (length inner + i)))) ∘ S) cols);
      [done|].
    intros i c' _. simpl. rewrite length_app. simpl.
    do 3 f_equal. lia.
Qed.

Lemma ParseTokenizedText_emit_loop_raise (σ0 : store) (cols : list string)
    (out : pydict value) (inner : list (pydict value)) (c : string) :
  c ∈ cols →
  dict_get (c +:+ "/tokens") text_tensors = None
  ∨ dict_get (c +:+ "/attention_mask") text_tensors = None →
  ∃ k, dict_get k text_tensors = None
    ∧ for_each cols
        (ParseTokenizedText_emit tf_cast_int32 text_tensors (length σ0))
        (σ0 ++ out :: inner)
      = Raise (KeyError k).
Proof.
  intros Hin Hmissing. revert out inner.
  induction cols as [|c0 cols IH]; intros out inner.
  { by apply elem_of_nil in Hin. }
  cbn [for_each].
  destruct (dict_get (c0 +:+ "/tokens") text_tensors) as [ids|] eqn:Hids;
    [destruct (dict_get (c0 +:+ "/attention_mask") text_tensors)
       as [mask|] eqn:Hmask|].
  - erewrite bind_Return; [|by apply ParseTokenizedText_emit_run].
    apply IH. apply elem_of_cons in Hin as [->|Hin]; [|done].
    rewrite Hids, Hmask in Hmissing. by destruct Hmissing.
  - destruct (ParseTokenizedText_emit_raise (length σ0) c0 (σ0 ++ out :: inner))
      as (k & Hk & Hraise); [by right|].
    exists k. split; [done|]. by apply bind_Raise.
  - destruct (ParseTokenizedText_emit_raise (length σ0) c0 (σ0 ++ out :: inner))
      as (k & Hk & Hraise); [by left|].
    exists k. split; [done|]. by apply bind_Raise.
Qed.

End emit.

Lemma ParseTokenizedText_call_run (set_order : list string → list string)
    (tf_cast_int32 : Tensor → Tensor) (r : loc) (B : pydict value)
    (T : pydict Tensor) (σ : store) :
  σ !! r = Some B → NoDup B.*1 →
  Forall2 (λ kv kt, kt.1 = kv.1 ∧ densified kv.2 = Return (VTensor kt.2))
    (filter (λ kv, is_text_feature kv = true) B) T →
  ParseTokenizedText_call set_order tf_cast_int32 (VDict r) σ
  = (for_each (set_order (text_column_name <$> T.*1))
       (ParseTokenizedText_emit tf_cast_int32 T (length σ));;
     mret (VDict (length σ))) (σ ++ [[]]).
Proof.
  intros Hr Hnd Hall. unfold ParseTokenizedText_call.
  erewrite bind_Return; [|reflexivity].
  erewrite bind_Return; last first.
  { apply load_Return. rewrite lookup_app_l; [done|]. by eapply lookup_lt_Some. }
  erewrite bind_Return; last first.
  { apply lift_Return. by apply ParseTokenizedText_scan_loop. }
  cbn [fst snd app]. rewrite dict_update_fresh; [done|].
  rewrite app_nil_l, (text_features_keys B T Hall).
  by apply NoDup_fst_filter.
Qed.

Lemma complete_entries (tf_cast_int32 : Tensor → Tensor) (T : pydict Tensor)
    (cols : list string) :
  Forall (λ c, c +:+ "/tokens" ∈ T.*1 ∧ c +:+ "/attention_mask" ∈ T.*1) cols →
  ∃ entries : list (pydict value),
    Forall2 (λ c entry, ∃ ids mask,
        dict_get (c +:+ "/tokens") T = Some ids
        ∧ dict_get (c +:+ "/attention_mask") T = Some mask
        ∧ entry = [("input_ids", VTensor (tf_cast_int32 ids));
                   ("attention_mask", VTensor (tf_cast_int32 mask))])
      cols entries.
Proof.
  induction 1 as [|c cols [Hids Hmask] _ [entries IH]]; [by exists []|].
  apply dict_get_Some_elem in Hids as [ids Hids].
  apply dict_get_Some_elem in Hmask as [mask Hmask].
  eexists (_ :: entries). constructor; [|done]. by exists ids, mask.
Qed.

(** X22.  [ParseTokenizedText.call] on a bundle in which every text
    column has both its features: the call leaves the bundle as it is
    and returns a new dict with one key per text column (a column is
    there when its [/tokens] feature is) and nothing else, so the
    features that are no tokenized text are dropped; under each key
    lies a new dict of its own that holds, cast to [int32], the dense
    tensors of the column's tokens and attention mask. *)
Theorem ParseTokenizedText_call_spec (set_order : list string → list string)
    (tf_cast_int32 : Tensor → Tensor) (r : loc) (B : pydict value)
    (T : pydict Tensor) (σ : store) :
  (∀ names, NoDup (set_order names)) →
  (∀ names c, c ∈ set_order names ↔ c ∈ names) →
  σ !! r = Some B → NoDup B.*1 →
  Forall2 (λ kv kt, kt.1 = kv.1 ∧ densified kv.2 = Return (VTensor kt.2))
    (filter (λ kv, is_text_feature kv = true) B) T →
  Forall (λ name, text_column_name name +:+ "/tokens" ∈ T.*1
                  ∧ text_column_name name +:+ "/attention_mask" ∈ T.*1) T.*1 →
  ∃ (cols : list string) (entries : list (pydict value)),
    ParseTokenizedText_call set_order tf_cast_int32 (VDict r) σ
    = Return (VDict (length σ),
              σ ++ imap (λ i c, (c, VDict (length σ + S i))) cols :: entries)
    ∧ NoDup cols
    ∧ (∀ c, c ∈ cols ↔ c +:+ "/tokens" ∈ T.*1)
    ∧ Forall2 (λ c entry, ∃ ids mask,
          dict_get (c +:+ "/tokens") T = Some ids
          ∧ dict_get (c +:+ "/attention_mask") T = Some mask
          ∧ entry = [("input_ids", VTensor (tf_cast_int32 ids));
                     ("attention_mask", VTensor (tf_cast_int32 mask))])
        cols entries.
Proof.
  intros Hdistinct Helem Hr Hnd Hall Hcomplete.
  set (cols := set_order (text_column_name <$> T.*1)).
  assert (Forall (λ c, c +:+ "/tokens" ∈ T.*1
                       ∧ c +:+ "/attention_mask" ∈ T.*1) cols) as Hcols.
  { apply Forall_forall. intros c Hc. apply (proj1 (Helem _ _)) in Hc.
    apply list_elem_of_fmap in Hc as (name & -> & Hname).
    by apply (proj1 (Forall_forall _ _) Hcomplete). }
  destruct (complete_entries tf_cast_int32 T cols Hcols) as [entries Hentries].
  exists cols, entries. split_and!.
  - rewrite (ParseTokenizedText_call_run set_order tf_cast_int32 r B T σ)
      by done.
    fold cols. erewrite bind_Return; last first.
    { apply (ParseTokenizedText_emit_loop tf_cast_int32 T σ cols [] [] entries);
        [apply Hdistinct|done]. }
    reflexivity.
  - apply Hdistinct.
  - intros c. unfold cols. rewrite Helem. split.
    + intros (name & -> & Hname)%list_elem_of_fmap.
      by apply (proj1 (Forall_forall _ _) Hcomplete).
    + intros Hc. apply list_elem_of_fmap. exists (c +:+ "/tokens").
      split; [|done]. symmetry. by apply (text_column_name_app c "tokens").
  - done.
Qed.

Lemma ParseTokenizedText_call_spec_witness :
  let values := mkTensor [5; 1] [1; 2; 3; 4; 5]%Z in
  let row_lengths := mkTensor [3; 1] [2; 0; 3]%Z in
  let dense := mkTensor [3; 3] [1; 2; 0; 0; 0; 0; 3; 4; 5]%Z in
  let B : pydict value :=
    [("title/tokens", VTuple [values; row_lengths]);
     ("price", VTensor values);
     ("title/attention_mask", VTuple [values; row_lengths])] in
  let T : pydict Tensor :=
    [("title/tokens", dense); ("title/attention_mask", dense)] in
  let σ : store := [B] in
  ((∀ names : list string, NoDup (remove_dups names))
   ∧ (∀ (names : list string) c, c ∈ remove_dups names ↔ c ∈ names)
   ∧ σ !! 0 = Some B ∧ NoDup B.*1
   ∧ Forall2 (λ kv kt, kt.1 = kv.1 ∧ densified kv.2 = Return (VTensor kt.2))
       (filter (λ kv, is_text_feature kv = true) B) T
   ∧ Forall (λ name, text_column_name name +:+ "/tokens" ∈ T.*1
                     ∧ text_column_name name +:+ "/attention_mask" ∈ T.*1)
       T.*1)
  ∧ ∃ (cols : list string) (entries : list (pydict value)),
      ParseTokenizedText_call remove_dups id (VDict 0) σ
      = Return (VDict 1,
                σ ++ imap (λ i c, (c, VDict (1 + S i))) cols :: entries)
      ∧ NoDup cols
      ∧ (∀ c, c ∈ cols ↔ c +:+ "/tokens" ∈ T.*1)
      ∧ Forall2 (λ c entry, ∃ ids mask,
            dict_get (c +:+ "/tokens") T = Some ids
            ∧ dict_get (c +:+ "/attention_mask") T = Some mask
            ∧ entry = [("input_ids", VTensor (id ids));
                       ("attention_mask", VTensor (id mask))])
          cols entries.
Proof.
  intros values row_lengths dense B T σ.
  assert (∀ names : list string, NoDup (remove_dups names)) as Hdistinct
    by apply NoDup_remove_dups.
  assert (∀ (names : list string) c, c ∈ remove_dups names ↔ c ∈ names)
    as Helem by (intros names c; apply elem_of_remove_dups).
  assert (NoDup B.*1) as Hnd by (by apply (bool_decide_unpack _)).
  assert (Forall2 (λ kv kt, kt.1 = kv.1
                            ∧ densified kv.2 = Return (VTensor kt.2))
            (filter (λ kv, is_text_feature kv = true) B) T) as Hall
    by (by repeat constructor).
  assert (Forall (λ name, text_column_name name +:+ "/tokens" ∈ T.*1
                          ∧ text_column_name name +:+ "/attention_mask" ∈ T.*1)
            T.*1) as Hcomplete
    by (by apply (bool_decide_unpack _)).
  split; [by split_and!|].
  exact (ParseTokenizedText_call_spec remove_dups id 0 B T σ Hdistinct Helem
           eq_refl Hnd Hall Hcomplete).
Defined.

(** X23.  [ParseTokenizedText.call] raises [KeyError] on a bundle in
    which some text column has its tokens without its attention mask,
    or its attention mask without its tokens; the key it reports is one
    that no text feature of the bundle has.  The shape function of the
    layer, for its part, returns an entry for such a column. *)
Theorem ParseTokenizedText_call_incomplete
    (set_order : list string → list string) (tf_cast_int32 : Tensor → Tensor)
    (r : loc) (B : pydict value) (T : pydict Tensor) (σ : store) (c : string) :
  (∀ names c, c ∈ set_order names ↔ c ∈ names) →
  σ !! r = Some B → NoDup B.*1 →
  Forall2 (λ kv kt, kt.1 = kv.1 ∧ densified kv.2 = Return (VTensor kt.2))
    (filter (λ kv, is_text_feature kv = true) B) T →
  (c +:+ "/tokens" ∈ T.*1 ∧ c +:+ "/attention_mask" ∉ T.*1)
  ∨ (c +:+ "/attention_mask" ∈ T.*1 ∧ c +:+ "/tokens" ∉ T.*1) →
  ∃ k, ¬ (k ∈ T.*1)
    ∧ ParseTokenizedText_call set_order tf_cast_int32 (VDict r) σ
      = Raise (KeyError k).
Proof.
  intros Helem Hr Hnd Hall Hhalf.
  rewrite (ParseTokenizedText_call_run set_order tf_cast_int32 r B T σ)
    by done.
  destruct (ParseTokenizedText_emit_loop_raise tf_cast_int32 T σ
              (set_order (text_column_name <$> T.*1)) [] [] c)
    as (k & Hk & Hraise).
  - apply Helem, list_elem_of_fmap.
    destruct Hhalf as [[Hin _]|[Hin _]].
    + exists (c +:+ "/tokens"). split; [|done].
      symmetry. by apply (text_column_name_app c "tokens").
    + exists (c +:+ "/attention_mask"). split; [|done].
      symmetry. by apply (text_column_name_app c "attention_mask").
  - destruct Hhalf as [[_ Hout]|[_ Hout]].
    + right. by apply dict_get_None.
    + left. by apply dict_get_None.
  - exists k. split.
    + intros Hin. apply dict_get_Some_elem in Hin as [t Ht]. congruence.
    + by apply bind_Raise.
Qed.

Lemma ParseTokenizedText_call_incomplete_witness :
  let values := mkTensor [5; 1] [1; 2; 3; 4; 5]%Z in
  let row_lengths := mkTensor [3; 1] [2; 0; 3]%Z in
  let dense := mkTensor [3; 3] [1; 2; 0; 0; 0; 0; 3; 4; 5]%Z in
  let B : pydict value :=
    [("title/tokens", VTuple [values; row_lengths]);
     ("title/attention_mask", VTensor values)] in
  let T : pydict Tensor := [("title/tokens", dense)] in
  let σ : store := [B] in
  ((∀ (names : list string) c, c ∈ remove_dups names ↔ c ∈ names)
   ∧ σ !! 0 = Some B ∧ NoDup B.*1
   ∧ Forall2 (λ kv kt, kt.1 = kv.1 ∧ densified kv.2 = Return (VTensor kt.2))
       (filter (λ kv, is_text_feature kv = true) B) T
   ∧ (("title" +:+ "/tokens" ∈ T.*1 ∧ "title" +:+ "/attention_mask" ∉ T.*1)
      ∨ ("title" +:+ "/attention_mask" ∈ T.*1 ∧ "title" +:+ "/tokens" ∉ T.*1)))
  ∧ ∃ k, ¬ (k ∈ T.*1)
      ∧ ParseTokenizedText_call remove_dups id (VDict 0) σ
        = Raise (KeyError k).
Proof.
  intros values row_lengths dense B T σ.
  assert (∀ (names : list string) c, c ∈ remove_dups names ↔ c ∈ names)
    as Helem by (intros names c; apply elem_of_remove_dups).
  assert (NoDup B.*1) as Hnd by (by apply (bool_decide_unpack _)).
  assert (Forall2 (λ kv kt, kt.1 = kv.1
                            ∧ densified kv.2 = Return (VTensor kt.2))
            (filter (λ kv, is_text_feature kv = true) B) T) as Hall
    by (by repeat constructor).
  assert (("title" +:+ "/tokens" ∈ T.*1 ∧ "title" +:+ "/attention_mask" ∉ T.*1)
          ∨ ("title" +:+ "/attention_mask" ∈ T.*1
             ∧ "title" +:+ "/tokens" ∉ T.*1)) as Hhalf
    by (left; by apply (bool_decide_unpack _)).
  split; [by split_and!|].
  exact (ParseTokenizedText_call_incomplete remove_dups id 0 B T σ "title"
           Helem eq_refl Hnd Hall Hhalf).
Defined.
